(** * Write It: the note editor of [notes_app.py]

    A shallow embedding of the document core of the application: the
    [tkinter.Text] widget that holds the note, the SQLite tables behind
    it, and the methods of [NotesApp] that edit, save and load a note.

    Conventions of the embedding.
    - A position of the text widget (a Tk index such as ["1.0"] or
      ["insert"]) is the flat offset it denotes.  The ["line.column"] text of
      an index appears only where the source turns an index into a string
      ([save_formatting_data]) or reads one back ([open_note_by_id]).
    - The widget is a list of cells, a character or an embedded image each,
      every one with the tags it carries; its last cell is the final
      newline that Tk keeps in every text widget.
    - Dialogs, the clock and the clipboard are inputs of the method that
      asks for them.  Colours, button states, message boxes and
      [tag_configure] (how a tag is drawn) are left out.
    - A string is a sequence of code points below 256, one to a
      character. *)

From Stdlib Require Import String Ascii List ZArith Lia Bool Arith.
From Stdlib Require Import DecimalString Decimal DecimalNat Permutation Sorted.
Import ListNotations.

Open Scope string_scope.
Open Scope list_scope.
Open Scope nat_scope.

Set Implicit Arguments.
Set Warnings "-register-all".

(** ** Python values used by the application *)

Module Py.

(** [str(z)] for an [int]. *)
Definition digits (n : nat) : string :=
  NilZero.string_of_uint (Nat.to_uint n).

Definition str (z : Z) : string :=
  match z with
  | Zneg _ => "-" ++ digits (Z.abs_nat z)
  | _ => digits (Z.abs_nat z)
  end.

(** [k.isdigit()], for code points below 256: a non-empty string of
    characters with the Unicode property Digit.  Those are the ten decimal
    digits and the superscripts two, three and one (code points 178, 179
    and 185), which [int] below does not read. *)
Definition is_digit (c : ascii) : bool :=
  let n := nat_of_ascii c in
  ((48 <=? n) && (n <=? 57)) || (n =? 178) || (n =? 179) || (n =? 185).

Definition isdigit (s : string) : bool :=
  match s with
  | EmptyString => false
  | _ => forallb is_digit (list_ascii_of_string s)
  end.

(** [int(s)]: an optional sign and decimal digits; [None] is
    [ValueError].  The blanks and underscores that Python also accepts
    are not read, and no length is too much (a recent Python refuses more
    than 4300 digits). *)
Definition of_digits (s : string) : option Z :=
  option_map (fun d => Z.of_nat (Nat.of_uint d)) (NilZero.uint_of_string s).

Definition int (s : string) : option Z :=
  match s with
  | String "-" r => option_map Z.opp (of_digits r)
  | String "+" r => of_digits r
  | _ => of_digits s
  end.

(** Whitespace as [str.strip()] sees it, for code points below 256. *)
Definition isspace (c : ascii) : bool :=
  let n := nat_of_ascii c in
  ((9 <=? n) && (n <=? 13)) || ((28 <=? n) && (n <=? 32))
  || (n =? 133) || (n =? 160).

Fixpoint lstrip (s : string) : string :=
  match s with
  | String c r => if isspace c then lstrip r else s
  | EmptyString => EmptyString
  end.

Fixpoint rstrip (s : string) : string :=
  match s with
  | String c r =>
      match rstrip r with
      | EmptyString => if isspace c then EmptyString else String c EmptyString
      | r' => String c r'
      end
  | EmptyString => EmptyString
  end.

Definition strip (s : string) : string := rstrip (lstrip s).

(** Truth value of a string: [not s] holds for the empty string. *)
Definition nonempty (s : string) : bool :=
  match s with EmptyString => false | _ => true end.

(** [max(l, default=d)]. *)
Definition max_default (l : list Z) (d : Z) : Z :=
  match l with
  | [] => d
  | x :: r => fold_left Z.max r x
  end.

(** A [dict] with string keys keeps its keys in insertion order. *)
Section Dict.
Variable V : Type.

Fixpoint get (k : string) (d : list (string * V)) : option V :=
  match d with
  | [] => None
  | (k', v) :: r => if String.eqb k k' then Some v else get k r
  end.

(** [d[k] = v]: replaces the value of an existing key where it stands,
    appends a new key. *)
Fixpoint set (k : string) (v : V) (d : list (string * V))
  : list (string * V) :=
  match d with
  | [] => [(k, v)]
  | (k', v') :: r =>
      if String.eqb k k' then (k, v) :: r else (k', v') :: set k v r
  end.

Definition keys (d : list (string * V)) : list string := map fst d.
End Dict.

End Py.

(** ** Images and their bytes

    PIL is kept symbolic.  A picture is what [Image.open] or
    [ImageGrab.grabclipboard] hands over, or the result of the one resize
    call the application makes. *)

Inductive picture : Type :=
| Pixels (name : string) (w h : Z)
| Lanczos500 (p : picture).
    (* p.resize((500, int(p.height * (500 / p.width))), Image.LANCZOS) *)

Definition width (p : picture) : Z :=
  match p with
  | Pixels _ w _ => w
  | Lanczos500 _ => 500
  end.

(** The three places that resize share this guard:
    [if img.width > 500: img = img.resize(...)]. *)
Definition resize_if_large (img : picture) : picture :=
  if (500 <? width img)%Z then Lanczos500 img else img.

(** A sequence of bytes is described by what it decodes to. *)
Inductive bytes : Type :=
| ImageBytes (format : string) (p : picture)
| OtherBytes (s : string).

(** [Image.open]; [None] is [UnidentifiedImageError]. *)
Definition Image_open (b : bytes) : option picture :=
  match b with
  | ImageBytes _ p => Some p
  | OtherBytes _ => None
  end.

(** [img.save(buffer, format="PNG"); buffer.getvalue()]. *)
Definition save_png (img : picture) : bytes := ImageBytes "PNG" img.

(** ** JSON values

    What [json.loads] returns and [json.dumps] accepts.  [JB64 b] is the
    string [base64.b64encode(b).decode('utf-8')]; a Python tuple is the
    list it is dumped as; numbers are integers. *)

Inductive json : Type :=
| JNull
| JBool (b : bool)
| JNum (z : Z)
| JStr (s : string)
| JB64 (b : bytes)
| JList (l : list json)
| JDict (d : list (string * json)).

(** Truth value of a Python object, as in [if images_data]. *)
Definition truthy (j : json) : bool :=
  match j with
  | JNull => false
  | JBool b => b
  | JNum z => negb (z =? 0)%Z
  | JStr s => Py.nonempty s
  | JB64 _ => true
  | JList l => match l with [] => false | _ => true end
  | JDict d => match d with [] => false | _ => true end
  end.

(** [base64.b64decode(v)] followed by [Image.open(io.BytesIO(...))]: both
    raise inside the same [try], so one [None] stands for either. *)
Definition decode_image (v : json) : option picture :=
  match v with
  | JB64 b => Image_open b
  | _ => None
  end.

(** A TEXT column that the application fills with JSON.  The text is
    described by what [json.loads] makes of it. *)
Inductive column : Type :=
| Null
| Malformed (s : string)     (* json.loads raises on this text *)
| Dumped (j : json).         (* json.dumps j, or any text that loads to j *)

(** [col and col != "{}"], the guard in front of both [json.loads]. *)
Definition worth_loading (c : column) : bool :=
  match c with
  | Null => false
  | Malformed s => Py.nonempty s
  | Dumped (JDict []) => false
  | Dumped _ => true
  end.

Definition json_loads (c : column) : option json :=
  match c with
  | Dumped j => Some j
  | _ => None
  end.

(** ** The text widget

    [tkinter.Text] as the application uses it.  Tags live on cells: a tag
    range is a maximal run of cells that carry the tag.  The selection is
    the tag ["sel"]. *)

Module Tk.

Inductive item : Type :=
| Chr (c : ascii)
| Pic (p : picture).

Record cell : Type := Cell { item_of : item; tags_of : list string }.

(** The value of a widget's [font] option: a description such as the
    tuple [(family, size)], or the name of a named font. *)
Inductive font_option : Type :=
| Described (family : string) (size : Z)
| Named (name : string).

Record text : Type := Text {
  cells : list cell;            (* ends with the final newline *)
  insert_mark : nat;            (* the mark "insert", right gravity *)
  modified : bool;              (* the flag behind edit_modified() *)
  font : font_option            (* the widget's own font *)
}.

Definition newline : ascii := ascii_of_nat 10.

Definition empty (f : font_option) : text :=
  Text [Cell (Chr newline) []] 0 false f.

(** The index ["end"]: just after the final newline. *)
Definition END (w : text) : nat := length (cells w).

Definition is_newline (c : cell) : bool :=
  match item_of c with
  | Chr a => Ascii.eqb a newline
  | Pic _ => false
  end.

Definition has_tag (t : string) (c : cell) : bool :=
  existsb (String.eqb t) (tags_of c).

(** ["i + k c"] and ["i - k c"]: movement stops at both ends. *)
Definition forward (w : text) (i k : nat) : nat := Nat.min (i + k) (END w).
Definition backward (i k : nat) : nat := i - k.

(** Text inserted without a tag list receives the tags present on both
    the cell before and the cell after the insertion point. *)
Definition inherited (cs : list cell) (p : nat) : list string :=
  match p with
  | 0 => []
  | S q =>
      match nth_error cs q, nth_error cs p with
      | Some a, Some b => filter (fun t => has_tag t b) (tags_of a)
      | _, _ => []
      end
  end.

Definition splice (cs : list cell) (p : nat) (new : list item) : list cell :=
  firstn p cs ++ map (fun i => Cell i (inherited cs p)) new ++ skipn p cs.

(** Where an insertion at index [i] lands: never after the final
    newline. *)
Definition landing (w : text) (i : nat) : nat := Nat.min i (END w - 1).

Definition push_mark (m p n : nat) : nat := if p <=? m then m + n else m.

(** [w.insert(i, s)]. *)
Definition insert (w : text) (i : nat) (s : string) : text :=
  match s with
  | EmptyString => w
  | _ =>
      let p := landing w i in
      Text (splice (cells w) p (map Chr (list_ascii_of_string s)))
           (push_mark (insert_mark w) p (String.length s))
           true (font w)
  end.

(** [w.image_create(i, image=photo)]: one cell; the modified flag is that
    of text changes and stays as it is. *)
Definition image_create (w : text) (i : nat) (p : picture) : text :=
  let q := landing w i in
  Text (splice (cells w) q [Pic p]) (push_mark (insert_mark w) q 1)
       (modified w) (font w).

Definition pull_mark (m i j : nat) : nat :=
  if m <=? i then m else if m <? j then i else m - (j - i).

Definition strip_tags (c : cell) : cell := Cell (item_of c) [].

(** What a deletion up to ["end"] does to the final newline: it stays,
    without its tags. *)
Fixpoint clean_last (cs : list cell) : list cell :=
  match cs with
  | [] => []
  | [c] => [strip_tags c]
  | c :: r => c :: clean_last r
  end.

(** [w.delete(i, j)].  The final newline cannot be deleted: a range that
    reaches ["end"] stops in front of it, and takes the newline before
    the range instead when the range starts a line. *)
Definition delete (w : text) (i j : nat) : text :=
  let n := END w in
  let i := Nat.min i n in
  let j := Nat.min j n in
  if j <=? i then w
  else
    let to_end := j =? n in
    let j' := if to_end then n - 1 else j in
    let i' :=
      if to_end && (0 <? i)
         && match nth_error (cells w) (i - 1) with
            | Some c => is_newline c
            | None => false
            end
      then i - 1 else i in
    let cs := if to_end then clean_last (cells w) else cells w in
    Text (firstn i' cs ++ skipn j' cs) (pull_mark (insert_mark w) i' j')
         true (font w).

Definition add_to (t : string) (c : cell) : cell :=
  if has_tag t c then c else Cell (item_of c) (tags_of c ++ [t]).

Definition remove_from (t : string) (c : cell) : cell :=
  Cell (item_of c) (filter (fun u => negb (String.eqb t u)) (tags_of c)).

(** Applies [f] to the cells at offsets [i <= p < j]. *)
Fixpoint on_range (f : cell -> cell) (i j : nat) (cs : list cell)
  {struct cs} : list cell :=
  match cs with
  | [] => []
  | c :: r =>
      match j with
      | 0 => cs
      | S j' =>
          match i with
          | 0 => f c :: on_range f 0 j' r
          | S i' => c :: on_range f i' j' r
          end
      end
  end.

Definition with_cells (w : text) (cs : list cell) : text :=
  Text cs (insert_mark w) (modified w) (font w).

(** [w.tag_add(t, i, j)] and [w.tag_remove(t, i, j)]. *)
Definition tag_add (w : text) (t : string) (i j : nat) : text :=
  with_cells w (on_range (add_to t) i j (cells w)).

Definition tag_remove (w : text) (t : string) (i j : nat) : text :=
  with_cells w (on_range (remove_from t) i j (cells w)).

(** [w.tag_names(i)]. *)
Definition tag_names (w : text) (i : nat) : list string :=
  match nth_error (cells w) i with
  | Some c => tags_of c
  | None => []
  end.

(** [w.tag_ranges(t)], as (start, end) pairs.  [at_] is the offset of the
    head of [cs]; [open] is the start of the run being read. *)
Fixpoint ranges_from (t : string) (at_ : nat) (open : option nat)
  (cs : list cell) : list (nat * nat) :=
  match cs with
  | [] => match open with Some s => [(s, at_)] | None => [] end
  | c :: r =>
      if has_tag t c
      then ranges_from t (S at_)
             (match open with Some s => Some s | None => Some at_ end) r
      else match open with
           | Some s => (s, at_) :: ranges_from t (S at_) None r
           | None => ranges_from t (S at_) None r
           end
  end.

Definition tag_ranges (w : text) (t : string) : list (nat * nat) :=
  ranges_from t 0 None (cells w).

(** The characters of a list of cells: an embedded image has none. *)
Fixpoint chars (cs : list cell) : string :=
  match cs with
  | [] => EmptyString
  | c :: r =>
      match item_of c with
      | Chr a => String a (chars r)
      | Pic _ => chars r
      end
  end.

(** [w.get(i, j)]. *)
Definition get (w : text) (i j : nat) : string :=
  chars (firstn (j - i) (skipn i (cells w))).

(** [w.index("insert")] is [insert_mark w]. *)

(** ["sel.first"] and ["sel.last"]; [None] is the [TclError] raised when
    nothing is selected. *)
Fixpoint first_with (t : string) (at_ : nat) (cs : list cell) : option nat :=
  match cs with
  | [] => None
  | c :: r => if has_tag t c then Some at_ else first_with t (S at_) r
  end.

Fixpoint last_with (t : string) (at_ : nat) (cs : list cell) : option nat :=
  match cs with
  | [] => None
  | c :: r =>
      match last_with t (S at_) r with
      | Some e => Some e
      | None => if has_tag t c then Some (S at_) else None
      end
  end.

Definition sel_first (w : text) : option nat := first_with "sel" 0 (cells w).
Definition sel_last (w : text) : option nat := last_with "sel" 0 (cells w).

(** Whether the characters of [pat] stand at the head of [cs]. *)
Fixpoint starts_with (pat : list ascii) (cs : list cell) : bool :=
  match pat with
  | [] => true
  | a :: pat' =>
      match cs with
      | [] => false
      | c :: r =>
          match item_of c with
          | Chr b => Ascii.eqb a b && starts_with pat' r
          | Pic _ => false
          end
      end
  end.

Fixpoint find_from (pat : list ascii) (at_ : nat) (cs : list cell)
  : option nat :=
  match cs with
  | [] => None
  | _ :: r =>
      if starts_with pat cs then Some at_ else find_from pat (S at_) r
  end.

(** [w.search(pat, i, "end")]: the first match at or after [i]; [None]
    is the empty string Tk returns when there is none. *)
Definition search (w : text) (pat : string) (i : nat) : option nat :=
  find_from (list_ascii_of_string pat) i (skipn i (cells w)).

(** The text of an index, [str(index)]: line (from 1) and column (from
    0) of an offset.  An embedded image takes one column. *)
Fixpoint line_col (cs : list cell) (p line col : nat) : nat * nat :=
  match p, cs with
  | S q, c :: r =>
      if is_newline c then line_col r q (S line) 0
      else line_col r q line (S col)
  | _, _ => (line, col)
  end.

Definition index_text (w : text) (p : nat) : string :=
  let (l, c) := line_col (cells w) p 1 0 in
  Py.digits l ++ "." ++ Py.digits c.

(** The offset of column [col] on the line whose first cell heads [cs]:
    a column past the end of the line stops at its newline. *)
Fixpoint in_line (cs : list cell) (col at_ : nat) : nat :=
  match col, cs with
  | S k, c :: r => if is_newline c then at_ else in_line r k (S at_)
  | _, _ => at_
  end.

(** [skip] newlines further down; a line past the last one is ["end"]. *)
Fixpoint to_line (cs : list cell) (skip col at_ : nat) : nat :=
  match cs with
  | [] => at_
  | c :: r =>
      match skip with
      | 0 => in_line cs col at_
      | S k =>
          if is_newline c then to_line r k col (S at_)
          else to_line r skip col (S at_)
      end
  end.

(** An index read from a string.  Only the form ["line.column"] that
    [index_text] writes is understood; [None] is the [TclError] for a bad
    text index. *)
Definition parse_index (w : text) (s : string) : option nat :=
  match String.index 0 "." s with
  | None => None
  | Some k =>
      match NilZero.uint_of_string (substring 0 k s),
            NilZero.uint_of_string
              (substring (S k) (String.length s - S k) s) with
      | Some l, Some c =>
          Some (match Nat.of_uint l with
                | 0 => 0
                | S l' => to_line (cells w) l' (Nat.of_uint c) 0
                end)
      | _, _ => None
      end
  end.

End Tk.

(** ** The SQLite store

    The tables [notes] and [settings] of [advanced_notes.db].  Every
    function of the source opens its own connection, runs one statement
    and closes; the connection is kept because SQLite counts inserted rows
    per connection. *)

(** What SQLite puts in [created_at], a column the program never writes
    and never reads: its own [CURRENT_TIMESTAMP], the date and time in UTC
    to the second, taken when the row is inserted.  It is another reading,
    from another clock and of another shape, than the [datetime.now()] that
    Python puts in [updated_at], and it is kept apart from it by its type:
    [CURRENT_TIMESTAMP now] is what SQLite showed during the INSERT that
    Python stamped [now]. *)
Inductive timestamp : Type :=
| CURRENT_TIMESTAMP (inserted_at : Z).

Record note : Type := Note {
  note_id : Z;
  title : string;
  content : string;
  created_at : timestamp;
  updated_at : Z;
  images : column;
  formatting : column
}.

Record settings_row : Type := SettingsRow {
  row_id : Z;
  row_theme : string;
  row_font_family : string;
  row_font_size : Z
}.

Record database : Type := Database {
  notes : list note;
  settings_table : list settings_row
}.

(** The dict that [get_settings] returns and [save_settings] takes. *)
Record settings_dict : Type := Settings {
  theme : string;
  font_family : string;
  font_size : Z
}.

Module Sqlite.

Record connection : Type := Connection {
  store : database;
  last_rowid : Z     (* what SELECT last_insert_rowid() answers *)
}.

(** [sqlite3.connect(DATABASE)]: a connection that has inserted nothing
    yet answers 0. *)
Definition connect (d : database) : connection := Connection d 0%Z.

(** [conn.commit(); conn.close()]. *)
Definition close (c : connection) : database := store c.

(** The rowid an INTEGER PRIMARY KEY gets when none is given: one more
    than the largest in use, 1 in an empty table. *)
Definition next_rowid (ids : list Z) : Z :=
  (1 + fold_right Z.max 0 ids)%Z.

Definition insert_note (c : connection)
  (t : string) (body : string) (now : Z) (img fmt : column) : connection :=
  let d := store c in
  let id := next_rowid (map note_id (notes d)) in
  Connection
    (* created_at is not among the columns of the INSERT: it takes its
       DEFAULT; updated_at is the datetime.now() of the caller *)
    (Database (notes d ++ [Note id t body (CURRENT_TIMESTAMP now) now img fmt])
              (settings_table d))
    id.

Definition update_note (c : connection) (id : Z)
  (t : string) (body : string) (now : Z) (img fmt : column) : connection :=
  let d := store c in
  Connection
    (Database
       (map (fun r =>
               if (note_id r =? id)%Z
               then Note (note_id r) t body (created_at r) now img fmt
               else r)
            (notes d))
       (settings_table d))
    (last_rowid c).

(** ORDER BY updated_at DESC, as a stable insertion sort. *)
Fixpoint place (r : note) (l : list note) : list note :=
  match l with
  | [] => [r]
  | x :: l' =>
      if (updated_at r <? updated_at x)%Z then x :: place r l' else r :: l
  end.

Definition order_by_updated_at_desc (l : list note) : list note :=
  fold_right place [] l.

End Sqlite.

(** [json.dumps(data) if data else "{}"]. *)
Definition dumps_or_empty (data : json) : column :=
  if truthy data then Dumped data else Dumped (JDict []).

Definition create_tables (d : database) : database :=
  match settings_table d with
  | [] =>
      Database (notes d)
        [SettingsRow (Sqlite.next_rowid []) "dark" "Arial" 12]
  | _ => d
  end.

Definition get_settings (d : database) : settings_dict :=
  match find (fun r => (row_id r =? 1)%Z) (settings_table d) with
  | None => Settings "dark" "Arial" 12
  | Some r => Settings (row_theme r) (row_font_family r) (row_font_size r)
  end.

Definition save_settings (s : settings_dict) (d : database) : database :=
  Database (notes d)
    (map (fun r =>
            if (row_id r =? 1)%Z
            then SettingsRow (row_id r) (theme s) (font_family s) (font_size s)
            else r)
         (settings_table d)).

Definition save_note_to_db (t body : string) (images_data formatting_data : json)
  (now : Z) (d : database) : database :=
  let conn := Sqlite.connect d in
  let images_str := dumps_or_empty images_data in
  let formatting_str := dumps_or_empty formatting_data in
  Sqlite.close (Sqlite.insert_note conn t body now images_str formatting_str).

Definition update_note_in_db (id : Z) (t body : string)
  (images_data formatting_data : json) (now : Z) (d : database) : database :=
  let conn := Sqlite.connect d in
  let images_str := dumps_or_empty images_data in
  let formatting_str := dumps_or_empty formatting_data in
  Sqlite.close
    (Sqlite.update_note conn id t body now images_str formatting_str).

Definition get_notes_from_db (d : database) : list (Z * string) :=
  map (fun r => (note_id r, title r))
      (Sqlite.order_by_updated_at_desc (notes d)).

Definition get_recent_notes_from_db (limit : nat) (d : database)
  : list (Z * string * Z) :=
  firstn limit
    (map (fun r => (note_id r, title r, updated_at r))
         (Sqlite.order_by_updated_at_desc (notes d))).

(** The id asked for may be Python's [None], which matches no row. *)
Definition get_note_content (id : option Z) (d : database) : option note :=
  match id with
  | None => None
  | Some i => find (fun r => (note_id r =? i)%Z) (notes d)
  end.

Definition delete_note_from_db (id : Z) (d : database) : database :=
  Database (filter (fun r => negb (note_id r =? id)%Z) (notes d))
           (settings_table d).

(** ** The application

    The attributes of [NotesApp] that the document core reads and writes,
    together with what lies outside the object: the database file, the
    fonts of the host, the named fonts of the Tk interpreter. *)

(** [self.current_format]. *)
Record format : Type := Format {
  bold : bool;
  italic : bool;
  underline : bool;
  fmt_font_size : Z;        (* current_format['font_size'] *)
  fmt_font_family : string  (* current_format['font_family'] *)
}.

Record world : Type := World {
  settings : settings_dict;   (* self.settings *)
  current_note_id : option Z;   (* None for a note not saved yet *)
  images_data : json;   (* dict, or whatever json.loads returned *)
  image_counter : Z;
  formatting_data : json;
  open_notes : list (option Z * string);   (* (note id, title) of every tab *)
  active_tab : option Z;
  current_format : format;
  text_area : Tk.text;
  image_references : list (string * picture);   (* photos kept alive for the widget *)
  tab_references : list (option Z);   (* the keys of the dict of tab widgets *)
  status_bar : string;   (* the last message of animate_status_bar *)
  disk : database;   (* advanced_notes.db *)
  families : list string;   (* font.families() *)
  named_fonts : list (string * (string * Z))   (* the named fonts the application created *)
}.

Definition set_settings (v : settings_dict) (s : world) : world :=
  {| settings := v; current_note_id := current_note_id s;
     images_data := images_data s; image_counter := image_counter s;
     formatting_data := formatting_data s; open_notes := open_notes s;
     active_tab := active_tab s; current_format := current_format s;
     text_area := text_area s; image_references := image_references s;
     tab_references := tab_references s; status_bar := status_bar s;
     disk := disk s; families := families s;
     named_fonts := named_fonts s |}.

Definition set_current_note_id (v : option Z) (s : world) : world :=
  {| settings := settings s; current_note_id := v;
     images_data := images_data s; image_counter := image_counter s;
     formatting_data := formatting_data s; open_notes := open_notes s;
     active_tab := active_tab s; current_format := current_format s;
     text_area := text_area s; image_references := image_references s;
     tab_references := tab_references s; status_bar := status_bar s;
     disk := disk s; families := families s;
     named_fonts := named_fonts s |}.

Definition set_images_data (v : json) (s : world) : world :=
  {| settings := settings s; current_note_id := current_note_id s;
     images_data := v; image_counter := image_counter s;
     formatting_data := formatting_data s; open_notes := open_notes s;
     active_tab := active_tab s; current_format := current_format s;
     text_area := text_area s; image_references := image_references s;
     tab_references := tab_references s; status_bar := status_bar s;
     disk := disk s; families := families s;
     named_fonts := named_fonts s |}.

Definition set_image_counter (v : Z) (s : world) : world :=
  {| settings := settings s; current_note_id := current_note_id s;
     images_data := images_data s; image_counter := v;
     formatting_data := formatting_data s; open_notes := open_notes s;
     active_tab := active_tab s; current_format := current_format s;
     text_area := text_area s; image_references := image_references s;
     tab_references := tab_references s; status_bar := status_bar s;
     disk := disk s; families := families s;
     named_fonts := named_fonts s |}.

Definition set_formatting_data (v : json) (s : world) : world :=
  {| settings := settings s; current_note_id := current_note_id s;
     images_data := images_data s; image_counter := image_counter s;
     formatting_data := v; open_notes := open_notes s;
     active_tab := active_tab s; current_format := current_format s;
     text_area := text_area s; image_references := image_references s;
     tab_references := tab_references s; status_bar := status_bar s;
     disk := disk s; families := families s;
     named_fonts := named_fonts s |}.

Definition set_open_notes (v : list (option Z * string)) (s : world) : world :=
  {| settings := settings s; current_note_id := current_note_id s;
     images_data := images_data s; image_counter := image_counter s;
     formatting_data := formatting_data s; open_notes := v;
     active_tab := active_tab s; current_format := current_format s;
     text_area := text_area s; image_references := image_references s;
     tab_references := tab_references s; status_bar := status_bar s;
     disk := disk s; families := families s;
     named_fonts := named_fonts s |}.

Definition set_active_tab (v : option Z) (s : world) : world :=
  {| settings := settings s; current_note_id := current_note_id s;
     images_data := images_data s; image_counter := image_counter s;
     formatting_data := formatting_data s; open_notes := open_notes s;
     active_tab := v; current_format := current_format s;
     text_area := text_area s; image_references := image_references s;
     tab_references := tab_references s; status_bar := status_bar s;
     disk := disk s; families := families s;
     named_fonts := named_fonts s |}.

Definition set_current_format (v : format) (s : world) : world :=
  {| settings := settings s; current_note_id := current_note_id s;
     images_data := images_data s; image_counter := image_counter s;
     formatting_data := formatting_data s; open_notes := open_notes s;
     active_tab := active_tab s; current_format := v;
     text_area := text_area s; image_references := image_references s;
     tab_references := tab_references s; status_bar := status_bar s;
     disk := disk s; families := families s;
     named_fonts := named_fonts s |}.

Definition set_text_area (v : Tk.text) (s : world) : world :=
  {| settings := settings s; current_note_id := current_note_id s;
     images_data := images_data s; image_counter := image_counter s;
     formatting_data := formatting_data s; open_notes := open_notes s;
     active_tab := active_tab s; current_format := current_format s;
     text_area := v; image_references := image_references s;
     tab_references := tab_references s; status_bar := status_bar s;
     disk := disk s; families := families s;
     named_fonts := named_fonts s |}.

Definition set_image_references (v : list (string * picture)) (s : world) : world :=
  {| settings := settings s; current_note_id := current_note_id s;
     images_data := images_data s; image_counter := image_counter s;
     formatting_data := formatting_data s; open_notes := open_notes s;
     active_tab := active_tab s; current_format := current_format s;
     text_area := text_area s; image_references := v;
     tab_references := tab_references s; status_bar := status_bar s;
     disk := disk s; families := families s;
     named_fonts := named_fonts s |}.

Definition set_tab_references (v : list (option Z)) (s : world) : world :=
  {| settings := settings s; current_note_id := current_note_id s;
     images_data := images_data s; image_counter := image_counter s;
     formatting_data := formatting_data s; open_notes := open_notes s;
     active_tab := active_tab s; current_format := current_format s;
     text_area := text_area s; image_references := image_references s;
     tab_references := v; status_bar := status_bar s; disk := disk s;
     families := families s; named_fonts := named_fonts s |}.

Definition set_status_bar (v : string) (s : world) : world :=
  {| settings := settings s; current_note_id := current_note_id s;
     images_data := images_data s; image_counter := image_counter s;
     formatting_data := formatting_data s; open_notes := open_notes s;
     active_tab := active_tab s; current_format := current_format s;
     text_area := text_area s; image_references := image_references s;
     tab_references := tab_references s; status_bar := v;
     disk := disk s; families := families s;
     named_fonts := named_fonts s |}.

Definition set_disk (v : database) (s : world) : world :=
  {| settings := settings s; current_note_id := current_note_id s;
     images_data := images_data s; image_counter := image_counter s;
     formatting_data := formatting_data s; open_notes := open_notes s;
     active_tab := active_tab s; current_format := current_format s;
     text_area := text_area s; image_references := image_references s;
     tab_references := tab_references s; status_bar := status_bar s;
     disk := v; families := families s; named_fonts := named_fonts s |}.

Definition set_families (v : list string) (s : world) : world :=
  {| settings := settings s; current_note_id := current_note_id s;
     images_data := images_data s; image_counter := image_counter s;
     formatting_data := formatting_data s; open_notes := open_notes s;
     active_tab := active_tab s; current_format := current_format s;
     text_area := text_area s; image_references := image_references s;
     tab_references := tab_references s; status_bar := status_bar s;
     disk := disk s; families := v; named_fonts := named_fonts s |}.

Definition set_named_fonts (v : list (string * (string * Z))) (s : world) : world :=
  {| settings := settings s; current_note_id := current_note_id s;
     images_data := images_data s; image_counter := image_counter s;
     formatting_data := formatting_data s; open_notes := open_notes s;
     active_tab := active_tab s; current_format := current_format s;
     text_area := text_area s; image_references := image_references s;
     tab_references := tab_references s; status_bar := status_bar s;
     disk := disk s; families := families s; named_fonts := v |}.


(** ** Statements that may raise

    A method body is a state transformer that either returns or raises;
    what it did before raising stays done, as in Python. *)

Inductive exn : Type :=
| TclError
| ValueError
| TypeError
| AttributeError
| UnidentifiedImageError
| JSONDecodeError.

Inductive outcome (A : Type) : Type :=
| Returned (a : A)
| Raised (e : exn).

Arguments Returned {A} a.
Arguments Raised {A} e.

Definition M (A : Type) : Type := world -> outcome A * world.

Definition ret {A : Type} (a : A) : M A := fun s => (Returned a, s).

Definition bind {A B : Type} (c : M A) (k : A -> M B) : M B :=
  fun s =>
    match c s with
    | (Returned a, s') => k a s'
    | (Raised e, s') => (Raised e, s')
    end.

Definition raise {A : Type} (e : exn) : M A := fun s => (Raised e, s).

Declare Scope py_scope.
Delimit Scope py_scope with py.
Notation "x <- c ;; k" := (bind c (fun x => k))
  (at level 61, c at next level, right associativity) : py_scope.
Notation "c ;; k" := (bind c (fun _ => k))
  (at level 61, right associativity) : py_scope.
Open Scope py_scope.

Definition read {A : Type} (f : world -> A) : M A :=
  fun s => (Returned (f s), s).

Definition update (f : world -> world) : M unit :=
  fun s => (Returned tt, f s).

Definition or_raise {A : Type} (e : exn) (o : option A) : M A :=
  match o with
  | Some a => ret a
  | None => raise e
  end.

(** [try: body  except Exception as e: print(...)]. *)
Definition try_except (body : M unit) : M unit :=
  fun s => (Returned tt, snd (body s)).

Definition when (b : bool) (c : M unit) : M unit :=
  if b then c else ret tt.

Fixpoint for_each {A : Type} (l : list A) (body : A -> M unit) : M unit :=
  match l with
  | [] => ret tt
  | x :: r => body x ;; for_each r body
  end.

(** The state a method leaves behind, whether it returned or raised into
    the Tk main loop. *)
Definition run {A : Type} (c : M A) (s : world) : world := snd (c s).

(** A call on [self.text_area] that returns nothing. *)
Definition edit (f : Tk.text -> Tk.text) : M unit :=
  update (fun s => set_text_area (f (text_area s)) s).

(** *** Python operations on loaded JSON *)

(** [d.items()]. *)
Definition items (j : json) : M (list (string * json)) :=
  match j with
  | JDict d => ret d
  | _ => raise AttributeError
  end.

(** [d.get(key, default)]. *)
Definition get_or (key : string) (default : json) (j : json) : M json :=
  match j with
  | JDict d =>
      ret (match Py.get key d with Some v => v | None => default end)
  | _ => raise AttributeError
  end.

Definition chars_of (s : string) : list json :=
  map (fun c => JStr (String c EmptyString)) (list_ascii_of_string s).

(** What a [for] loop draws from a value.  The characters of a base64
    string never unpack into a pair, which is all the loops below do with
    them. *)
Definition iterate (j : json) : M (list json) :=
  match j with
  | JList l => ret l
  | JDict d => ret (map JStr (Py.keys d))
  | JStr s => ret (chars_of s)
  | JB64 _ => raise ValueError
  | _ => raise TypeError
  end.

(** [start, end = element]. *)
Definition unpack_pair (j : json) : M (json * json) :=
  match j with
  | JList [a; b] => ret (a, b)
  | JDict [(a, _); (b, _)] => ret (JStr a, JStr b)
  | JStr (String a (String b EmptyString)) =>
      ret (JStr (String a EmptyString), JStr (String b EmptyString))
  | JList _ | JDict _ | JStr _ | JB64 _ => raise ValueError
  | _ => raise TypeError
  end.

(** [d[key] = value]. *)
Definition setitem (key : string) (value : json) (j : json) : M json :=
  match j with
  | JDict d => ret (JDict (Py.set key value d))
  | _ => raise TypeError
  end.

(** An index that comes out of JSON.  A string is read as a text index;
    numbers and nested lists, which tkinter would first turn into text,
    are taken as bad indices. *)
Definition index_arg (j : json) : M nat :=
  match j with
  | JStr s => w <- read text_area ;; or_raise TclError (Tk.parse_index w s)
  | _ => raise TclError
  end.

(** [self.text_area.tag_add(tag, start, end)] with loaded indices.  tkinter
    cuts the argument list at a [None], so a null end tags the one cell
    at [start]. *)
Definition tag_add_loaded (tag : string) (start end_ : json) : M unit :=
  i <- index_arg start ;;
  match end_ with
  | JNull => edit (fun w => Tk.tag_add w tag i (Tk.forward w i 1))
  | _ => j <- index_arg end_ ;; edit (fun w => Tk.tag_add w tag i j)
  end.

(** ** The methods of [NotesApp] *)

Definition animate_status_bar (message : string) : M unit :=
  update (set_status_bar message).

(** The format a note starts with: nothing toggled, size and family of
    the settings. *)
Definition reset_format (s : world) : world :=
  set_current_format
    (Format false false false (font_size (settings s))
            (font_family (settings s))) s.

(** [NotesApp.__init__]: the tables, the settings, an empty editor whose
    font is the tuple [(family, size)]. *)
Definition init (d : database) (fonts : list string) : world :=
  let d := create_tables d in
  let st := get_settings d in
  {| settings := st; current_note_id := None; images_data := JDict [];
     image_counter := 0; formatting_data := JDict []; open_notes := [];
     active_tab := None;
     current_format :=
       Format false false false (font_size st) (font_family st);
     text_area :=
       Tk.empty (Tk.Described (font_family st) (font_size st));
     image_references := []; tab_references := []; status_bar := "";
     disk := d; families := fonts; named_fonts := [] |}.

Definition size_tag (n : Z) : string := "size_" ++ Py.str n.
Definition family_tag (f : string) : string := "family_" ++ f.

Definition apply_current_formatting (start_pos end_pos : nat) : M unit :=
  cf <- read current_format ;;
  st <- read settings ;;
  when (bold cf)
    (edit (fun w => Tk.tag_add w "bold" start_pos end_pos)) ;;
  when (italic cf)
    (edit (fun w => Tk.tag_add w "italic" start_pos end_pos)) ;;
  when (underline cf)
    (edit (fun w => Tk.tag_add w "underline" start_pos end_pos)) ;;
  when (negb (fmt_font_size cf =? font_size st)%Z)
    (edit (fun w =>
             Tk.tag_add w (size_tag (fmt_font_size cf)) start_pos end_pos)) ;;
  when (negb (String.eqb (fmt_font_family cf) (font_family st)))
    (edit (fun w =>
             Tk.tag_add w (family_tag (fmt_font_family cf))
               start_pos end_pos)).

Definition set_modified (b : bool) (w : Tk.text) : Tk.text :=
  Tk.Text (Tk.cells w) (Tk.insert_mark w) b (Tk.font w).

(** The handler of [<<Modified>>].  An offset is never below ["1.0"], so
    the clamp of [start_pos] has nothing to do. *)
Definition on_text_modified : M unit :=
  w <- read text_area ;;
  if negb (Tk.modified w) then ret tt
  else
    edit (set_modified false) ;;
    let insert_pos := Tk.insert_mark w in
    let start_pos := Tk.backward insert_pos 1 in
    when (start_pos <? insert_pos)
      (apply_current_formatting start_pos insert_pos).

(** *** Loading a note *)

Definition marker (img_id : string) : string := "[IMAGE:" ++ img_id ++ "]".

(** The [while True] loop that swaps the placeholders of one image for
    the picture.  [end_idx] is the text ["start+Nc"], read again each time
    it is used. *)
Fixpoint place_image (fuel : nat) (img_id : string) (img_data : json)
  (start_idx : nat) : M unit :=
  match fuel with
  | 0 => ret tt
  | S fuel' =>
      w <- read text_area ;;
      match Tk.search w (marker img_id) start_idx with
      | None => ret tt
      | Some start_idx =>
          let n := String.length (marker img_id) in
          edit (fun w => Tk.delete w start_idx (Tk.forward w start_idx n)) ;;
          img <- or_raise UnidentifiedImageError (decode_image img_data) ;;
          let photo := resize_if_large img in
          update (fun s =>
                    set_image_references
                      (Py.set img_id photo (image_references s)) s) ;;
          edit (fun w => Tk.image_create w start_idx photo) ;;
          w' <- read text_area ;;
          place_image fuel' img_id img_data (Tk.forward w' start_idx n)
      end
  end.

(** [[int(k) for k in keys if k.isdigit()]]. *)
Fixpoint numeric_ids (keys : list string) : option (list Z) :=
  match keys with
  | [] => Some []
  | k :: r =>
      if Py.isdigit k
      then match Py.int k, numeric_ids r with
           | Some z, Some l => Some (z :: l)
           | _, _ => None
           end
      else numeric_ids r
  end.

Definition load_images (c : column) : M unit :=
  when (worth_loading c)
    (try_except
       (data <- or_raise JSONDecodeError (json_loads c) ;;
        update (set_images_data data) ;;
        pairs <- items data ;;
        for_each pairs
          (fun '(img_id, img_data) =>
             try_except
               (w <- read text_area ;;
                place_image (S (Tk.END w)) img_id img_data 0)) ;;
        when (truthy data)
          (ids <- or_raise ValueError (numeric_ids (map fst pairs)) ;;
           update (set_image_counter (Py.max_default ids 0 + 1)%Z)))).

Definition apply_ranges (tag : string) (ranges : json) : M unit :=
  l <- iterate ranges ;;
  for_each l
    (fun element =>
       p <- unpack_pair element ;;
       tag_add_loaded tag (fst p) (snd p)).

Definition load_formatting (c : column) : M unit :=
  when (worth_loading c)
    (try_except
       (data <- or_raise JSONDecodeError (json_loads c) ;;
        update (set_formatting_data data) ;;
        b <- get_or "bold" (JList []) data ;;
        apply_ranges "bold" b ;;
        i <- get_or "italic" (JList []) data ;;
        apply_ranges "italic" i ;;
        u <- get_or "underline" (JList []) data ;;
        apply_ranges "underline" u ;;
        sizes <- get_or "font_size" (JDict []) data ;;
        sizes <- items sizes ;;
        for_each sizes
          (fun '(size, ranges) =>
             _ <- or_raise ValueError (Py.int size) ;;
             apply_ranges ("size_" ++ size) ranges) ;;
        fams <- get_or "font_family" (JDict []) data ;;
        fams <- items fams ;;
        for_each fams
          (fun '(family, ranges) =>
             apply_ranges (family_tag family) ranges))).

Definition open_note_by_id (id : option Z) : M unit :=
  update (set_current_note_id id) ;;
  d <- read disk ;;
  match get_note_content id d with
  | None => ret tt
  | Some note_content =>
      edit (fun w => Tk.delete w 0 (Tk.END w)) ;;
      edit (fun w => Tk.insert w 0 (content note_content)) ;;
      update reset_format ;;
      update (set_images_data (JDict [])) ;;
      update (set_image_counter 0%Z) ;;
      load_images (images note_content) ;;
      update (set_formatting_data (JDict [])) ;;
      load_formatting (formatting note_content) ;;
      animate_status_bar ("Opened note: " ++ title note_content)
  end.

(** *** Tabs *)

(** [a == b] on note ids, either of which may be [None]. *)
Definition id_eqb (a b : option Z) : bool :=
  match a, b with
  | None, None => true
  | Some x, Some y => (x =? y)%Z
  | _, _ => false
  end.

(** [id in d] for a dict keyed by note ids. *)
Definition known (id : option Z) (keys : list (option Z)) : bool :=
  existsb (id_eqb id) keys.

Definition has_tab (id : option Z) (s : world) : bool :=
  known id (tab_references s).

Definition activate_tab (id : option Z) : M unit :=
  known <- read (has_tab id) ;;
  when known
    (update (set_active_tab id) ;;
     open_note_by_id id).

Definition add_tab (id : option Z) (t : string) : M unit :=
  tabs <- read open_notes ;;
  if existsb (fun tab => id_eqb (fst tab) id) tabs
  then activate_tab id
  else
    update (fun s => set_open_notes (open_notes s ++ [(id, t)]) s) ;;
    update (fun s =>
              if has_tab id s then s
              else set_tab_references (tab_references s ++ [id]) s) ;;
    activate_tab id.

(** What [close_tab], [new_note] and [delete_note] each do to empty the
    editor. *)
Definition clear_editor (s : world) : world :=
  let s := set_current_note_id None s in
  let s := set_text_area
             (Tk.delete (text_area s) 0 (Tk.END (text_area s))) s in
  let s := set_images_data (JDict []) s in
  let s := set_image_counter 0%Z s in
  set_formatting_data (JDict []) s.

Definition close_tab (id : option Z) : M unit :=
  update (fun s =>
            set_tab_references
              (filter (fun k => negb (id_eqb k id)) (tab_references s)) s) ;;
  update (fun s =>
            set_open_notes
              (filter (fun tab => negb (id_eqb (fst tab) id)) (open_notes s))
              s) ;;
  active <- read active_tab ;;
  when (id_eqb active id)
    (update (set_active_tab None) ;;
     tabs <- read open_notes ;;
     match tabs with
     | (first, _) :: _ => activate_tab first
     | [] => update clear_editor ;; update reset_format
     end).

Definition show_editor_page : M unit := animate_status_bar "Editor ready".

Definition new_note : M unit :=
  update clear_editor ;;
  update reset_format ;;
  show_editor_page ;;
  animate_status_bar "New note created" ;;
  add_tab None "Untitled".

Definition open_note_in_tab (id : Z) (t : string) : M unit :=
  add_tab (Some id) t ;;
  show_editor_page.

(** *** Saving a note *)

(** One [(str(start), str(end))] pair for each range of a tag. *)
Definition range_pairs (w : Tk.text) (tag : string) : list json :=
  map (fun r =>
         JList [JStr (Tk.index_text w (fst r)); JStr (Tk.index_text w (snd r))])
      (Tk.tag_ranges w tag).

(** [if key not in d: d[key] = []] followed by [d[key].append(pair)]. *)
Definition add_range (key : string) (pair : json) (d : list (string * json))
  : list (string * json) :=
  match Py.get key d with
  | Some (JList l) => Py.set key (JList (l ++ [pair])) d
  | _ => Py.set key (JList [pair]) d
  end.

Definition collect (w : Tk.text) (key tag : string) (d : list (string * json))
  : list (string * json) :=
  fold_left (fun d pair => add_range key pair d) (range_pairs w tag) d.

Definition saved_sizes : list Z := [8; 10; 12; 14; 16; 18; 20; 24]%Z.

Definition save_formatting_data : M unit :=
  w <- read text_area ;;
  fonts <- read families ;;
  update
    (set_formatting_data
       (JDict
          [("bold", JList (range_pairs w "bold"));
           ("italic", JList (range_pairs w "italic"));
           ("underline", JList (range_pairs w "underline"));
           ("font_size",
             JDict (fold_left
                      (fun d size => collect w (Py.str size) (size_tag size) d)
                      saved_sizes []));
           ("font_family",
             JDict (fold_left
                      (fun d family => collect w family (family_tag family) d)
                      fonts []))])).

(** [asked] is what the title dialog returns, [now] what the clock reads
    when the row is written. *)
Definition save_note (asked : option string) (now : Z) : M unit :=
  w <- read text_area ;;
  let body := Tk.get w 0 (Tk.END w) in
  if negb (Py.nonempty (Py.strip body))
  then animate_status_bar "Error: Note must have content"
  else
    match asked with
    | None | Some EmptyString =>
        animate_status_bar "Error: Note must have a title"
    | Some t =>
        save_formatting_data ;;
        current <- read current_note_id ;;
        match current with
        | None =>
            update (fun s =>
                      set_disk
                        (save_note_to_db t body (images_data s)
                           (formatting_data s) now (disk s)) s) ;;
            (* Get the new note ID (last inserted row) *)
            d <- read disk ;;
            let conn := Sqlite.connect d in
            let new_id := Sqlite.last_rowid conn in
            update (set_current_note_id (Some new_id)) ;;
            active <- read active_tab ;;
            match active with
            | None => add_tab (Some new_id) t
            | Some _ => close_tab active ;; add_tab (Some new_id) t
            end ;;
            animate_status_bar ("Note '" ++ t ++ "' saved successfully")
        | Some id =>
            update (fun s =>
                      set_disk
                        (update_note_in_db id t body (images_data s)
                           (formatting_data s) now (disk s)) s) ;;
            known <- read (has_tab current) ;;
            when known
              (update (fun s =>
                         set_open_notes
                           (map (fun tab =>
                                   (fst tab,
                                    if id_eqb (fst tab) current then t
                                    else snd tab))
                                (open_notes s)) s)) ;;
            animate_status_bar ("Note '" ++ t ++ "' updated successfully")
        end
    end.

(** [confirm] is the answer to "Are you sure you want to delete this
    note?". *)
Definition delete_note (confirm : bool) : M unit :=
  current <- read current_note_id ;;
  match current with
  | None => animate_status_bar "No note is currently open"
  | Some id =>
      when confirm
        (d <- read disk ;;
         match get_note_content current d with
         | None => ret tt
         | Some note_content =>
             update (fun s => set_disk (delete_note_from_db id (disk s)) s) ;;
             animate_status_bar
               ("Note '" ++ title note_content ++ "' deleted") ;;
             close_tab current ;;
             active <- read active_tab ;;
             match active with
             | None => update clear_editor
             | Some _ => ret tt
             end
         end)
  end.

(** *** Formatting commands *)

(** [index("sel.first")] and [index("sel.last")], which raise [TclError]
    together when nothing is selected. *)
Definition selection (w : Tk.text) : option (nat * nat) :=
  match Tk.sel_first w, Tk.sel_last w with
  | Some a, Some b => Some (a, b)
  | _, _ => None
  end.

(** The range a toggle works on: the selection, or the one cell after
    the cursor. *)
Definition toggle_range (w : Tk.text) : nat * nat :=
  match selection w with
  | Some r => r
  | None => (Tk.insert_mark w, Tk.forward w (Tk.insert_mark w) 1)
  end.

(** The three toggles are one text in the source, up to the name of the
    style. *)
Definition toggle (tag : string) (flip : format -> format)
  (now_on : format -> bool) : M unit :=
  try_except
    (update (fun s => set_current_format (flip (current_format s)) s) ;;
     w <- read text_area ;;
     let r := toggle_range w in
     on <- read (fun s => now_on (current_format s)) ;;
     if on
     then edit (fun w => Tk.tag_add w tag (fst r) (snd r))
     else edit (fun w => Tk.tag_remove w tag (fst r) (snd r))).

Definition toggle_bold : M unit :=
  toggle "bold"
    (fun f => Format (negb (bold f)) (italic f) (underline f)
                (fmt_font_size f) (fmt_font_family f))
    bold.

Definition toggle_italic : M unit :=
  toggle "italic"
    (fun f => Format (bold f) (negb (italic f)) (underline f)
                (fmt_font_size f) (fmt_font_family f))
    italic.

Definition toggle_underline : M unit :=
  toggle "underline"
    (fun f => Format (bold f) (italic f) (negb (underline f))
                (fmt_font_size f) (fmt_font_family f))
    underline.

(** [font.nametofont(self.text_area["font"])].  tkinter looks the text of
    the option up among the named fonts and raises [TclError] when there
    is no named font of that name; the text of a description such as
    ["Arial 12"] is not one. *)
Definition nametofont (s : world) : option (string * Z) :=
  match Tk.font (text_area s) with
  | Tk.Named n => Py.get n (named_fonts s)
  | Tk.Described _ _ => None
  end.

(** [new_font = font.Font(family=f, size=n)] and
    [self.text_area.configure(font=new_font)]: tkinter names the fonts it
    creates font1, font2 and so on. *)
Definition configure_new_font (f : string) (n : Z) (s : world) : world :=
  let name :=
    String.append "font" (Py.str (Z.of_nat (S (length (named_fonts s))))) in
  let s := set_named_fonts (named_fonts s ++ [(name, (f, n))]) s in
  set_text_area
    (Tk.Text (Tk.cells (text_area s)) (Tk.insert_mark (text_area s))
             (Tk.modified (text_area s)) (Tk.Named name)) s.

(** [entry] is the text of the size combobox. *)
Definition change_font_size (entry : string) : M unit :=
  try_except
    (match Py.int entry with
     | None => animate_status_bar "Please enter a valid number for font size"
     | Some n =>
         update (fun s =>
                   let f := current_format s in
                   set_current_format
                     (Format (bold f) (italic f) (underline f) n
                             (fmt_font_family f)) s) ;;
         w <- read text_area ;;
         match selection w with
         | None =>
             (* No selection, change default font size *)
             current_font <- (s <- read (fun s => s) ;;
                              or_raise TclError (nametofont s)) ;;
             update (configure_new_font (fst current_font) n) ;;
             update (fun s =>
                       set_settings
                         (Settings (theme (settings s))
                                   (font_family (settings s)) n) s) ;;
             update (fun s => set_disk (save_settings (settings s) (disk s)) s) ;;
             animate_status_bar
               ("Default font size changed to " ++ Py.str n)
         | Some (sel_start, sel_end) =>
             for_each saved_sizes
               (fun size =>
                  edit (fun w =>
                          Tk.tag_remove w (size_tag size) sel_start sel_end)) ;;
             edit (fun w => Tk.tag_add w (size_tag n) sel_start sel_end) ;;
             animate_status_bar ("Font size changed to " ++ Py.str n)
         end
     end).

(** [entry] is the text of the family combobox. *)
Definition change_font_family (entry : string) : M unit :=
  try_except
    (update (fun s =>
               let f := current_format s in
               set_current_format
                 (Format (bold f) (italic f) (underline f) (fmt_font_size f)
                         entry) s) ;;
     w <- read text_area ;;
     match selection w with
     | None =>
         current_font <- (s <- read (fun s => s) ;;
                          or_raise TclError (nametofont s)) ;;
         update (configure_new_font entry (snd current_font)) ;;
         update (fun s =>
                   set_settings
                     (Settings (theme (settings s)) entry
                               (font_size (settings s))) s) ;;
         update (fun s => set_disk (save_settings (settings s) (disk s)) s) ;;
         animate_status_bar ("Default font changed to " ++ entry)
     | Some (sel_start, sel_end) =>
         for_each (Tk.tag_names w sel_start)
           (fun tag =>
              when (String.prefix "family_" tag)
                (edit (fun w => Tk.tag_remove w tag sel_start sel_end))) ;;
         edit (fun w => Tk.tag_add w (family_tag entry) sel_start sel_end) ;;
         animate_status_bar ("Font changed to " ++ entry)
     end).

(** *** Images *)

(** [img_id = str(self.image_counter); self.image_counter += 1]. *)
Definition fresh_image_id : M string :=
  n <- read image_counter ;;
  update (set_image_counter (n + 1)%Z) ;;
  ret (Py.str n).

Definition keep_reference (img_id : string) (photo : picture) : M unit :=
  update (fun s =>
            set_image_references
              (Py.set img_id photo (image_references s)) s).

Definition store_image (img_id : string) (img_data : json) : M unit :=
  data <- read images_data ;;
  data <- setitem img_id img_data data ;;
  update (set_images_data data).

(** The two lines that write the marker and take it out again. *)
Definition insert_and_delete_marker (current_position : nat)
  (img_id : string) : M unit :=
  edit (fun w => Tk.insert w current_position (marker img_id)) ;;
  edit (fun w =>
          Tk.delete w current_position
            (Tk.forward w current_position (String.length (marker img_id)))).

(** [chosen] is the content of the file picked in the dialog, [None] when
    the dialog is dismissed. *)
Definition insert_image (chosen : option bytes) : M unit :=
  match chosen with
  | None => ret tt
  | Some file =>
      try_except
        (img <- or_raise UnidentifiedImageError (Image_open file) ;;
         let photo := resize_if_large img in
         img_id <- fresh_image_id ;;
         keep_reference img_id photo ;;
         current_position <- read (fun s => Tk.insert_mark (text_area s)) ;;
         edit (fun w => Tk.image_create w current_position photo) ;;
         (* Store the image data in base64 format: the file, read again *)
         store_image img_id (JB64 file) ;;
         insert_and_delete_marker current_position img_id ;;
         animate_status_bar "Image inserted successfully")
  end.

(** [grabbed] is the picture on the clipboard, if it holds one; [clip] is
    its text, [None] when [clipboard_get] raises. *)
Definition paste_from_clipboard (grabbed : option picture)
  (clip : option string) : M unit :=
  try_except
    (match grabbed with
     | Some img =>
         let img := resize_if_large img in
         current_position <- read (fun s => Tk.insert_mark (text_area s)) ;;
         img_id <- fresh_image_id ;;
         keep_reference img_id img ;;
         edit (fun w => Tk.image_create w current_position img) ;;
         insert_and_delete_marker current_position img_id ;;
         store_image img_id (JB64 (save_png img)) ;;
         animate_status_bar "Image pasted from clipboard"
     | None =>
         t <- or_raise TclError clip ;;
         edit (fun w => Tk.insert w (Tk.insert_mark w) t)
     end).

(** ** The user and the main loop

    What reaches the methods above: keys and the mouse, through the class
    bindings of the text widget, and the menu and toolbar commands.  The
    widget raises [<<Modified>>] when its flag goes up, and the main loop
    runs the handler once the command at hand is over. *)

(** [tk::TextCursorInSelection]. *)
Definition cursor_in_selection (w : Tk.text) : option (nat * nat) :=
  match selection w with
  | Some (a, b) =>
      if (a <=? Tk.insert_mark w) && (Tk.insert_mark w <=? b)
      then Some (a, b) else None
  | None => None
  end.

(** [tk::TextInsert]: typed text replaces the selection the cursor is in. *)
Definition type_text (s : string) (w : Tk.text) : Tk.text :=
  let w := match cursor_in_selection w with
           | Some (a, b) => Tk.delete w a b
           | None => w
           end in
  Tk.insert w (Tk.insert_mark w) s.

(** The binding of [<BackSpace>]. *)
Definition backspace (w : Tk.text) : Tk.text :=
  match cursor_in_selection w with
  | Some (a, b) => Tk.delete w a b
  | None =>
      if 0 <? Tk.insert_mark w
      then Tk.delete w (Tk.insert_mark w - 1) (Tk.insert_mark w)
      else w
  end.

Definition set_cursor (p : nat) (w : Tk.text) : Tk.text :=
  Tk.Text (Tk.cells w) (Tk.landing w p) (Tk.modified w) (Tk.font w).

(** A click: the cursor moves, the selection goes. *)
Definition click (p : nat) (w : Tk.text) : Tk.text :=
  set_cursor p (Tk.tag_remove w "sel" 0 (Tk.END w)).

(** A drag from [i] to [j]. *)
Definition drag (i j : nat) (w : Tk.text) : Tk.text :=
  set_cursor j (Tk.tag_add (Tk.tag_remove w "sel" 0 (Tk.END w)) "sel" i j).

Inductive event : Type :=
| Key (c : ascii)
| BackSpace
| Click (p : nat)
| Drag (i j : nat)
| MenuNew
| MenuSave (asked : option string) (now : Z)
| OpenNote (id : Z) (t : string)
| TabButton (id : option Z)
| TabClose (id : option Z)
| MenuDelete (confirm : bool)
| Bold
| Italic
| Underline
| SizeCombo (entry : string)
| FamilyCombo (entry : string)
| InsertImage (chosen : option bytes)
| ControlV (grabbed : option picture) (clip : option string).

Definition command (e : event) : M unit :=
  match e with
  | Key c => edit (type_text (String c EmptyString))
  | BackSpace => edit backspace
  | Click p => edit (click p)
  | Drag i j => edit (drag i j)
  | MenuNew => new_note
  | MenuSave asked now => save_note asked now
  | OpenNote id t => open_note_in_tab id t
  | TabButton id => activate_tab id
  | TabClose id => close_tab id
  | MenuDelete confirm => delete_note confirm
  | Bold => toggle_bold
  | Italic => toggle_italic
  | Underline => toggle_underline
  | SizeCombo entry => change_font_size entry
  | FamilyCombo entry => change_font_family entry
  | InsertImage chosen => insert_image chosen
  | ControlV grabbed clip => paste_from_clipboard grabbed clip
  end.

(** One turn of the main loop. *)
Definition handle (e : event) (s : world) : world :=
  run on_text_modified (run (command e) s).

Definition play (es : list event) (s : world) : world :=
  fold_left (fun s e => handle e s) es s.

(** The states the application can be in. *)
Inductive reachable : world -> Prop :=
| reach_init : forall d fonts, reachable (init d fonts)
| reach_step : forall s e, reachable s -> reachable (handle e s).

(** What [get("1.0", "end")] reads from the editor. *)
Definition buffer (s : world) : string :=
  Tk.get (text_area s) 0 (Tk.END (text_area s)).

(** The tags on the cell at an offset. *)
Definition styles_at (s : world) (p : nat) : list string :=
  Tk.tag_names (text_area s) p.

(** * Properties *)

(** ** Facts about the Python helpers *)

Module PyFacts.
Import Py.

Lemma to_uint_not_nil : forall n, Nat.to_uint n <> Nil.
Proof.
  intros n H. pose proof (f_equal Nat.of_uint H) as E.
  rewrite Unsigned.of_to in E. simpl in E. subst n. discriminate H.
Qed.

Lemma of_digits_digits : forall n, of_digits (digits n) = Some (Z.of_nat n).
Proof.
  intros n. unfold of_digits, digits.
  rewrite NilZero.usu by apply to_uint_not_nil.
  simpl. now rewrite Unsigned.of_to.
Qed.

(** A string that reads as digits does not open with a sign. *)
Lemma of_digits_unsigned :
  forall s z, of_digits s = Some z -> int s = Some z.
Proof.
  intros s z H. destruct s as [|c r]; [exact H|].
  unfold int.
  destruct c as [[|] [|] [|] [|] [|] [|] [|] [|]]; try exact H;
    unfold of_digits in H; simpl in H;
    destruct (NilEmpty.uint_of_string r); discriminate H.
Qed.

Lemma int_str : forall z, (0 <= z)%Z -> int (str z) = Some z.
Proof.
  intros z Hz. apply of_digits_unsigned.
  unfold str. destruct z as [|p|p]; try lia.
  - reflexivity.
  - rewrite of_digits_digits. f_equal. lia.
Qed.

Lemma of_digits_nonneg : forall s z, of_digits s = Some z -> (0 <= z)%Z.
Proof.
  unfold of_digits. intros s z H.
  destruct (NilZero.uint_of_string s); simpl in H; [|discriminate].
  injection H as <-. lia.
Qed.

(** A key that [isdigit] lets through has no sign for [int] to read. *)
Lemma isdigit_unsigned :
  forall k, isdigit k = true -> int k = of_digits k.
Proof.
  intros k H. destruct k as [|c r]; [discriminate H|].
  unfold isdigit in H. simpl in H. apply andb_prop in H. destruct H as [Hc _].
  destruct c as [[|] [|] [|] [|] [|] [|] [|] [|]];
    try discriminate Hc; reflexivity.
Qed.

(** Where [int] reads such a key, the number is not negative.  It need not
    read it: [isdigit] holds of the superscript two and [int] raises. *)
Lemma isdigit_int_nonneg :
  forall k z, isdigit k = true -> int k = Some z -> (0 <= z)%Z.
Proof.
  intros k z H E. rewrite (@isdigit_unsigned k H) in E.
  exact (of_digits_nonneg _ E).
Qed.

Lemma isdigit_superscript :
  isdigit (String "178" EmptyString) = true /\
  int (String "178" EmptyString) = None.
Proof. split; reflexivity. Qed.
End PyFacts.

(** ** Facts about the text widget *)

Module TkFacts.
Import Tk.

(** The cursor stands in front of some cell; Tk keeps it before the
    final newline. *)
Definition inside (w : text) : Prop := insert_mark w < END w.

Lemma length_splice :
  forall cs p new, length (splice cs p new) = length cs + length new.
Proof.
  intros cs p new. unfold splice.
  rewrite !length_app, length_map.
  rewrite <- (firstn_skipn p cs) at 3. rewrite length_app. lia.
Qed.

Lemma length_clean_last : forall cs, length (clean_last cs) = length cs.
Proof.
  induction cs as [|c r IH]; simpl; [reflexivity|].
  destruct r; simpl in *; [reflexivity | now rewrite IH].
Qed.

Lemma length_on_range :
  forall f i j cs, length (on_range f i j cs) = length cs.
Proof.
  intros f i j cs. revert i j.
  induction cs as [|c r IH]; intros i j; simpl; [reflexivity|].
  destruct j; simpl; [reflexivity|].
  destruct i; simpl; now rewrite IH.
Qed.

Lemma length_chars : forall s, length (list_ascii_of_string s) = String.length s.
Proof. induction s; simpl; auto. Qed.

Lemma inside_insert : forall w i s, inside w -> inside (insert w i s).
Proof.
  unfold inside, insert, END. intros w i s H.
  destruct s as [|a s']; [exact H|]. cbn [cells insert_mark].
  rewrite length_splice, length_map, length_chars.
  unfold push_mark. destruct (_ <=? _); lia.
Qed.

Lemma inside_image_create : forall w i p, inside w -> inside (image_create w i p).
Proof.
  unfold inside, image_create, END. intros w i p H. cbn [cells insert_mark].
  rewrite length_splice. simpl. unfold push_mark. destruct (_ <=? _); lia.
Qed.

Lemma inside_delete : forall w i j, inside w -> inside (delete w i j).
Proof.
  unfold inside, delete, END. intros w i j H.
  set (n := length (cells w)) in *.
  destruct (Nat.min j n <=? Nat.min i n) eqn:E; [exact H|].
  apply Nat.leb_gt in E. cbn [cells insert_mark].
  set (to_end := Nat.min j n =? n).
  set (j' := if to_end then n - 1 else Nat.min j n).
  match goal with
  | |- context [if ?b then Nat.min i n - 1 else Nat.min i n] =>
      set (i' := if b then Nat.min i n - 1 else Nat.min i n)
  end.
  set (cs := if to_end then clean_last (cells w) else cells w).
  assert (Hcs : length cs = n).
  { unfold cs. destruct to_end; [apply length_clean_last | reflexivity]. }
  assert (Hj : j' < n).
  { unfold j', to_end. destruct (Nat.min j n =? n) eqn:E2.
    - lia.
    - apply Nat.eqb_neq in E2. lia. }
  assert (Hi : i' <= j').
  { unfold i', j', to_end.
    destruct (Nat.min j n =? n) eqn:E2; simpl.
    - apply Nat.eqb_eq in E2.
      destruct (0 <? Nat.min i n) eqn:E3; simpl;
        [destruct (nth_error _ _) as [c|]; [destruct (is_newline c)|] |]; lia.
    - lia. }
  rewrite length_app, length_firstn, length_skipn, Hcs.
  unfold pull_mark.
  destruct (insert_mark w <=? i') eqn:E4;
    [apply Nat.leb_le in E4 | apply Nat.leb_gt in E4;
     destruct (insert_mark w <? j') eqn:E5;
     [apply Nat.ltb_lt in E5 | apply Nat.ltb_ge in E5]]; lia.
Qed.

Lemma inside_with_cells :
  forall w cs, length cs = length (cells w) -> inside w -> inside (with_cells w cs).
Proof. unfold inside, with_cells, END. simpl. intros. lia. Qed.

Lemma inside_tag_add : forall w t i j, inside w -> inside (tag_add w t i j).
Proof. intros. apply inside_with_cells; [apply length_on_range | assumption]. Qed.

Lemma inside_tag_remove : forall w t i j, inside w -> inside (tag_remove w t i j).
Proof. intros. apply inside_with_cells; [apply length_on_range | assumption]. Qed.
End TkFacts.

(** ** Reasoning about method bodies

    [preserves P c]: whatever [c] does, and whether it returns or raises,
    it leaves [P] true if it found it true. *)

Definition preserves {A : Type} (P : world -> Prop) (c : M A) : Prop :=
  forall s, P s -> P (snd (c s)).

Section Preserves.
Variable P : world -> Prop.

Lemma preserves_ret : forall (A : Type) (a : A), preserves P (ret a).
Proof. intros A a s H. exact H. Qed.

Lemma preserves_raise : forall (A : Type) (e : exn), preserves P (@raise A e).
Proof. intros A e s H. exact H. Qed.

Lemma preserves_read :
  forall (A : Type) (f : world -> A), preserves P (read f).
Proof. intros A f s H. exact H. Qed.

Lemma preserves_or_raise :
  forall (A : Type) (e : exn) (o : option A), preserves P (or_raise e o).
Proof. intros A e [a|] s H; exact H. Qed.

Lemma preserves_bind :
  forall (A B : Type) (c : M A) (k : A -> M B),
    preserves P c -> (forall a, preserves P (k a)) -> preserves P (bind c k).
Proof.
  intros A B c k Hc Hk s H. unfold bind.
  specialize (Hc s H). destruct (c s) as [[a|e] s']; simpl in *.
  - apply Hk. exact Hc.
  - exact Hc.
Qed.

Lemma preserves_update :
  forall f : world -> world,
    (forall s, P s -> P (f s)) -> preserves P (update f).
Proof. intros f Hf s H. simpl. apply Hf. exact H. Qed.

Lemma preserves_try_except :
  forall c : M unit, preserves P c -> preserves P (try_except c).
Proof. intros c Hc s H. simpl. apply Hc. exact H. Qed.

Lemma preserves_when :
  forall (b : bool) (c : M unit), preserves P c -> preserves P (when b c).
Proof. intros [|] c Hc; simpl; [exact Hc | apply preserves_ret]. Qed.

Lemma preserves_for_each :
  forall (A : Type) (l : list A) (body : A -> M unit),
    (forall x, preserves P (body x)) -> preserves P (for_each l body).
Proof.
  intros A l body Hb. induction l as [|x r IH]; simpl.
  - apply preserves_ret.
  - apply preserves_bind; [apply Hb | intros _; exact IH].
Qed.

Lemma preserves_run :
  forall (A : Type) (c : M A) (s : world),
    preserves P c -> P s -> P (run c s).
Proof. intros A c s Hc H. apply Hc. exact H. Qed.
End Preserves.

(** Splits a method body into its statements.  What is left are the
    primitive updates, each a goal [P s -> P (f s)]. *)
Ltac step_body :=
  match goal with
  | |- preserves _ (bind _ _) => apply preserves_bind; [| intro]
  | |- preserves _ (ret _) => apply preserves_ret
  | |- preserves _ (raise _) => apply preserves_raise
  | |- preserves _ (read _) => apply preserves_read
  | |- preserves _ (or_raise _ _) => apply preserves_or_raise
  | |- preserves _ (try_except _) => apply preserves_try_except
  | |- preserves _ (when _ _) => apply preserves_when
  | |- preserves _ (for_each _ _) => apply preserves_for_each; intro
  | |- preserves _ (update _) => apply preserves_update
  | |- preserves _ (edit _) => apply preserves_update
  | |- preserves _ (animate_status_bar _) => apply preserves_update
  | |- preserves _ (match ?x with _ => _ end) => destruct x
  | |- preserves _ (let (_, _) := ?x in _) => destruct x
  end.

Ltac body := repeat step_body.

(** ** What holds in every state of the application *)

Definition described (w : Tk.text) : Prop :=
  match Tk.font w with
  | Tk.Described _ _ => True
  | Tk.Named _ => False
  end.

(** Every key that [isdigit] lets through is one that [int] reads. *)
Definition decimal_keys (d : list (string * json)) : Prop :=
  forall k, In k (Py.keys d) -> Py.isdigit k = true -> Py.int k <> None.

(** The counter is above every numeric id among the keys, as long as the
    keys are such that line 1392 could number them. *)
Definition numbered (data : json) (counter : Z) : Prop :=
  (0 <= counter)%Z /\
  forall d k z,
    data = JDict d -> decimal_keys d ->
    In k (Py.keys d) -> Py.isdigit k = true ->
    Py.int k = Some z -> (z < counter)%Z.

(** Every tab listed has its widgets. *)
Definition tabbed (tabs : list (option Z * string)) (keys : list (option Z))
  : Prop :=
  forall id, existsb (fun tab => id_eqb (fst tab) id) tabs = true ->
             known id keys = true.

(** [R] relates the stored images and the counter; [sound] is the case
    that lasts from one event to the next, other choices of [R] describe
    the middle of a method. *)
Definition kept (R : json -> Z -> Prop) (s : world) : Prop :=
  TkFacts.inside (text_area s) /\
  described (text_area s) /\
  R (images_data s) (image_counter s) /\
  tabbed (open_notes s) (tab_references s).

Definition sound : world -> Prop := kept numbered.

Lemma described_insert : forall w i t, described w -> described (Tk.insert w i t).
Proof. intros w i [|a t] H; exact H. Qed.

Lemma described_image_create :
  forall w i p, described w -> described (Tk.image_create w i p).
Proof. intros w i p H; exact H. Qed.

Lemma described_delete : forall w i j, described w -> described (Tk.delete w i j).
Proof. intros w i j H. unfold Tk.delete. destruct (_ <=? _); exact H. Qed.

Lemma described_tag_add :
  forall w t i j, described w -> described (Tk.tag_add w t i j).
Proof. intros w t i j H; exact H. Qed.

Lemma described_tag_remove :
  forall w t i j, described w -> described (Tk.tag_remove w t i j).
Proof. intros w t i j H; exact H. Qed.

Lemma numbered_empty : numbered (JDict []) 0.
Proof. split; [lia|]. intros d k z E. injection E as <-. intros _ []. Qed.

Create HintDb tk.
#[local] Hint Resolve TkFacts.inside_insert TkFacts.inside_image_create
  TkFacts.inside_delete TkFacts.inside_tag_add TkFacts.inside_tag_remove
  described_insert described_image_create described_delete described_tag_add
  described_tag_remove numbered_empty : tk.

Ltac unfold_world :=
  unfold clear_editor, reset_format, set_modified,
    set_settings, set_current_note_id, set_images_data, set_image_counter,
    set_formatting_data, set_open_notes, set_active_tab, set_current_format,
    set_text_area, set_image_references, set_tab_references, set_status_bar,
    set_disk, set_named_fonts in *.

Ltac fields :=
  cbn [settings current_note_id images_data image_counter formatting_data
       open_notes active_tab current_format text_area image_references
       tab_references status_bar disk families named_fonts] in *.

(** A statement that leaves [sound] alone, or edits the widget with one of
    the operations above. *)
Ltac leaf :=
  lazymatch goal with
  | |- preserves _ _ => idtac
  | |- forall s, kept _ s -> kept _ _ =>
      let H1 := fresh in let H2 := fresh in
      let H3 := fresh in let H4 := fresh in
      intros ? (H1 & H2 & H3 & H4); unfold kept; unfold_world; fields;
      (split; [|split; [|split]]); auto with tk
  | _ => idtac
  end.

Ltac method := repeat step_body; leaf.

Section Kept.
Variable R : json -> Z -> Prop.

Lemma kept_apply_current_formatting :
  forall a b, preserves (kept R) (apply_current_formatting a b).
Proof. intros. unfold apply_current_formatting. method. Qed.

Lemma kept_on_text_modified : preserves (kept R) on_text_modified.
Proof.
  unfold on_text_modified. method. apply kept_apply_current_formatting.
Qed.

Lemma kept_place_image :
  forall fuel id data start,
    preserves (kept R) (place_image fuel id data start).
Proof.
  induction fuel as [|fuel IH]; intros id data start; simpl; method.
  apply IH.
Qed.

Lemma kept_tag_add_loaded :
  forall tag a b, preserves (kept R) (tag_add_loaded tag a b).
Proof. intros. unfold tag_add_loaded, index_arg. method. Qed.

Lemma kept_apply_ranges :
  forall tag ranges, preserves (kept R) (apply_ranges tag ranges).
Proof.
  intros. unfold apply_ranges, iterate, unpack_pair. method.
  all: try apply kept_tag_add_loaded.
Qed.

Lemma kept_load_formatting :
  forall c, preserves (kept R) (load_formatting c).
Proof.
  intros. unfold load_formatting, get_or, items. method.
  all: try apply kept_apply_ranges.
Qed.

Lemma kept_toggle :
  forall tag flip now_on, preserves (kept R) (toggle tag flip now_on).
Proof. intros. unfold toggle. method. Qed.

Lemma kept_save_formatting_data : preserves (kept R) save_formatting_data.
Proof. unfold save_formatting_data. method. Qed.
End Kept.

(** *** Assertions between the statements of a method *)

Definition triple {A : Type} (P : world -> Prop) (c : M A)
  (Q : A -> world -> Prop) (E : world -> Prop) : Prop :=
  forall s, P s ->
    match c s with
    | (Returned a, s') => Q a s'
    | (Raised _, s') => E s'
    end.

Lemma triple_bind :
  forall (A B : Type) P (c : M A) Q (k : A -> M B) T E,
    triple P c Q E -> (forall a, triple (Q a) (k a) T E) ->
    triple P (bind c k) T E.
Proof.
  intros A B P c Q k T E Hc Hk s H. unfold bind.
  specialize (Hc s H). destruct (c s) as [[a|e] s'].
  - apply Hk. exact Hc.
  - exact Hc.
Qed.

Lemma triple_weaken :
  forall (A : Type) (P P' : world -> Prop) (c : M A)
         (Q Q' : A -> world -> Prop) (E E' : world -> Prop),
    triple P c Q E ->
    (forall s, P' s -> P s) -> (forall a s, Q a s -> Q' a s) ->
    (forall s, E s -> E' s) -> triple P' c Q' E'.
Proof.
  intros A P P' c Q Q' E E' H HP HQ HE s Hs.
  specialize (H s (HP s Hs)). destruct (c s) as [[a|e] s']; auto.
Qed.

Lemma preserves_triple :
  forall (A : Type) (P : world -> Prop) (c : M A),
    preserves P c -> triple P c (fun _ => P) P.
Proof.
  intros A P c H s Hs. specialize (H s Hs).
  destruct (c s) as [[a|e] s']; exact H.
Qed.

Lemma triple_preserves :
  forall (A : Type) (P : world -> Prop) (c : M A),
    triple P c (fun _ => P) P -> preserves P c.
Proof.
  intros A P c H s Hs. specialize (H s Hs).
  destruct (c s) as [[a|e] s']; exact H.
Qed.

Lemma triple_update :
  forall (P Q E : world -> Prop) f,
    (forall s, P s -> Q (f s)) -> triple P (update f) (fun _ => Q) E.
Proof. intros P Q E f H s Hs. simpl. auto. Qed.

Lemma triple_try_except :
  forall (P Q E : world -> Prop) c,
    triple P c (fun _ => Q) Q -> triple P (try_except c) (fun _ => Q) E.
Proof.
  intros P Q E c H s Hs. specialize (H s Hs). unfold try_except.
  destruct (c s) as [[a|e] s']; exact H.
Qed.

(** *** The counter after loading *)

Lemma max_default_above :
  forall l d z, In z l -> (z <= Py.max_default l d)%Z.
Proof.
  intros l d z H. destruct l as [|x r]; [destruct H|]. simpl.
  assert (G : forall r a, (a <= fold_left Z.max r a)%Z /\
                          forall y, In y r -> (y <= fold_left Z.max r a)%Z).
  { clear. induction r as [|b r IH]; intros a; simpl.
    - split; [lia | intros y []].
    - destruct (IH (Z.max a b)) as [H1 H2]. split; [lia|].
      intros y [<-|Hy]; [lia | auto]. }
  destruct (G r x) as [G1 G2]. destruct H as [<-|H]; auto.
Qed.

Lemma max_default_nonneg :
  forall l, (forall z, In z l -> 0 <= z)%Z -> (0 <= Py.max_default l 0)%Z.
Proof.
  intros l H. destruct l as [|x r]; [simpl; lia|].
  pose proof (max_default_above (x :: r) 0 x (or_introl eq_refl)).
  specialize (H x (or_introl eq_refl)). lia.
Qed.

(** Where the comprehension gives a list, it holds the number of every
    key that is one. *)
Lemma numeric_ids_holds :
  forall keys ids,
    numeric_ids keys = Some ids ->
    (forall z, In z ids -> (0 <= z)%Z) /\
    (forall k z, In k keys -> Py.isdigit k = true -> Py.int k = Some z ->
                 In z ids).
Proof.
  induction keys as [|k r IH]; simpl; intros ids E.
  - injection E as <-. split; intros; contradiction.
  - destruct (Py.isdigit k) eqn:D.
    + destruct (Py.int k) as [z|] eqn:Ez; [|discriminate E].
      destruct (numeric_ids r) as [l|]; [|discriminate E].
      injection E as <-. destruct (IH l eq_refl) as [Hpos Hin]. split.
      * intros y [<-|Hy]; [exact (@PyFacts.isdigit_int_nonneg k z D Ez) | auto].
      * intros k' z' [<-|Hk] D' E'.
        -- left. congruence.
        -- right. eauto.
    + destruct (IH ids E) as [Hpos Hin]. split; [exact Hpos|].
      intros k' z' [<-|Hk] D' E'; [congruence | eauto].
Qed.

(** It raises where, and only where, [isdigit] lets a key through that
    [int] does not read. *)
Lemma numeric_ids_raises :
  forall keys,
    numeric_ids keys = None <->
    exists k, In k keys /\ Py.isdigit k = true /\ Py.int k = None.
Proof.
  induction keys as [|k r IH]; simpl.
  - split; [discriminate | intros (k & [] & _)].
  - destruct (Py.isdigit k) eqn:D.
    + destruct (Py.int k) as [z|] eqn:Ez.
      * destruct (numeric_ids r) as [l|].
        -- split; [discriminate|].
           intros (k' & [<-|Hk] & D' & E'); [congruence|].
           assert (X : Some l = None) by (apply (proj2 IH); eauto).
           discriminate X.
        -- split; [|reflexivity]. intros _.
           destruct (proj1 IH eq_refl) as (k' & Hk & D' & E'). eauto.
      * split; [|reflexivity]. intros _. exists k. auto.
    + rewrite IH. split.
      * intros (k' & Hk & D' & E'). eauto.
      * intros (k' & [<-|Hk] & D' & E'); [congruence | eauto].
Qed.

(** The list holds the numbers of the numeric keys and nothing else. *)
Lemma numeric_ids_are :
  forall keys ids,
    numeric_ids keys = Some ids ->
    forall z, In z ids <->
              exists k, In k keys /\ Py.isdigit k = true /\ Py.int k = Some z.
Proof.
  induction keys as [|k r IH]; simpl; intros ids E z.
  - injection E as <-. split; [intros [] | intros (k & [] & _)].
  - destruct (Py.isdigit k) eqn:D.
    + destruct (Py.int k) as [y|] eqn:Ey; [|discriminate E].
      destruct (numeric_ids r) as [l|]; [|discriminate E].
      injection E as <-. specialize (IH l eq_refl z). split.
      * intros [<-|H]; [exists k; auto|].
        apply IH in H. destruct H as (k' & Hk & H). eauto.
      * intros (k' & [<-|Hk] & D' & E'); [left; congruence|].
        right. apply IH. eauto.
    + rewrite (IH ids E z). split.
      * intros (k' & Hk & H). eauto.
      * intros (k' & [<-|Hk] & D' & E'); [congruence | eauto].
Qed.

Lemma numeric_ids_decimal :
  forall d, decimal_keys d <-> exists ids, numeric_ids (Py.keys d) = Some ids.
Proof.
  intros d. split.
  - intros H. destruct (numeric_ids (Py.keys d)) as [ids|] eqn:E; [eauto|].
    apply numeric_ids_raises in E. destruct E as (k & Hk & D & E).
    destruct (H k Hk D E).
  - intros [ids E] k Hk D N.
    assert (X : numeric_ids (Py.keys d) = None).
    { apply numeric_ids_raises. eauto. }
    congruence.
Qed.

Lemma triple_ret :
  forall (A : Type) (P : world -> Prop) (a : A) (Q : A -> world -> Prop) E,
    (forall s, P s -> Q a s) -> triple P (ret a) Q E.
Proof. intros A P a Q E H s Hs. simpl. auto. Qed.

Lemma triple_raise :
  forall (A : Type) (P : world -> Prop) e (Q : A -> world -> Prop)
         (E : world -> Prop),
    (forall s, P s -> E s) -> triple P (raise e) Q E.
Proof. intros A P e Q E H s Hs. simpl. auto. Qed.

Ltac bind_ret :=
  match goal with
  | |- triple _ (bind (ret ?a) ?k) _ _ =>
      change (bind (ret a) k) with (k a); cbv beta
  | |- triple _ (bind (@raise ?A ?e) ?k) _ _ =>
      apply triple_bind with (Q := fun _ _ => False);
      [apply triple_raise | intros ? ? []]
  end.

Lemma triple_for_each :
  forall (A : Type) (P E : world -> Prop) (l : list A) (body : A -> M unit),
    (forall x, triple P (body x) (fun _ => P) E) ->
    triple P (for_each l body) (fun _ => P) E.
Proof.
  intros A P E l body H. induction l as [|x r IH]; simpl.
  - apply triple_ret. auto.
  - eapply triple_bind; [apply H | intros ?; exact IH].
Qed.

Lemma numbered_not_dict :
  forall data n,
    (forall d, data <> JDict d) -> (0 <= n)%Z -> numbered data n.
Proof.
  intros data n H Hn. split; [exact Hn|].
  intros d k z E. destruct (H d E).
Qed.

Lemma kept_weaken :
  forall (R R' : json -> Z -> Prop) s,
    (forall d n, R d n -> R' d n) -> kept R s -> kept R' s.
Proof. intros R R' s H (H1 & H2 & H3 & H4). repeat split; auto. Qed.

(** [load_images] starts from no image and counter 0, and ends with the
    counter above every loaded id when line 1392 could number them. *)
Lemma sound_load_images :
  forall c,
    triple (kept (fun d n => d = JDict [] /\ n = 0%Z)) (load_images c)
           (fun _ => sound) sound.
Proof.
  intros c.
  assert (W : forall s, kept (fun d n => d = JDict [] /\ n = 0%Z) s -> sound s).
  { intros s. apply kept_weaken. intros d n [Hd Hn]; subst d n. apply numbered_empty. }
  unfold load_images. destruct (worth_loading c); unfold when at 1;
    [|apply triple_ret; exact W].
  apply triple_try_except.
  destruct (json_loads c) as [data|]; unfold or_raise at 1;
    [|bind_ret; exact W].
  bind_ret.
  eapply triple_bind.
  { apply triple_update
      with (Q := kept (fun d n => d = data /\ n = 0%Z)).
    intros s (H1 & H2 & H3 & H4). unfold kept. unfold_world. fields.
    intuition auto. }
  intros ?.
  assert (N : forall s, (forall d, data <> JDict d) ->
                        kept (fun d n => d = data /\ n = 0%Z) s -> sound s).
  { intros s Hnd. apply kept_weaken. intros d n [Hd Hn]; subst d n.
    apply numbered_not_dict; [exact Hnd | lia]. }
  destruct data as [| | | | | |d]; unfold items;
    try (bind_ret; intros ?; apply N; intros ?; discriminate).
  bind_ret.
  eapply triple_bind.
  { apply triple_for_each. intros [img_id img_data].
    apply triple_try_except, preserves_triple, preserves_bind;
      [apply preserves_read | intros w; apply kept_place_image]. }
  intros ?. cbv beta.
  destruct (truthy (JDict d)) eqn:T; unfold when.
  - destruct (numeric_ids (map fst d)) as [ids|] eqn:E; unfold or_raise.
    + destruct (numeric_ids_holds _ E) as [Hpos Hin]. bind_ret.
      apply triple_update. intros s (H1 & H2 & [H3 H3'] & H4).
      unfold sound, kept. unfold_world. fields. repeat split; auto.
      * pose proof (max_default_nonneg ids Hpos). lia.
      * intros d' k z Ed _ Hk D Ez. rewrite H3 in Ed. injection Ed as <-.
        pose proof (max_default_above ids 0 z (Hin k z Hk D Ez)). lia.
    + (* line 1392 raises: the counter stays where [clear_editor] put it *)
      bind_ret. intros s. apply kept_weaken. intros d' n [Hd Hn]; subst d' n.
      split; [lia|]. intros d' k z Ed Hdec. injection Ed as <-.
      apply numeric_ids_decimal in Hdec. destruct Hdec as [ids E'].
      unfold Py.keys in E'. congruence.
  - apply triple_ret. intros s. apply kept_weaken. intros d' n [Hd Hn]; subst d' n.
    destruct d; [apply numbered_empty | discriminate T].
Qed.

Lemma sound_open_note_by_id : forall id, preserves sound (open_note_by_id id).
Proof.
  intros id. unfold open_note_by_id. apply triple_preserves.
  eapply triple_bind;
    [apply preserves_triple; apply preserves_update; unfold sound; leaf|].
  intros ?.
  eapply triple_bind; [apply preserves_triple; apply preserves_read|].
  intros d. destruct (get_note_content id d) as [note_content|];
    [|apply triple_ret; auto].
  eapply triple_bind;
    [apply preserves_triple; apply preserves_update; unfold sound; leaf|].
  intros ?.
  eapply triple_bind;
    [apply preserves_triple; apply preserves_update; unfold sound; leaf|].
  intros ?.
  eapply triple_bind;
    [apply preserves_triple; apply preserves_update; unfold sound; leaf|].
  intros ?.
  eapply triple_bind.
  { apply triple_update
      with (Q := kept (fun d n => d = JDict [] /\ (0 <= n)%Z)).
    intros s (H1 & H2 & [H3 H3'] & H4). unfold kept. unfold_world. fields.
    intuition (auto with tk; lia). }
  intros ?.
  eapply triple_bind.
  { apply triple_update
      with (Q := kept (fun d n => d = JDict [] /\ n = 0%Z)).
    intros s (H1 & H2 & [H3 H3'] & H4). unfold kept. unfold_world. fields.
    intuition (auto with tk; lia). }
  intros ?.
  eapply triple_bind; [apply sound_load_images|]. intros ?. cbv beta.
  apply preserves_triple. unfold sound.
  repeat step_body; leaf. apply kept_load_formatting.
Qed.

(** *** Tabs *)

Lemma id_eqb_eq : forall a b, id_eqb a b = true <-> a = b.
Proof.
  intros [x|] [y|]; simpl; split; intros H; try congruence; try reflexivity.
  - apply Z.eqb_eq in H. congruence.
  - injection H as ->. apply Z.eqb_refl.
Qed.

Lemma listed_iff :
  forall (tabs : list (option Z * string)) id,
    existsb (fun tab => id_eqb (fst tab) id) tabs = true <->
    exists t, In (id, t) tabs.
Proof.
  intros tabs id. rewrite existsb_exists. split.
  - intros ([x t] & Hin & E). apply id_eqb_eq in E. simpl in E. subst x. eauto.
  - intros (t & Hin). exists (id, t). split; [exact Hin|]. now apply id_eqb_eq.
Qed.

Lemma known_iff : forall id keys, known id keys = true <-> In id keys.
Proof.
  intros id keys. unfold known. rewrite existsb_exists. split.
  - intros (x & Hin & E). apply id_eqb_eq in E. now subst x.
  - intros Hin. exists id. split; [exact Hin|]. now apply id_eqb_eq.
Qed.

Lemma tabbed_add :
  forall tabs keys id t,
    tabbed tabs keys ->
    tabbed (tabs ++ [(id, t)]) (if known id keys then keys else keys ++ [id]).
Proof.
  intros tabs keys id t H x Hx.
  apply listed_iff in Hx. destruct Hx as (u & Hu).
  apply known_iff. apply in_app_or in Hu. destruct Hu as [Hu|[Hu|[]]].
  - assert (K : In x keys).
    { apply known_iff, H, listed_iff. eauto. }
    destruct (known id keys); [exact K | apply in_or_app; auto].
  - injection Hu as <- <-. destruct (known id keys) eqn:K.
    + now apply known_iff.
    + apply in_or_app. right. left. reflexivity.
Qed.

Lemma tabbed_filter :
  forall tabs keys id,
    tabbed tabs keys ->
    tabbed (filter (fun tab => negb (id_eqb (fst tab) id)) tabs)
           (filter (fun k => negb (id_eqb k id)) keys).
Proof.
  intros tabs keys id H x Hx.
  apply listed_iff in Hx. destruct Hx as (u & Hu).
  apply filter_In in Hu. destruct Hu as [Hu Hne]. simpl in Hne.
  apply known_iff, filter_In. split; [|exact Hne].
  apply known_iff, H, listed_iff. eauto.
Qed.

Lemma tabbed_retitle :
  forall tabs keys (f : option Z * string -> string),
    tabbed tabs keys -> tabbed (map (fun tab => (fst tab, f tab)) tabs) keys.
Proof.
  intros tabs keys f H x Hx. apply H.
  rewrite existsb_exists in *. destruct Hx as (tab & Hin & E).
  apply in_map_iff in Hin. destruct Hin as (tab0 & <- & Hin0).
  exists tab0. auto.
Qed.

#[local] Hint Resolve tabbed_filter tabbed_retitle : tk.

(** Two assignments in a row may break [P] in between. *)
Lemma preserves_update_twice :
  forall (P : world -> Prop) f g (k : M unit),
    (forall s, P s -> P (g (f s))) -> preserves P k ->
    preserves P (update f ;; update g ;; k).
Proof. intros P f g k H Hk s Hs. apply Hk. apply H. exact Hs. Qed.

Lemma sound_activate_tab : forall id, preserves sound (activate_tab id).
Proof.
  intros id. unfold activate_tab. unfold sound. method.
  apply sound_open_note_by_id.
Qed.

Lemma sound_add_tab : forall id t, preserves sound (add_tab id t).
Proof.
  intros id t. unfold add_tab.
  apply preserves_bind; [apply preserves_read|]. intros tabs.
  destruct (existsb _ tabs); [apply sound_activate_tab|].
  apply preserves_update_twice; [|apply sound_activate_tab].
  intros s (H1 & H2 & H3 & H4). unfold sound, kept, has_tab. unfold_world.
  pose proof (tabbed_add id t H4) as T. fields.
  destruct (known id (tab_references s)); fields;
    (split; [|split; [|split]]); auto.
Qed.

Lemma sound_close_tab : forall id, preserves sound (close_tab id).
Proof.
  intros id. unfold close_tab.
  apply preserves_update_twice.
  - intros s (H1 & H2 & H3 & H4). unfold sound, kept. unfold_world. fields.
    (split; [|split; [|split]]); auto with tk.
  - unfold sound. method. apply sound_activate_tab.
Qed.

Lemma sound_new_note : preserves sound new_note.
Proof.
  unfold new_note, show_editor_page. unfold sound. method.
  apply sound_add_tab.
Qed.

Lemma sound_open_note_in_tab :
  forall id t, preserves sound (open_note_in_tab id t).
Proof.
  intros. unfold open_note_in_tab, show_editor_page.
  apply preserves_bind; [apply sound_add_tab|]. intros ?. unfold sound. method.
Qed.

Lemma sound_save_note : forall asked now, preserves sound (save_note asked now).
Proof.
  intros. unfold save_note. unfold sound. method.
  all: try apply kept_save_formatting_data.
  all: try apply sound_add_tab.
  all: try apply sound_close_tab.
Qed.

Lemma sound_delete_note : forall confirm, preserves sound (delete_note confirm).
Proof.
  intros. unfold delete_note. unfold sound. method.
  apply sound_close_tab.
Qed.

(** *** Fonts *)

Lemma nametofont_described :
  forall s, described (text_area s) -> nametofont s = None.
Proof.
  intros s H. unfold nametofont, described in *.
  destruct (Tk.font (text_area s)); [reflexivity | destruct H].
Qed.

(** While the font of the editor is a description, the look-up of its
    name raises, and what follows it is not run. *)
Lemma lookup_raises :
  forall (A : Type) (k : string * Z -> M A) s,
    described (text_area s) ->
    (current_font <- (s <- read (fun s => s) ;;
                      or_raise TclError (nametofont s)) ;;
     k current_font) s = (Raised TclError, s).
Proof.
  intros A k s H. unfold bind, read. rewrite (nametofont_described s H).
  reflexivity.
Qed.

Lemma sound_lookup :
  forall (A : Type) (k : string * Z -> M A),
    preserves sound
      (current_font <- (s <- read (fun s => s) ;;
                        or_raise TclError (nametofont s)) ;;
       k current_font).
Proof.
  intros A k s H. rewrite lookup_raises; [exact H | apply H].
Qed.

Lemma sound_change_font_size :
  forall entry, preserves sound (change_font_size entry).
Proof.
  intros. unfold change_font_size. apply preserves_try_except.
  destruct (Py.int entry) as [n|]; [|unfold sound; method].
  apply preserves_bind; [unfold sound; method|]. intros ?.
  apply preserves_bind; [apply preserves_read|]. intros w.
  destruct (selection w) as [[i j]|]; [unfold sound; method|].
  apply sound_lookup.
Qed.

Lemma sound_change_font_family :
  forall entry, preserves sound (change_font_family entry).
Proof.
  intros. unfold change_font_family. apply preserves_try_except.
  apply preserves_bind; [unfold sound; method|]. intros ?.
  apply preserves_bind; [apply preserves_read|]. intros w.
  destruct (selection w) as [[i j]|]; [unfold sound; method|].
  apply sound_lookup.
Qed.

(** *** Images *)

(** The counter is above the number of [k] as well. *)
Definition above (k : string) (data : json) (n : Z) : Prop :=
  numbered data n /\ forall z, Py.int k = Some z -> (z < n)%Z.

Lemma keys_set :
  forall (V : Type) k (v : V) d x,
    In x (Py.keys (Py.set k v d)) -> x = k \/ In x (Py.keys d).
Proof.
  intros V k v d x. induction d as [|[k' v'] r IH]; simpl.
  - intros [<-|[]]. now left.
  - destruct (String.eqb k k') eqn:E; simpl.
    + apply String.eqb_eq in E. subst k'. intros [<-|H]; auto.
    + intros [<-|H]; auto. destruct (IH H); auto.
Qed.

Lemma keys_kept :
  forall (V : Type) k (v : V) d x,
    In x (Py.keys d) -> In x (Py.keys (Py.set k v d)).
Proof.
  intros V k v d x. induction d as [|[k' v'] r IH]; simpl.
  - intros [].
  - destruct (String.eqb k k') eqn:E; simpl.
    + apply String.eqb_eq in E. subst k'. intros [<-|H]; auto.
    + intros [<-|H]; auto.
Qed.

Lemma decimal_keys_set :
  forall k v d, decimal_keys (Py.set k v d) -> decimal_keys d.
Proof. intros k v d H x Hx. apply H. now apply keys_kept. Qed.

Lemma kept_store_image :
  forall k v, preserves (kept (above k)) (store_image k v).
Proof.
  intros k v s (H1 & H2 & [[H3 H3'] H3''] & H4).
  assert (K : kept (above k) s) by (repeat split; auto).
  unfold store_image, bind, read, setitem.
  destruct (images_data s) as [| | | | | |d] eqn:E; simpl; try exact K.
  unfold kept, above, numbered. unfold_world. fields.
  repeat split; auto.
  intros d' x z Ed Hdec Hx D Ez. injection Ed as <-.
  apply decimal_keys_set in Hdec.
  apply keys_set in Hx. destruct Hx as [->|Hx]; eauto.
Qed.

Lemma kept_insert_and_delete_marker :
  forall R p id, preserves (kept R) (insert_and_delete_marker p id).
Proof. intros. unfold insert_and_delete_marker. method. Qed.

Lemma kept_keep_reference :
  forall R id photo, preserves (kept R) (keep_reference id photo).
Proof. intros. unfold keep_reference. method. Qed.

(** A fresh id is the old counter, and the counter moves past it. *)
Lemma sound_after_fresh :
  forall k : string -> M unit,
    (forall id, preserves (kept (above id)) (k id)) ->
    preserves sound (img_id <- fresh_image_id ;; k img_id).
Proof.
  intros k Hk s (H1 & H2 & [H3 H3'] & H4).
  change (snd ((img_id <- fresh_image_id ;; k img_id) s))
    with (snd (k (Py.str (image_counter s))
                 (set_image_counter (image_counter s + 1)%Z s))).
  apply kept_weaken with (R := above (Py.str (image_counter s)));
    [intros d n [Hab _]; exact Hab|].
  apply Hk. unfold kept, above, numbered. unfold_world. fields.
  repeat split; auto; try lia.
  - intros d x z Ed Hdec Hx D Ez. specialize (H3' d x z Ed Hdec Hx D Ez). lia.
  - intros z Ez. rewrite PyFacts.int_str in Ez by exact H3.
    injection Ez as <-. lia.
Qed.

Lemma sound_insert_image :
  forall chosen, preserves sound (insert_image chosen).
Proof.
  intros [file|]; unfold insert_image; [|apply preserves_ret].
  apply preserves_try_except.
  apply preserves_bind; [apply preserves_or_raise|]. intros img.
  apply sound_after_fresh. intros id.
  repeat step_body; leaf.
  - apply kept_keep_reference.
  - apply kept_store_image.
  - apply kept_insert_and_delete_marker.
Qed.

Lemma sound_paste_from_clipboard :
  forall grabbed clip, preserves sound (paste_from_clipboard grabbed clip).
Proof.
  intros [img|] clip; unfold paste_from_clipboard; apply preserves_try_except.
  - apply preserves_bind; [apply preserves_read|]. intros p.
    apply sound_after_fresh. intros id.
    repeat step_body; leaf.
    + apply kept_keep_reference.
    + apply kept_insert_and_delete_marker.
    + apply kept_store_image.
  - unfold sound. method.
Qed.

(** *** Keys and the mouse *)

Lemma inside_set_cursor :
  forall p w, TkFacts.inside w -> TkFacts.inside (set_cursor p w).
Proof.
  unfold TkFacts.inside, set_cursor, Tk.landing, Tk.END. simpl. intros. lia.
Qed.

Lemma inside_type_text :
  forall t w, TkFacts.inside w -> TkFacts.inside (type_text t w).
Proof.
  intros t w H. unfold type_text.
  destruct (cursor_in_selection w) as [[a b]|]; auto with tk.
Qed.

Lemma described_type_text :
  forall t w, described w -> described (type_text t w).
Proof.
  intros t w H. unfold type_text.
  destruct (cursor_in_selection w) as [[a b]|]; auto with tk.
Qed.

Lemma inside_backspace : forall w, TkFacts.inside w -> TkFacts.inside (backspace w).
Proof.
  intros w H. unfold backspace.
  destruct (cursor_in_selection w) as [[a b]|]; auto with tk.
  destruct (0 <? _); auto with tk.
Qed.

Lemma described_backspace : forall w, described w -> described (backspace w).
Proof.
  intros w H. unfold backspace.
  destruct (cursor_in_selection w) as [[a b]|]; auto with tk.
  destruct (0 <? _); auto with tk.
Qed.

Lemma inside_click : forall p w, TkFacts.inside w -> TkFacts.inside (click p w).
Proof. intros. apply inside_set_cursor. auto with tk. Qed.

Lemma inside_drag : forall i j w, TkFacts.inside w -> TkFacts.inside (drag i j w).
Proof. intros. apply inside_set_cursor. auto with tk. Qed.

#[local] Hint Resolve inside_type_text described_type_text inside_backspace
  described_backspace inside_click inside_drag : tk.

Theorem sound_command : forall e, preserves sound (command e).
Proof.
  intros [c| |p|i j| |asked now|id t|id|id|confirm| | | |entry|entry
         |chosen|grabbed clip]; simpl command.
  - unfold sound. method.
  - unfold sound. method.
  - unfold sound. method.
  - unfold sound. method.
  - apply sound_new_note.
  - apply sound_save_note.
  - apply sound_open_note_in_tab.
  - apply sound_activate_tab.
  - apply sound_close_tab.
  - apply sound_delete_note.
  - apply kept_toggle.
  - apply kept_toggle.
  - apply kept_toggle.
  - apply sound_change_font_size.
  - apply sound_change_font_family.
  - apply sound_insert_image.
  - apply sound_paste_from_clipboard.
Qed.

Lemma sound_init : forall d fonts, sound (init d fonts).
Proof.
  intros d fonts. unfold sound, kept, init. fields.
  repeat split; try exact I.
  - unfold TkFacts.inside, Tk.END. simpl. lia.
  - lia.
  - intros d' k z E. injection E as <-. intros _ [].
  - intros id H. discriminate H.
Qed.

Theorem reachable_sound : forall s, reachable s -> sound s.
Proof.
  intros s H. induction H as [d fonts|s e H IH].
  - apply sound_init.
  - unfold handle. apply preserves_run; [apply kept_on_text_modified|].
    apply preserves_run; [apply sound_command | exact IH].
Qed.

(** ** Saving stamps the row, listing sorts by the stamp *)

(** [a] may stand before [b] in a listing. *)
Definition newer_first (a b : note) : Prop := (updated_at b <= updated_at a)%Z.

Lemma place_permutation :
  forall r l, Permutation (Sqlite.place r l) (r :: l).
Proof.
  intros r l. induction l as [|x l IH]; simpl; [reflexivity|].
  destruct (updated_at r <? updated_at x)%Z; [|reflexivity].
  rewrite IH. apply perm_swap.
Qed.

Lemma place_sorted :
  forall r l, StronglySorted newer_first l ->
              StronglySorted newer_first (Sqlite.place r l).
Proof.
  intros r l H. induction H as [|x l Hs IH Hx]; simpl.
  - constructor; constructor.
  - destruct (updated_at r <? updated_at x)%Z eqn:E.
    + apply Z.ltb_lt in E. constructor; [exact IH|].
      apply Forall_forall. intros y Hy.
      apply (Permutation_in _ (place_permutation r l)) in Hy.
      destruct Hy as [<-|Hy]; [unfold newer_first; lia|].
      rewrite Forall_forall in Hx. auto.
    + apply Z.ltb_ge in E. constructor; [constructor; assumption|].
      constructor; [unfold newer_first; lia|].
      rewrite Forall_forall in *. intros y Hy. specialize (Hx y Hy).
      unfold newer_first in *. lia.
Qed.

Lemma order_by_permutation :
  forall l, Permutation (Sqlite.order_by_updated_at_desc l) l.
Proof.
  induction l as [|r l IH]; simpl; [constructor|].
  rewrite place_permutation. now constructor.
Qed.

Lemma order_by_sorted :
  forall l, StronglySorted newer_first (Sqlite.order_by_updated_at_desc l).
Proof.
  induction l as [|r l IH]; simpl; [constructor | now apply place_sorted].
Qed.

(** C9: every save, first or later, writes the clock reading into
    [updated_at] of the row it saves, and [get_notes_from_db] lists every
    row once, (id, title) each, in descending order of [updated_at] and of
    nothing else. *)
Theorem saves_stamp_and_listing_orders :
  (forall t body img fmt now d,
      exists r,
        notes (save_note_to_db t body img fmt now d) = notes d ++ [r] /\
        title r = t /\ content r = body /\ updated_at r = now) /\
  (forall id t body img fmt now d,
      map note_id (notes (update_note_in_db id t body img fmt now d))
        = map note_id (notes d) /\
      forall r,
        In r (notes (update_note_in_db id t body img fmt now d)) ->
        (note_id r = id -> title r = t /\ content r = body /\
                           updated_at r = now) /\
        (note_id r <> id -> In r (notes d))) /\
  (forall d,
      exists l,
        Permutation l (notes d) /\
        StronglySorted newer_first l /\
        get_notes_from_db d = map (fun r => (note_id r, title r)) l).
Proof.
  split; [|split].
  - intros. eexists. split; [reflexivity|]. simpl. auto.
  - intros id t body img fmt now d. simpl. split.
    + rewrite map_map. apply map_ext_in. intros r _.
      destruct (note_id r =? id)%Z; reflexivity.
    + intros r Hr. apply in_map_iff in Hr. destruct Hr as (r0 & <- & Hin).
      destruct (note_id r0 =? id)%Z eqn:E; simpl.
      * apply Z.eqb_eq in E. split; [auto | congruence].
      * apply Z.eqb_neq in E. split; [congruence | auto].
  - intros d. exists (Sqlite.order_by_updated_at_desc (notes d)).
    split; [apply order_by_permutation|].
    split; [apply order_by_sorted | reflexivity].
Qed.

(** ** Saving without content or without a title *)

(** C7: when the editor holds nothing but blanks, or the title dialog
    returns no title, [save_note] changes neither the database nor the id
    of the note, and says why on the status bar. *)
Theorem save_note_refuses_before_writing :
  forall s asked now,
    Py.strip (buffer s) = "" \/ asked = None \/ asked = Some "" ->
    let s' := run (save_note asked now) s in
    disk s' = disk s /\
    current_note_id s' = current_note_id s /\
    formatting_data s' = formatting_data s /\
    (status_bar s' = "Error: Note must have content" \/
     status_bar s' = "Error: Note must have a title").
Proof.
  intros s asked now H. unfold run, save_note, bind, read. simpl fst.
  fold (buffer s).
  destruct (Py.strip (buffer s)) as [|c r] eqn:E; simpl.
  - auto.
  - destruct H as [H|[->| ->]]; [discriminate H| |]; simpl; auto.
Qed.

Lemma save_note_refuses_before_writing_witness :
  disk (run (save_note (Some "t") 7%Z) (init (Database [] []) []))
  = disk (init (Database [] []) []).
Proof.
  apply (@save_note_refuses_before_writing
           (init (Database [] []) []) (Some "t") 7%Z).
  left. reflexivity.
Defined.

(** ** What loading a note leaves alone *)

Section Blind.
Variable P : world -> Prop.
Hypothesis blind_text_area : forall w s, P s -> P (set_text_area w s).
Hypothesis blind_image_references :
  forall r s, P s -> P (set_image_references r s).
Hypothesis blind_images_data : forall d s, P s -> P (set_images_data d s).
Hypothesis blind_image_counter : forall n s, P s -> P (set_image_counter n s).
Hypothesis blind_formatting_data :
  forall d s, P s -> P (set_formatting_data d s).
Hypothesis blind_current_format :
  forall f s, P s -> P (set_current_format f s).
Hypothesis blind_status_bar : forall m s, P s -> P (set_status_bar m s).

Ltac blind :=
  repeat step_body;
  lazymatch goal with
  | |- preserves _ _ => idtac
  | _ => intros; unfold reset_format; auto
  end.

Lemma blind_place_image :
  forall fuel id data start, preserves P (place_image fuel id data start).
Proof.
  induction fuel as [|fuel IH]; intros id data start; simpl; blind.
  apply IH.
Qed.

Lemma blind_load_images : forall c, preserves P (load_images c).
Proof.
  intros c. unfold load_images, items. blind.
  all: apply blind_place_image.
Qed.

Lemma blind_tag_add_loaded :
  forall tag a b, preserves P (tag_add_loaded tag a b).
Proof. intros. unfold tag_add_loaded, index_arg. blind. Qed.

Lemma blind_apply_ranges :
  forall tag ranges, preserves P (apply_ranges tag ranges).
Proof.
  intros. unfold apply_ranges, iterate, unpack_pair. blind.
  all: apply blind_tag_add_loaded.
Qed.

Lemma blind_load_formatting : forall c, preserves P (load_formatting c).
Proof.
  intros. unfold load_formatting, get_or, items. blind.
  all: apply blind_apply_ranges.
Qed.

(** What [open_note_by_id] does once it has set [current_note_id]. *)
Lemma blind_open_note_by_id :
  forall id,
    (forall s, P s -> P (set_current_note_id id s)) ->
    preserves P (open_note_by_id id).
Proof.
  intros id H. unfold open_note_by_id. blind.
  - apply blind_load_images.
  - apply blind_load_formatting.
Qed.
End Blind.

(** Runs the reads and assignments at the head of a method body. *)
Ltac exec :=
  repeat match goal with
    | |- context [bind (read ?f) ?k ?s] =>
        change (bind (read f) k s) with (k (f s) s); cbv beta
    | |- context [bind (update ?f) ?k ?s] =>
        change (bind (update f) k s) with (k tt (f s)); cbv beta
    | |- context [bind (ret ?a) ?k ?s] =>
        change (bind (ret a) k s) with (k a s); cbv beta
    | |- context [bind (edit ?f) ?k ?s] =>
        change (bind (edit f) k s)
          with (k tt (set_text_area (f (text_area s)) s)); cbv beta
    | |- context [bind (animate_status_bar ?m) ?k ?s] =>
        change (bind (animate_status_bar m) k s)
          with (k tt (set_status_bar m s)); cbv beta
    end.

(** ** Methods that cannot raise *)

Definition returns {A : Type} (c : M A) : Prop :=
  forall s, exists a, fst (c s) = Returned a.

Lemma returns_ret : forall (A : Type) (a : A), returns (ret a).
Proof. intros A a s. exists a. reflexivity. Qed.

Lemma returns_read : forall (A : Type) (f : world -> A), returns (read f).
Proof. intros A f s. exists (f s). reflexivity. Qed.

Lemma returns_update : forall f, returns (update f).
Proof. intros f s. exists tt. reflexivity. Qed.

Lemma returns_try_except : forall c, returns (try_except c).
Proof. intros c s. exists tt. reflexivity. Qed.

Lemma returns_bind :
  forall (A B : Type) (c : M A) (k : A -> M B),
    returns c -> (forall a, returns (k a)) -> returns (bind c k).
Proof.
  intros A B c k Hc Hk s. unfold bind. destruct (Hc s) as [a Ha].
  destruct (c s) as [[a'|e] s']; simpl in Ha; [|discriminate].
  apply Hk.
Qed.

Lemma returns_when : forall b c, returns c -> returns (when b c).
Proof. intros [|] c H; [exact H | apply returns_ret]. Qed.

Ltac step_returns :=
  match goal with
  | |- returns (bind _ _) => apply returns_bind; [| intro]
  | |- returns (ret _) => apply returns_ret
  | |- returns (read _) => apply returns_read
  | |- returns (update _) => apply returns_update
  | |- returns (edit _) => apply returns_update
  | |- returns (animate_status_bar _) => apply returns_update
  | |- returns (try_except _) => apply returns_try_except
  | |- returns (when _ _) => apply returns_when
  | |- returns (match ?x with _ => _ end) => destruct x
  end.

Lemma returns_open_note_by_id : forall id, returns (open_note_by_id id).
Proof.
  intros. unfold open_note_by_id, load_images, load_formatting.
  repeat step_returns.
Qed.

Lemma returns_activate_tab : forall id, returns (activate_tab id).
Proof.
  intros. unfold activate_tab. repeat step_returns.
  apply returns_open_note_by_id.
Qed.

Lemma returns_add_tab : forall id t, returns (add_tab id t).
Proof.
  intros. unfold add_tab. repeat step_returns; apply returns_activate_tab.
Qed.

Lemma returns_close_tab : forall id, returns (close_tab id).
Proof.
  intros. unfold close_tab. repeat step_returns. apply returns_activate_tab.
Qed.

Lemma run_bind :
  forall (A B : Type) (c : M A) (k : A -> M B) s,
    returns c -> exists a, run (bind c k) s = run (k a) (run c s).
Proof.
  intros A B c k s H. unfold run, bind. destruct (H s) as [a Ha].
  destruct (c s) as [[a'|e] s']; simpl in Ha; [|discriminate].
  exists a'. reflexivity.
Qed.

(** ** The id read back after the first save *)

Lemma open_note_by_id_sets_id :
  forall id s, current_note_id (run (open_note_by_id id) s) = id.
Proof.
  intros id s.
  change (run (open_note_by_id id) s)
    with (run (open_note_by_id id) (set_current_note_id id s)).
  apply (@blind_open_note_by_id (fun s => current_note_id s = id));
    auto.
Qed.

Lemma activate_tab_sets_id :
  forall id s, has_tab id s = true ->
               current_note_id (run (activate_tab id) s) = id.
Proof.
  intros id s H. unfold run, activate_tab, bind, read. rewrite H. simpl.
  apply open_note_by_id_sets_id.
Qed.

Lemma add_tab_sets_id :
  forall id t s, tabbed (open_notes s) (tab_references s) ->
                 current_note_id (run (add_tab id t) s) = id.
Proof.
  intros id t s H. unfold run, add_tab, bind, read.
  destruct (existsb _ (open_notes s)) eqn:E.
  - apply activate_tab_sets_id. apply H. exact E.
  - simpl. apply activate_tab_sets_id. unfold has_tab. unfold_world. fields.
    destruct (known id (tab_references s)) eqn:K; fields.
    + exact K.
    + apply known_iff, in_or_app. right. left. reflexivity.
Qed.

Section Disk.
Variable D : database.
Let P (s : world) : Prop := disk s = D.

Lemma disk_open_note_by_id : forall id, preserves P (open_note_by_id id).
Proof. intros. apply blind_open_note_by_id; auto. Qed.

Lemma disk_activate_tab : forall id, preserves P (activate_tab id).
Proof.
  intros. unfold activate_tab. repeat step_body; auto.
  apply disk_open_note_by_id.
Qed.

Lemma disk_add_tab : forall id t, preserves P (add_tab id t).
Proof.
  intros. unfold add_tab. repeat step_body; auto.
  - apply disk_activate_tab.
  - intros s H. destruct (has_tab id s); exact H.
  - apply disk_activate_tab.
Qed.

Lemma disk_close_tab : forall id, preserves P (close_tab id).
Proof.
  intros. unfold close_tab. repeat step_body; auto.
  apply disk_activate_tab.
Qed.
End Disk.

Lemma next_rowid_positive : forall ids, (0 < Sqlite.next_rowid ids)%Z.
Proof.
  intros ids. unfold Sqlite.next_rowid.
  assert (0 <= fold_right Z.max 0 ids)%Z; [|lia].
  induction ids as [|x r IH]; simpl; lia.
Qed.

Lemma fresh_connection_answers_zero :
  forall d, Sqlite.last_rowid (Sqlite.connect d) = 0%Z.
Proof. reflexivity. Qed.

(** C10: the first save of a note appends a row whose id is positive, and
    leaves 0 in [current_note_id]: the id is asked of a connection that
    has inserted nothing. *)
Theorem first_save_reads_back_zero :
  forall s t now,
    reachable s ->
    current_note_id s = None ->
    Py.strip (buffer s) <> "" ->
    t <> "" ->
    let s' := run (save_note (Some t) now) s in
    current_note_id s' = Some 0%Z /\
    exists r,
      notes (disk s') = notes (disk s) ++ [r] /\
      title r = t /\ (0 < note_id r)%Z /\
      Some (note_id r) <> current_note_id s'.
Proof.
  intros s t now Hr Hid Hbody Ht.
  pose proof (reachable_sound Hr) as (_ & _ & _ & Htab).
  set (s1 := run save_formatting_data s).
  set (s2 := set_disk (save_note_to_db t (buffer s) (images_data s1)
                         (formatting_data s1) now (disk s1)) s1).
  set (s3 := set_current_note_id (Some 0%Z) s2).
  set (tabs := match active_tab s3 with
               | None => add_tab (Some 0%Z) t
               | Some _ => close_tab (active_tab s3) ;; add_tab (Some 0%Z) t
               end).
  assert (E : run (save_note (Some t) now) s
              = run (tabs ;;
                     animate_status_bar ("Note '" ++ t ++ "' saved successfully"))
                    s3).
  { unfold run, save_note. exec. fold (buffer s).
    destruct (Py.strip (buffer s)) eqn:Eb; [contradiction|].
    cbn [negb Py.nonempty]. cbv iota. destruct t as [|c t']; [contradiction|].
    match goal with
    | |- context [bind save_formatting_data ?k s] =>
        change (bind save_formatting_data k s) with (k tt s1); cbv beta
    end.
    exec. change (current_note_id s1) with (current_note_id s).
    rewrite Hid. exec. reflexivity. }
  assert (Final : current_note_id (run tabs s3) = Some 0%Z /\
                  disk (run tabs s3) = disk s2).
  { unfold tabs. destruct (active_tab s3) as [a|].
    - destruct (@run_bind unit unit (close_tab (Some a))
                  (fun _ => add_tab (Some 0%Z) t) s3
                  (returns_close_tab (Some a))) as [[] ->].
      split.
      + apply add_tab_sets_id.
        apply (@sound_close_tab (Some a) s3).
        exact (reachable_sound Hr).
      + apply (@disk_add_tab (disk s2)), (@disk_close_tab (disk s2)).
        reflexivity.
    - split.
      + apply add_tab_sets_id. exact Htab.
      + apply (@disk_add_tab (disk s2)). reflexivity. }
  destruct Final as [F1 F2].
  assert (Rt : returns tabs).
  { unfold tabs. destruct (active_tab s3).
    - apply returns_bind; [apply returns_close_tab|].
      intros ?. apply returns_add_tab.
    - apply returns_add_tab. }
  destruct (@run_bind unit unit tabs
              (fun _ => animate_status_bar
                          ("Note '" ++ t ++ "' saved successfully")) s3 Rt)
    as [[] E2].
  cbv zeta. rewrite E, E2.
  change (run (animate_status_bar ?m) ?x) with (set_status_bar m x).
  cbn [current_note_id disk set_status_bar]. rewrite F1, F2.
  split; [reflexivity|].
  eexists. split; [reflexivity|]. cbn [title note_id].
  pose proof (next_rowid_positive (map note_id (notes (disk s1)))) as Hp.
  split; [reflexivity|]. split; [exact Hp|].
  intros Q. injection Q as Q. change (disk s1) with (disk s) in Hp. lia.
Qed.

Lemma first_save_reads_back_zero_witness :
  current_note_id
    (run (save_note (Some "t") 5%Z)
         (play [MenuNew; Key "a"] (init (Database [] []) [])))
  = Some 0%Z.
Proof.
  apply (@first_save_reads_back_zero
           (play [MenuNew; Key "a"] (init (Database [] []) [])) "t" 5%Z).
  - apply reach_step, reach_step, reach_init.
  - reflexivity.
  - discriminate.
  - discriminate.
Defined.

(** ** Running a method one statement at a time *)

Lemma bind_returned :
  forall (A B : Type) (c : M A) (k : A -> M B) s a s',
    c s = (Returned a, s') -> bind c k s = k a s'.
Proof. intros A B c k s a s' H. unfold bind. now rewrite H. Qed.

Lemma bind_raised :
  forall (A B : Type) (c : M A) (k : A -> M B) s e s',
    c s = (Raised e, s') -> bind c k s = (Raised e, s').
Proof. intros A B c k s e s' H. unfold bind. now rewrite H. Qed.

Lemma fresh_image_id_result :
  forall s,
    fresh_image_id s
    = (Returned (Py.str (image_counter s)),
       set_image_counter (image_counter s + 1)%Z s).
Proof. reflexivity. Qed.

Lemma store_image_result :
  forall img_id img_data s d,
    images_data s = JDict d ->
    store_image img_id img_data s
    = (Returned tt, set_images_data (JDict (Py.set img_id img_data d)) s).
Proof.
  intros img_id img_data s d H. unfold store_image, bind, read.
  rewrite H. reflexivity.
Qed.

Lemma get_set_same :
  forall (V : Type) k (v : V) d, Py.get k (Py.set k v d) = Some v.
Proof.
  intros V k v d. induction d as [|[k' v'] r IH]; simpl.
  - now rewrite String.eqb_refl.
  - destruct (String.eqb k k') eqn:E; simpl; rewrite ?E, ?String.eqb_refl; auto.
Qed.

(** ** Which bytes are stored for an inserted image *)

(** C3: [insert_image] stores the bytes of the chosen file as they were
    read, under the id it has just drawn.  They decode to the picture of
    the file at its own width, however wide; the resized copy only goes to
    the screen.  [paste_from_clipboard] does store the resized copy. *)
Theorem insert_image_stores_the_file_as_read :
  forall s file img d,
    Image_open file = Some img ->
    images_data s = JDict d ->
    let img_id := Py.str (image_counter s) in
    let s' := run (insert_image (Some file)) s in
    images_data s' = JDict (Py.set img_id (JB64 file) d) /\
    (exists stored,
        Py.get img_id (Py.set img_id (JB64 file) d) = Some stored /\
        decode_image stored = Some img) /\
    forall clip,
      images_data (run (paste_from_clipboard (Some img) clip) s)
      = JDict (Py.set img_id (JB64 (save_png (resize_if_large img))) d).
Proof.
  intros s file img d Hopen Hdict img_id s'. split; [|split].
  - unfold s', run, insert_image, try_except. cbn [snd].
    rewrite Hopen. cbn [or_raise]. exec.
    rewrite (@bind_returned _ _ _ _ _ _ _ (fresh_image_id_result s)).
    unfold keep_reference. exec.
    match goal with
    | |- context [bind (store_image ?i ?v) ?k ?x] =>
        rewrite (@bind_returned _ _ _ k _ _ _
                   (@store_image_result i v x d Hdict))
    end.
    unfold insert_and_delete_marker. exec. reflexivity.
  - exists (JB64 file). split; [apply get_set_same | exact Hopen].
  - intros clip. unfold run, paste_from_clipboard, try_except. cbn [snd].
    exec. rewrite (@bind_returned _ _ _ _ _ _ _ (fresh_image_id_result s)).
    unfold keep_reference, insert_and_delete_marker. exec.
    match goal with
    | |- context [bind (bind ?c1 ?k1) ?k ?x] =>
        change (bind (bind c1 k1) k x) with (bind c1 (fun a => bind (k1 a) k) x)
    end.
    exec.
    match goal with
    | |- context [bind (store_image ?i ?v) ?k ?x] =>
        rewrite (@bind_returned _ _ _ k _ _ _
                   (@store_image_result i v x d Hdict))
    end.
    reflexivity.
Qed.

Lemma insert_image_stores_the_file_as_read_witness :
  images_data
    (run (insert_image (Some (ImageBytes "JPEG" (Pixels "cat" 1000 800))))
         (init (Database [] []) []))
  = JDict [("0", JB64 (ImageBytes "JPEG" (Pixels "cat" 1000 800)))].
Proof.
  apply (@insert_image_stores_the_file_as_read
           (init (Database [] []) [])
           (ImageBytes "JPEG" (Pixels "cat" 1000 800))
           (Pixels "cat" 1000 800) []);
    reflexivity.
Defined.

(** ** Changing the font size *)

Lemma on_range_nth :
  forall f cs i j p,
    nth_error (Tk.on_range f i j cs) p
    = if (i <=? p) && (p <? j)
      then option_map f (nth_error cs p)
      else nth_error cs p.
Proof.
  intros f cs. induction cs as [|c r IH]; intros i j p; simpl.
  - destruct p; destruct ((i <=? _) && _); reflexivity.
  - destruct j as [|j'].
    + rewrite Nat.ltb_irrefl || idtac.
      replace (p <? 0) with false by (symmetry; apply Nat.ltb_ge; lia).
      now rewrite andb_false_r.
    + destruct i as [|i'], p as [|p']; simpl; try reflexivity.
      * rewrite IH. reflexivity.
      * rewrite IH. reflexivity.
Qed.

Lemma on_range_items :
  forall f cs i j,
    (forall c, Tk.item_of (f c) = Tk.item_of c) ->
    map Tk.item_of (Tk.on_range f i j cs) = map Tk.item_of cs.
Proof.
  intros f cs i j H. revert i j.
  induction cs as [|c r IH]; intros i j; simpl; [reflexivity|].
  destruct j; [reflexivity|]. destruct i; simpl; now rewrite ?H, IH.
Qed.

Lemma has_tag_true : forall t c, Tk.has_tag t c = true <-> In t (Tk.tags_of c).
Proof.
  intros t c. unfold Tk.has_tag. rewrite existsb_exists. split.
  - intros (x & Hx & E). apply String.eqb_eq in E. now subst.
  - intros H. exists t. split; [exact H | apply String.eqb_refl].
Qed.

Lemma add_to_tags :
  forall t c u, In u (Tk.tags_of (Tk.add_to t c)) <-> u = t \/ In u (Tk.tags_of c).
Proof.
  intros t c u. unfold Tk.add_to. destruct (Tk.has_tag t c) eqn:E.
  - apply has_tag_true in E. split; [auto | intros [->|H]; auto].
  - simpl. rewrite in_app_iff. simpl. intuition auto.
Qed.

Lemma remove_from_tags :
  forall t c u,
    In u (Tk.tags_of (Tk.remove_from t c)) <-> u <> t /\ In u (Tk.tags_of c).
Proof.
  intros t c u. unfold Tk.remove_from. simpl. rewrite filter_In.
  rewrite negb_true_iff, String.eqb_neq. intuition auto.
Qed.

(** The tags at [p] after [tag_add] and after [tag_remove]. *)
Lemma tag_add_at :
  forall w t i j p u,
    In u (Tk.tag_names (Tk.tag_add w t i j) p) <->
    In u (Tk.tag_names w p) \/ (u = t /\ i <= p < j /\ p < Tk.END w).
Proof.
  intros w t i j p u. unfold Tk.tag_names, Tk.tag_add, Tk.with_cells, Tk.END.
  cbn [Tk.cells]. rewrite on_range_nth.
  destruct (nth_error (Tk.cells w) p) as [c|] eqn:E.
  - assert (p < length (Tk.cells w)) by (apply nth_error_Some; congruence).
    destruct ((i <=? p) && (p <? j)) eqn:B; simpl.
    + apply andb_prop in B. destruct B as [B1 B2].
      apply Nat.leb_le in B1. apply Nat.ltb_lt in B2.
      rewrite add_to_tags. intuition auto.
    + split; [auto|]. intros [H1|(-> & [H1 H2] & H3)]; [exact H1|].
      apply Nat.leb_le in H1. apply Nat.ltb_lt in H2.
      rewrite H1, H2 in B. discriminate B.
  - assert (length (Tk.cells w) <= p) by (apply nth_error_None; exact E).
    destruct ((i <=? p) && (p <? j)); simpl; split; try tauto;
      intros [[]|(_ & _ & H1)]; lia.
Qed.

Lemma tag_remove_at :
  forall w t i j p u,
    In u (Tk.tag_names (Tk.tag_remove w t i j) p) <->
    In u (Tk.tag_names w p) /\ ~ (u = t /\ i <= p < j).
Proof.
  intros w t i j p u.
  unfold Tk.tag_names, Tk.tag_remove, Tk.with_cells. cbn [Tk.cells].
  rewrite on_range_nth.
  destruct (nth_error (Tk.cells w) p) as [c|] eqn:E.
  - destruct ((i <=? p) && (p <? j)) eqn:B; cbn [option_map].
    + apply andb_prop in B. destruct B as [B1 B2].
      apply Nat.leb_le in B1. apply Nat.ltb_lt in B2.
      rewrite remove_from_tags. intuition auto.
    + split; [|tauto]. intros H. split; [exact H|].
      intros (_ & H1 & H2).
      apply Nat.leb_le in H1. apply Nat.ltb_lt in H2.
      rewrite H1, H2 in B. discriminate B.
  - destruct ((i <=? p) && (p <? j)); simpl; tauto.
Qed.

(** C8, as the code runs: with nothing selected, [change_font_size] sets
    the size for text typed from now on and stops there.  The look-up of
    the editor's font by name raises, the editor having been given the
    tuple [(family, size)] and not a named font, so neither
    [self.settings] nor the settings row nor the widget changes. *)
Theorem change_font_size_without_selection_keeps_the_default :
  forall s entry n,
    reachable s ->
    Py.int entry = Some n ->
    selection (text_area s) = None ->
    let s' := run (change_font_size entry) s in
    settings s' = settings s /\
    disk s' = disk s /\
    get_settings (disk s') = get_settings (disk s) /\
    text_area s' = text_area s /\
    fmt_font_size (current_format s') = n.
Proof.
  intros s entry n Hr Hint Hsel.
  pose proof (reachable_sound Hr) as (_ & Hfont & _).
  unfold run, change_font_size, try_except. cbn [snd]. rewrite Hint. exec.
  cbn [text_area set_current_format]. rewrite Hsel.
  rewrite lookup_raises by exact Hfont.
  cbn [snd]. repeat split; reflexivity.
Qed.

Lemma change_font_size_without_selection_keeps_the_default_witness :
  font_size
    (settings (run (change_font_size "18")
                   (handle MenuNew (init (Database [] []) []))))
  = 12%Z.
Proof.
  pose proof (@change_font_size_without_selection_keeps_the_default
                (handle MenuNew (init (Database [] []) [])) "18" 18%Z
                (reach_step MenuNew (reach_init (Database [] []) []))
                eq_refl eq_refl) as H.
  destruct H as [H _]. rewrite H. reflexivity.
Defined.

(** ** The marker that is written and taken out again *)

Lemma chars_app :
  forall a b, Tk.chars (a ++ b) = (Tk.chars a ++ Tk.chars b)%string.
Proof.
  induction a as [|c r IH]; intros b; simpl; [reflexivity|].
  destruct (Tk.item_of c); simpl; now rewrite IH.
Qed.

Lemma chars_items :
  forall a b, map Tk.item_of a = map Tk.item_of b -> Tk.chars a = Tk.chars b.
Proof.
  induction a as [|c r IH]; intros [|c' r'] H; simpl in *; try discriminate;
    [reflexivity|].
  injection H as Hc Hr. rewrite Hc, (IH r' Hr). reflexivity.
Qed.

Lemma buffer_chars : forall s, buffer s = Tk.chars (Tk.cells (text_area s)).
Proof.
  intros s. unfold buffer, Tk.get, Tk.END. simpl skipn.
  now rewrite Nat.sub_0_r, firstn_all.
Qed.

(** An embedded image adds no character. *)
Lemma chars_image_create :
  forall w i p, Tk.chars (Tk.cells (Tk.image_create w i p)) = Tk.chars (Tk.cells w).
Proof.
  intros w i p. unfold Tk.image_create, Tk.splice. cbn [Tk.cells map].
  rewrite !chars_app. simpl. rewrite <- chars_app. now rewrite firstn_skipn.
Qed.

(** Text that is inserted at [i] and deleted from [i] over its own length
    leaves the cells, tags included, as they were. *)
Lemma delete_what_was_inserted :
  forall w i t,
    i < Tk.END w ->
    Tk.cells (Tk.delete (Tk.insert w i t) i
                (Tk.forward (Tk.insert w i t) i (String.length t)))
    = Tk.cells w.
Proof.
  intros w i t Hi. destruct t as [|c t']; [|set (t := String c t')].
  - simpl. unfold Tk.forward, Tk.delete.
    replace (Nat.min (Nat.min (i + 0) (Tk.END w)) (Tk.END w) <=?
             Nat.min i (Tk.END w)) with true; [reflexivity|].
    symmetry. apply Nat.leb_le. lia.
  - assert (Hl : String.length t = S (String.length t')) by reflexivity.
    set (new := map Tk.Chr (list_ascii_of_string t)).
    assert (Hn : length new = String.length t).
    { unfold new. now rewrite length_map, TkFacts.length_chars. }
    assert (Hc : Tk.cells (Tk.insert w i t)
                 = firstn i (Tk.cells w)
                   ++ map (fun x => Tk.Cell x (Tk.inherited (Tk.cells w) i)) new
                   ++ skipn i (Tk.cells w)).
    { unfold Tk.insert, t. cbn [Tk.cells]. unfold Tk.splice, Tk.landing.
      replace (Nat.min i (Tk.END w - 1)) with i by lia. reflexivity. }
    assert (He : Tk.END (Tk.insert w i t) = Tk.END w + String.length t).
    { unfold Tk.END at 1. rewrite Hc. rewrite !length_app, length_map, Hn.
      rewrite length_firstn, length_skipn. unfold Tk.END in *. lia. }
    unfold Tk.delete, Tk.forward. rewrite He.
    replace (Nat.min i (Tk.END w + String.length t)) with i by lia.
    replace (Nat.min (Nat.min (i + String.length t)
                        (Tk.END w + String.length t))
                     (Tk.END w + String.length t))
      with (i + String.length t) by lia.
    replace (i + String.length t <=? i) with false
      by (symmetry; apply Nat.leb_gt; lia).
    replace (i + String.length t =? Tk.END w + String.length t) with false
      by (symmetry; apply Nat.eqb_neq; lia).
    cbn [andb Tk.cells]. rewrite Hc.
    assert (Hf : length (firstn i (Tk.cells w)) = i).
    { rewrite length_firstn. unfold Tk.END in Hi. lia. }
    rewrite firstn_app, Hf, Nat.sub_diag, firstn_O, app_nil_r.
    rewrite firstn_firstn, Nat.min_id.
    rewrite skipn_app, Hf.
    replace (i + String.length t - i) with (String.length t) by lia.
    rewrite (skipn_all2 (firstn i (Tk.cells w))) by lia.
    rewrite skipn_app, length_map, Hn, Nat.sub_diag.
    rewrite skipn_all2 by (rewrite length_map; lia).
    simpl. apply firstn_skipn.
Qed.

Lemma insert_and_delete_marker_result :
  forall p img_id s,
    exists w,
      insert_and_delete_marker p img_id s = (Returned tt, set_text_area w s) /\
      (p < Tk.END (text_area s) -> Tk.cells w = Tk.cells (text_area s)).
Proof.
  intros p img_id s. eexists. split; [reflexivity|].
  intros H. cbn [text_area set_text_area].
  apply delete_what_was_inserted. exact H.
Qed.

Lemma store_image_outcome :
  forall img_id img_data s,
    (exists d, store_image img_id img_data s
               = (Returned tt, set_images_data d s)) \/
    (exists e, store_image img_id img_data s = (Raised e, s)).
Proof.
  intros img_id img_data s. unfold store_image, bind, read, setitem.
  destruct (images_data s); simpl;
    first [ left; eexists; reflexivity | right; eexists; reflexivity ].
Qed.

Lemma chars_tag_add :
  forall w t i j, Tk.chars (Tk.cells (Tk.tag_add w t i j)) = Tk.chars (Tk.cells w).
Proof.
  intros w t i j. apply chars_items. unfold Tk.tag_add, Tk.with_cells.
  cbn [Tk.cells]. apply on_range_items.
  intros c. unfold Tk.add_to. destruct (Tk.has_tag t c); reflexivity.
Qed.

Lemma chars_tag_remove :
  forall w t i j,
    Tk.chars (Tk.cells (Tk.tag_remove w t i j)) = Tk.chars (Tk.cells w).
Proof.
  intros w t i j. apply chars_items. unfold Tk.tag_remove, Tk.with_cells.
  cbn [Tk.cells]. apply on_range_items. intros c. reflexivity.
Qed.

(** The handler of [<<Modified>>] only tags. *)
Lemma buffer_on_text_modified :
  forall s, buffer (run on_text_modified s) = buffer s.
Proof.
  intros s. rewrite !buffer_chars.
  apply (@preserves_run
           (fun s' => Tk.chars (Tk.cells (text_area s'))
                      = Tk.chars (Tk.cells (text_area s))));
    [|reflexivity].
  unfold on_text_modified, apply_current_formatting.
  repeat step_body; intros s' H; cbn [text_area set_text_area];
    rewrite ?chars_tag_add; exact H.
Qed.

(** The cursor position that [insert_image] reads is still a position of
    the text once the picture is in. *)
Lemma cursor_before_picture :
  forall w p, TkFacts.inside w ->
    Tk.insert_mark w < Tk.END (Tk.image_create w (Tk.insert_mark w) p).
Proof.
  intros w p H. unfold Tk.END, Tk.image_create. cbn [Tk.cells].
  rewrite TkFacts.length_splice. unfold TkFacts.inside, Tk.END in H.
  simpl. lia.
Qed.

(** C1, as the code runs: inserting an image, from a file or from the
    clipboard, leaves the characters of the editor exactly as they were.
    The marker is written at the cursor and deleted by the next statement,
    so the text that [save_note] reads holds no marker for the new
    image. *)
Theorem inserting_an_image_leaves_no_marker :
  forall s,
    reachable s ->
    (forall chosen, buffer (handle (InsertImage chosen) s) = buffer s) /\
    (forall img clip,
        buffer (handle (ControlV (Some img) clip) s) = buffer s).
Proof.
  intros s Hr. pose proof (reachable_sound Hr) as (Hs & _). split.
  - intros chosen. unfold handle. rewrite buffer_on_text_modified.
    cbn [command]. destruct chosen as [file|]; [|reflexivity].
    unfold run, insert_image, try_except. cbn [snd].
    destruct (Image_open file) as [img|]; [|reflexivity].
    cbn [or_raise]. exec.
    rewrite (@bind_returned _ _ _ _ _ _ _ (fresh_image_id_result s)).
    unfold keep_reference. exec.
    cbn [text_area set_image_references set_image_counter].
    set (s1 := set_text_area _ _).
    assert (B1 : buffer s1 = buffer s).
    { rewrite !buffer_chars. unfold s1. cbn [text_area set_text_area].
      apply chars_image_create. }
    assert (I1 : Tk.insert_mark (text_area s) < Tk.END (text_area s1)).
    { unfold s1. cbn [text_area set_text_area].
      apply cursor_before_picture. exact Hs. }
    destruct (store_image_outcome (Py.str (image_counter s)) (JB64 file) s1)
      as [[d E]|[e E]].
    + match goal with
      | |- context [bind ?c ?k ?x] => rewrite (@bind_returned _ _ c k x _ _ E)
      end.
      destruct (insert_and_delete_marker_result
                  (Tk.insert_mark (text_area s)) (Py.str (image_counter s))
                  (set_images_data d s1)) as (w & Ew & Hw).
      match goal with
      | |- context [bind ?c ?k ?x] => rewrite (@bind_returned _ _ c k x _ _ Ew)
      end.
      cbn [animate_status_bar update snd].
      rewrite <- B1, !buffer_chars.
      cbn [text_area set_status_bar set_text_area]. f_equal.
      apply Hw. exact I1.
    + match goal with
      | |- context [bind ?c ?k ?x] => rewrite (@bind_raised _ _ c k x _ _ E)
      end.
      exact B1.
  - intros img clip. unfold handle. rewrite buffer_on_text_modified.
    cbn [command]. unfold run, paste_from_clipboard, try_except. cbn [snd].
    exec. rewrite (@bind_returned _ _ _ _ _ _ _ (fresh_image_id_result s)).
    unfold keep_reference. exec.
    cbn [text_area set_image_references set_image_counter].
    set (s1 := set_text_area _ _).
    assert (B1 : buffer s1 = buffer s).
    { rewrite !buffer_chars. unfold s1. cbn [text_area set_text_area].
      apply chars_image_create. }
    assert (I1 : Tk.insert_mark (text_area s) < Tk.END (text_area s1)).
    { unfold s1. cbn [text_area set_text_area].
      apply cursor_before_picture. exact Hs. }
    destruct (insert_and_delete_marker_result
                (Tk.insert_mark (text_area s)) (Py.str (image_counter s)) s1)
      as (w & Ew & Hw).
    match goal with
    | |- context [bind ?c ?k ?x] => rewrite (@bind_returned _ _ c k x _ _ Ew)
    end.
    assert (B2 : buffer (set_text_area w s1) = buffer s).
    { rewrite <- B1, !buffer_chars. cbn [text_area set_text_area]. f_equal.
      apply Hw. exact I1. }
    destruct (store_image_outcome (Py.str (image_counter s))
                (JB64 (save_png (resize_if_large img))) (set_text_area w s1))
      as [[d E]|[e E]].
    + match goal with
      | |- context [bind ?c ?k ?x] => rewrite (@bind_returned _ _ c k x _ _ E)
      end.
      cbn [animate_status_bar update snd].
      rewrite <- B2, !buffer_chars. reflexivity.
    + match goal with
      | |- context [bind ?c ?k ?x] => rewrite (@bind_raised _ _ c k x _ _ E)
      end.
      exact B2.
Qed.

Lemma inserting_an_image_leaves_no_marker_witness :
  buffer (handle (InsertImage (Some (ImageBytes "PNG" (Pixels "cat" 40 30))))
            (handle MenuNew (init (Database [] []) [])))
  = buffer (handle MenuNew (init (Database [] []) [])) /\
  Tk.search
    (text_area
       (handle (InsertImage (Some (ImageBytes "PNG" (Pixels "cat" 40 30))))
          (handle MenuNew (init (Database [] []) []))))
    (marker "0") 0
  = None.
Proof.
  split; [|vm_compute; reflexivity].
  exact (proj1 (@inserting_an_image_leaves_no_marker
                  (handle MenuNew (init (Database [] []) []))
                  (reach_step MenuNew (reach_init (Database [] []) [])))
               (Some (ImageBytes "PNG" (Pixels "cat" 40 30)))).
Defined.

(** ** The formatter of typed text *)

(** [tag_add] when [b] holds. *)
Definition tag_when (b : bool) (t : string) (i j : nat) (w : Tk.text)
  : Tk.text :=
  if b then Tk.tag_add w t i j else w.

(** The widget after [apply_current_formatting]. *)
Definition formatted (cf : format) (st : settings_dict) (i j : nat)
  (w : Tk.text) : Tk.text :=
  tag_when (negb (String.eqb (fmt_font_family cf) (font_family st)))
    (family_tag (fmt_font_family cf)) i j
    (tag_when (negb (fmt_font_size cf =? font_size st)%Z)
       (size_tag (fmt_font_size cf)) i j
       (tag_when (underline cf) "underline" i j
          (tag_when (italic cf) "italic" i j
             (tag_when (bold cf) "bold" i j w)))).

Lemma apply_current_formatting_result :
  forall i j s,
    run (apply_current_formatting i j) s
    = set_text_area (formatted (current_format s) (settings s) i j
                       (text_area s)) s.
Proof.
  intros i j s. unfold run, apply_current_formatting, formatted, tag_when.
  exec.
  destruct s as [st id imgs n fd ons at_ cf w irefs trefs sb dk fams nf].
  cbn [current_format settings text_area].
  destruct (bold cf), (italic cf), (underline cf),
    (negb (fmt_font_size cf =? font_size st)%Z),
    (negb (String.eqb (fmt_font_family cf) (font_family st)));
    reflexivity.
Qed.

Lemma END_tag_when :
  forall b t i j w, Tk.END (tag_when b t i j w) = Tk.END w.
Proof.
  intros [|] t i j w; [|reflexivity].
  unfold tag_when, Tk.END, Tk.tag_add, Tk.with_cells. cbn [Tk.cells].
  apply TkFacts.length_on_range.
Qed.

Lemma tag_when_at :
  forall b t i j w p u,
    In u (Tk.tag_names (tag_when b t i j w) p) <->
    In u (Tk.tag_names w p) \/
    (b = true /\ u = t /\ i <= p < j /\ p < Tk.END w).
Proof.
  intros [|] t i j w p u; unfold tag_when.
  - rewrite tag_add_at. intuition auto.
  - intuition discriminate.
Qed.

Lemma tag_when_outside :
  forall b t i j w p,
    ~ (i <= p < j) ->
    Tk.tag_names (tag_when b t i j w) p = Tk.tag_names w p.
Proof.
  intros [|] t i j w p H; [|reflexivity].
  unfold tag_when, Tk.tag_names, Tk.tag_add, Tk.with_cells. cbn [Tk.cells].
  rewrite on_range_nth.
  destruct ((i <=? p) && (p <? j)) eqn:B; [|reflexivity].
  apply andb_prop in B. destruct B as [B1 B2].
  apply Nat.leb_le in B1. apply Nat.ltb_lt in B2. lia.
Qed.

Lemma chars_tag_when :
  forall b t i j w,
    Tk.chars (Tk.cells (tag_when b t i j w)) = Tk.chars (Tk.cells w).
Proof. intros [|] t i j w; [apply chars_tag_add | reflexivity]. Qed.

Lemma cells_tag_when_items :
  forall b t i j w,
    map Tk.item_of (Tk.cells (tag_when b t i j w))
    = map Tk.item_of (Tk.cells w).
Proof.
  intros [|] t i j w; [|reflexivity].
  unfold tag_when, Tk.tag_add, Tk.with_cells. cbn [Tk.cells].
  apply on_range_items.
  intros c. unfold Tk.add_to. destruct (Tk.has_tag t c); reflexivity.
Qed.

Lemma mark_tag_when :
  forall b t i j w,
    Tk.insert_mark (tag_when b t i j w) = Tk.insert_mark w.
Proof. intros [|] t i j w; reflexivity. Qed.

(** The tags a cell has after the formatter has run over [i, j): those
    it had, and inside the range every kind that is on. *)
Lemma formatted_at :
  forall cf st i j w p u,
    In u (Tk.tag_names (formatted cf st i j w) p) <->
    In u (Tk.tag_names w p) \/
    (i <= p < j /\ p < Tk.END w /\
     (bold cf = true /\ u = "bold" \/
      italic cf = true /\ u = "italic" \/
      underline cf = true /\ u = "underline" \/
      fmt_font_size cf <> font_size st /\ u = size_tag (fmt_font_size cf) \/
      fmt_font_family cf <> font_family st /\
      u = family_tag (fmt_font_family cf))).
Proof.
  intros cf st i j w p u. unfold formatted.
  rewrite !tag_when_at, !END_tag_when.
  rewrite negb_true_iff, Z.eqb_neq.
  rewrite negb_true_iff, String.eqb_neq.
  tauto.
Qed.

Lemma formatted_outside :
  forall cf st i j w p,
    ~ (i <= p < j) ->
    Tk.tag_names (formatted cf st i j w) p = Tk.tag_names w p.
Proof.
  intros cf st i j w p H. unfold formatted.
  now rewrite !tag_when_outside by exact H.
Qed.

Lemma items_formatted :
  forall cf st i j w,
    map Tk.item_of (Tk.cells (formatted cf st i j w))
    = map Tk.item_of (Tk.cells w).
Proof.
  intros cf st i j w. unfold formatted. now rewrite !cells_tag_when_items.
Qed.

(** What the handler of [<<Modified>>] leaves: with the flag up and the
    cursor after some cell, the formatter has run over that one cell. *)
Lemma on_text_modified_result :
  forall s,
    let w := text_area s in
    let i := Tk.insert_mark w in
    run on_text_modified s
    = if negb (Tk.modified w) then s
      else set_text_area
             (if i - 1 <? i
              then formatted (current_format s) (settings s) (i - 1) i
                     (set_modified false w)
              else set_modified false w) s.
Proof.
  intros s w i. unfold run, on_text_modified. exec. fold w.
  destruct (negb (Tk.modified w)); [reflexivity|].
  exec. unfold Tk.backward. cbn [text_area set_text_area set_modified
    Tk.insert_mark]. fold w. fold i.
  destruct (i - 1 <? i); unfold when.
  - change (snd (?c ?x)) with (run c x).
    rewrite apply_current_formatting_result.
    destruct s; reflexivity.
  - reflexivity.
Qed.

(** Text put in at the cursor: the cursor ends behind it, the flag is up,
    and the text stands in front of the cursor. *)
Lemma insert_at_cursor :
  forall w t,
    TkFacts.inside w -> t <> "" ->
    let w' := Tk.insert w (Tk.insert_mark w) t in
    Tk.insert_mark w' = Tk.insert_mark w + String.length t /\
    Tk.modified w' = true /\
    Tk.get w' (Tk.insert_mark w) (Tk.insert_mark w') = t.
Proof.
  intros w t Hin Ht. unfold TkFacts.inside, Tk.END in Hin.
  destruct t as [|a t']; [congruence|].
  unfold Tk.insert, Tk.landing, Tk.END.
  replace (Nat.min (Tk.insert_mark w) (length (Tk.cells w) - 1))
    with (Tk.insert_mark w) by lia.
  cbn [Tk.insert_mark Tk.modified Tk.cells].
  unfold Tk.push_mark. rewrite Nat.leb_refl.
  split; [reflexivity|]. split; [reflexivity|].
  unfold Tk.get, Tk.splice.
  set (m := Tk.insert_mark w). set (n := String.length (String a t')).
  replace (m + n - m) with n by lia. cbn [Tk.cells].
  rewrite skipn_app, length_firstn.
  replace (Nat.min m (length (Tk.cells w))) with m by lia.
  rewrite Nat.sub_diag, skipn_O.
  rewrite skipn_all2 by (rewrite length_firstn; lia).
  rewrite app_nil_l, firstn_app, !length_map, TkFacts.length_chars.
  fold n. rewrite Nat.sub_diag, firstn_O, app_nil_r.
  rewrite firstn_all2 by (rewrite !length_map, TkFacts.length_chars; fold n; lia).
  generalize (Tk.inherited (Tk.cells w) m). intros tags.
  generalize (String a t'). clear. intros t.
  induction t as [|b r IH]; simpl; [reflexivity | now rewrite IH].
Qed.

Lemma inside_type_text_key :
  forall c w,
    TkFacts.inside w ->
    let w' := type_text (String c EmptyString) w in
    Tk.modified w' = true /\ 0 < Tk.insert_mark w' /\
    Tk.get w' (Tk.insert_mark w' - 1) (Tk.insert_mark w')
    = String c EmptyString.
Proof.
  intros c w H. unfold type_text.
  set (w0 := match cursor_in_selection w with
             | Some (a, b) => Tk.delete w a b
             | None => w
             end).
  assert (H0 : TkFacts.inside w0).
  { unfold w0. destruct (cursor_in_selection w) as [[a b]|];
      [apply TkFacts.inside_delete|]; exact H. }
  destruct (@insert_at_cursor w0 (String c EmptyString) H0) as (E1 & E2 & E3);
    [discriminate|].
  cbv zeta. rewrite E1 in *. cbn [String.length] in *.
  split; [exact E2|]. split; [lia|].
  replace (Tk.insert_mark w0 + 1 - 1) with (Tk.insert_mark w0) by lia.
  exact E3.
Qed.

Lemma get_items :
  forall a b i j,
    map Tk.item_of (Tk.cells a) = map Tk.item_of (Tk.cells b) ->
    Tk.get a i j = Tk.get b i j.
Proof.
  intros a b i j H. unfold Tk.get. apply chars_items.
  rewrite <- !firstn_map, <- !skipn_map. now rewrite H.
Qed.

(** Text put in at the cursor carries the tags that the cells on both its
    sides share, on every one of its characters. *)
Lemma insert_tags :
  forall w t k,
    TkFacts.inside w -> k < String.length t ->
    Tk.tag_names (Tk.insert w (Tk.insert_mark w) t) (Tk.insert_mark w + k)
    = Tk.inherited (Tk.cells w) (Tk.insert_mark w).
Proof.
  intros w t k Hin Hk. unfold TkFacts.inside, Tk.END in Hin.
  destruct t as [|a t']; [simpl in Hk; lia|].
  unfold Tk.insert, Tk.landing, Tk.END, Tk.tag_names.
  replace (Nat.min (Tk.insert_mark w) (length (Tk.cells w) - 1))
    with (Tk.insert_mark w) by lia.
  cbn [Tk.cells]. unfold Tk.splice.
  set (m := Tk.insert_mark w) in *.
  rewrite nth_error_app2 by (rewrite length_firstn; lia).
  rewrite length_firstn.
  replace (m + k - Nat.min m (length (Tk.cells w))) with k by lia.
  rewrite nth_error_app1
    by (rewrite !length_map, TkFacts.length_chars; exact Hk).
  rewrite !nth_error_map.
  destruct (nth_error (list_ascii_of_string (String a t')) k) eqn:E;
    [reflexivity|].
  apply nth_error_None in E. rewrite TkFacts.length_chars in E. lia.
Qed.

(** What [paste_from_clipboard] does with a text on the clipboard. *)
Lemma paste_text_result :
  forall t s,
    run (paste_from_clipboard None (Some t)) s
    = set_text_area
        (Tk.insert (text_area s) (Tk.insert_mark (text_area s)) t) s.
Proof. intros t s. reflexivity. Qed.



(** ** The image counter *)

(** What the comprehension of line 1392 gives the counter: one more than
    the largest number among the keys, 0 standing for the largest when no
    key is a number; [None] when [int] raises on a key. *)
Definition counter_of (keys : list string) : option Z :=
  option_map (fun ids => (Py.max_default ids 0 + 1)%Z) (numeric_ids keys).

(** What [load_images] leaves in the counter that [open_note_by_id] has
    just set to 0: where line 1392 raises, the counter is not assigned. *)
Lemma counter_load_images :
  forall c s,
    image_counter s = 0%Z ->
    image_counter (run (load_images c) s)
    = match json_loads c with
      | Some (JDict (p :: d)) =>
          match counter_of (Py.keys (p :: d)) with
          | Some n => n
          | None => 0%Z
          end
      | _ => 0%Z
      end.
Proof.
  intros c s Hs.
  set (zero := fun s : world => image_counter s = 0%Z).
  assert (Z0 : forall x, triple zero x (fun _ : unit => zero) zero ->
                         image_counter (run x s) = 0%Z).
  { intros x H. specialize (H s Hs). unfold run.
    destruct (x s) as [[a|e] s']; exact H. }
  assert (Hplace : forall fuel id data start,
             preserves zero (place_image fuel id data start)).
  { induction fuel as [|fuel IH]; intros id data start; simpl;
      repeat step_body; try (intros ? H; exact H). apply IH. }
  destruct c as [|t|j]; cbn [json_loads].
  - apply Z0. unfold load_images. cbn [worth_loading when].
    apply triple_ret. auto.
  - apply Z0. unfold load_images. cbn [worth_loading].
    destruct (Py.nonempty t); cbn [when]; [|apply triple_ret; auto].
    apply triple_try_except. cbn [json_loads or_raise]. bind_ret. auto.
  - assert (Hother :
             (forall d, j <> JDict d) ->
             image_counter (run (load_images (Dumped j)) s) = 0%Z).
    { intros Hj. apply Z0. unfold load_images.
      destruct (worth_loading (Dumped j)); cbn [when];
        [|apply triple_ret; auto].
      apply triple_try_except. cbn [json_loads or_raise]. bind_ret.
      eapply triple_bind;
        [apply triple_update with (Q := zero); unfold zero; auto|].
      intros ?. destruct j; unfold items; try (bind_ret; auto).
      destruct (Hj d eq_refl). }
    destruct j as [| | | | | |d]; try (apply Hother; intros ?; discriminate).
    destruct d as [|p d].
    + apply Z0. unfold load_images. cbn [worth_loading when].
      apply triple_ret. auto.
    + unfold counter_of.
      destruct (numeric_ids (Py.keys (p :: d))) as [ids|] eqn:E;
        cbn [option_map].
      * unfold run, load_images. cbn [worth_loading when try_except snd].
        cbn [json_loads or_raise]. exec. unfold items. exec.
        assert (R : returns
                      (for_each (p :: d)
                         (fun '(img_id, img_data) =>
                            try_except
                              (w <- read text_area ;;
                               place_image (S (Tk.END w)) img_id img_data 0)))).
        { clear. generalize (p :: d). intros l.
          induction l as [|[a b] r IH]; cbn [for_each].
          - apply returns_ret.
          - apply returns_bind; [apply returns_try_except | intros _; exact IH]. }
        destruct (R (set_images_data (JDict (p :: d)) s)) as [a Ha].
        unfold bind at 1. revert Ha.
        destruct (for_each (p :: d) _ (set_images_data (JDict (p :: d)) s))
          as [[[]|e] s1]; cbn [fst]; intros Ha; [|discriminate Ha].
        cbn [truthy when]. unfold Py.keys in E. rewrite E.
        cbn [or_raise]. exec. reflexivity.
      * apply Z0. unfold load_images. cbn [worth_loading when].
        apply triple_try_except. cbn [json_loads or_raise]. bind_ret.
        eapply triple_bind;
          [apply triple_update with (Q := zero); unfold zero; auto|].
        intros ?. unfold items. bind_ret.
        eapply triple_bind.
        { apply triple_for_each. intros [img_id img_data].
          apply triple_try_except, preserves_triple, preserves_bind;
            [apply preserves_read | intros w; apply Hplace]. }
        intros ?. cbv beta. cbn [truthy when].
        unfold Py.keys in E. rewrite E. unfold or_raise. bind_ret. auto.
Qed.

Lemma returns_load_images : forall c, returns (load_images c).
Proof. intros c. unfold load_images. repeat step_returns. Qed.

Lemma counter_open_note_by_id :
  forall id row s,
    get_note_content id (disk s) = Some row ->
    image_counter (run (open_note_by_id id) s)
    = match json_loads (images row) with
      | Some (JDict (p :: d)) =>
          match counter_of (Py.keys (p :: d)) with
          | Some n => n
          | None => 0%Z
          end
      | _ => 0%Z
      end.
Proof.
  intros id row s Hrow.
  assert (G : exists s5,
             image_counter s5 = 0%Z /\
             image_counter (run (open_note_by_id id) s)
             = image_counter (run (load_images (images row)) s5)).
  { unfold run at 1, open_note_by_id. exec.
    cbn [disk set_current_note_id]. rewrite Hrow. exec.
    match goal with
    | |- context [bind (load_images ?c) ?k ?x] =>
        destruct (@run_bind _ _ (load_images c) k x (returns_load_images c))
          as [a Ea];
        change (snd (bind (load_images c) k x))
          with (run (bind (load_images c) k) x);
        rewrite Ea; exists x; split; [reflexivity|];
        apply (@preserves_run
                 (fun s' => image_counter s'
                            = image_counter (run (load_images c) x)));
        [|reflexivity]
    end.
    repeat step_body; try (intros ? H; exact H).
    apply blind_load_formatting; intros; assumption. }
  destruct G as (s5 & H0 & ->).
  apply counter_load_images. exact H0.
Qed.

Lemma isdigit_str : forall z, (0 <= z)%Z -> Py.isdigit (Py.str z) = true.
Proof.
  intros z Hz.
  assert (D : forall d, forallb Py.is_digit
                          (list_ascii_of_string (NilEmpty.string_of_uint d))
                        = true).
  { induction d; simpl; auto. }
  assert (G : forall n, Py.isdigit (Py.digits n) = true).
  { intros n. unfold Py.digits, NilZero.string_of_uint.
    destruct (Nat.to_uint n) as [|d|d|d|d|d|d|d|d|d|d]; try reflexivity;
      unfold Py.isdigit; cbn [NilEmpty.string_of_uint];
      cbn [list_ascii_of_string forallb]; rewrite D; reflexivity. }
  unfold Py.str. destruct z; try apply G. lia.
Qed.

(** The id that the next image gets is the key of no stored image. *)
Lemma next_id_is_new :
  forall d n,
    numbered (JDict d) n -> decimal_keys d -> ~ In (Py.str n) (Py.keys d).
Proof.
  intros d n [Hn H] Hdec Hin.
  specialize (H d (Py.str n) n eq_refl Hdec Hin (isdigit_str Hn)
                (PyFacts.int_str Hn)).
  lia.
Qed.

(** The keys that the application makes are decimal. *)
Lemma decimal_keys_set_str :
  forall n v d,
    (0 <= n)%Z -> decimal_keys d -> decimal_keys (Py.set (Py.str n) v d).
Proof.
  intros n v d Hn H k Hk D. apply keys_set in Hk. destruct Hk as [->|Hk].
  - rewrite PyFacts.int_str by exact Hn. discriminate.
  - exact (H k Hk D).
Qed.

Lemma counter_on_text_modified :
  forall s, image_counter (run on_text_modified s) = image_counter s.
Proof.
  intros s. rewrite on_text_modified_result.
  destruct (negb _); reflexivity.
Qed.

Lemma counter_insert_image :
  forall file img s,
    Image_open file = Some img ->
    image_counter (run (insert_image (Some file)) s)
    = (image_counter s + 1)%Z.
Proof.
  intros file img s H. unfold run, insert_image, try_except. cbn [snd].
  rewrite H. cbn [or_raise]. exec.
  rewrite (@bind_returned _ _ _ _ _ _ _ (fresh_image_id_result s)).
  match goal with
  | |- image_counter (snd (?c ?x)) = _ =>
      change (image_counter (snd (c x))) with (image_counter (run c x));
      apply (@preserves_run
               (fun s' => image_counter s' = (image_counter s + 1)%Z));
      [|reflexivity]
  end.
  unfold keep_reference, store_image, setitem, insert_and_delete_marker.
  repeat step_body; intros ? E; exact E.
Qed.




(** ** Loading a note whose formatting does not load *)

(** No cell carries a tag. *)
Definition untagged (w : Tk.text) : Prop :=
  Forall (fun c => Tk.tags_of c = []) (Tk.cells w).

Lemma Forall_firstn_cells :
  forall (A : Type) (P : A -> Prop) n l, Forall P l -> Forall P (firstn n l).
Proof.
  intros A P n l H. revert n. induction H as [|x l Hx Hl IH]; intros [|n];
    simpl; constructor; auto.
Qed.

Lemma Forall_skipn_cells :
  forall (A : Type) (P : A -> Prop) n l, Forall P l -> Forall P (skipn n l).
Proof.
  intros A P n l H. revert n. induction H as [|x l Hx Hl IH]; intros [|n];
    simpl; auto.
Qed.

Lemma untagged_clean_last :
  forall cs, Forall (fun c => Tk.tags_of c = []) cs ->
             Forall (fun c => Tk.tags_of c = []) (Tk.clean_last cs).
Proof.
  intros cs H. induction H as [|c r Hc Hr IH]; simpl; [constructor|].
  destruct r; constructor; auto.
Qed.

Lemma untagged_splice :
  forall cs p new,
    Forall (fun c => Tk.tags_of c = []) cs ->
    Forall (fun c => Tk.tags_of c = []) (Tk.splice cs p new).
Proof.
  intros cs p new H. unfold Tk.splice.
  assert (I : Tk.inherited cs p = []).
  { unfold Tk.inherited. destruct p as [|q]; [reflexivity|].
    destruct (nth_error cs q) as [a|] eqn:Ea; [|reflexivity].
    destruct (nth_error cs (S q)) as [b|]; [|reflexivity].
    apply nth_error_In in Ea. rewrite Forall_forall in H.
    rewrite (H a Ea). reflexivity. }
  rewrite I. apply Forall_app. split; [apply Forall_firstn_cells; exact H|].
  apply Forall_app. split; [|apply Forall_skipn_cells; exact H].
  apply Forall_forall. intros c Hc. apply in_map_iff in Hc.
  destruct Hc as (i & <- & _). reflexivity.
Qed.

Lemma untagged_insert :
  forall w i t, untagged w -> untagged (Tk.insert w i t).
Proof.
  intros w i t H. unfold Tk.insert. destruct t; [exact H|].
  unfold untagged. cbn [Tk.cells]. apply untagged_splice. exact H.
Qed.

Lemma untagged_image_create :
  forall w i p, untagged w -> untagged (Tk.image_create w i p).
Proof.
  intros w i p H. unfold untagged, Tk.image_create. cbn [Tk.cells].
  apply untagged_splice. exact H.
Qed.

Lemma untagged_delete :
  forall w i j, untagged w -> untagged (Tk.delete w i j).
Proof.
  intros w i j H. unfold Tk.delete.
  destruct (_ <=? _); [exact H|]. unfold untagged. cbn [Tk.cells].
  apply Forall_app. split;
    [apply Forall_firstn_cells | apply Forall_skipn_cells];
    destruct (_ =? _); try apply untagged_clean_last; exact H.
Qed.

(** [delete("1.0", "end")] leaves the final newline and no tag. *)
Lemma untagged_delete_all : forall w, untagged (Tk.delete w 0 (Tk.END w)).
Proof.
  intros w. unfold Tk.delete, Tk.END, untagged.
  set (cs := Tk.cells w). rewrite Nat.min_0_l, Nat.min_id.
  destruct (length cs <=? 0) eqn:E.
  - apply Nat.leb_le in E. fold cs. destruct cs; [constructor | simpl in E; lia].
  - rewrite Nat.eqb_refl. cbn [andb Nat.ltb Nat.leb Tk.cells firstn app].
    clear E. induction cs as [|c r IH]; [constructor|].
    destruct r as [|c' r']; [repeat constructor|].
    replace (length (c :: c' :: r') - 1) with (S (length (c' :: r') - 1))
      by (simpl; lia).
    change (Tk.clean_last (c :: c' :: r'))
      with (c :: Tk.clean_last (c' :: r')).
    exact IH.
Qed.

Lemma untagged_place_image :
  forall fuel id data start,
    preserves (fun s => untagged (text_area s))
      (place_image fuel id data start).
Proof.
  induction fuel as [|fuel IH]; intros id data start; simpl;
    repeat step_body; try apply IH; intros s H;
    cbn [text_area set_text_area set_image_references]; auto.
  - apply untagged_delete. exact H.
  - apply untagged_image_create. exact H.
Qed.

Lemma untagged_load_images :
  forall c, preserves (fun s => untagged (text_area s)) (load_images c).
Proof.
  intros c. unfold load_images, items.
  repeat step_body; try apply untagged_place_image; intros s H; exact H.
Qed.

(** Formatting that [json.loads] rejects changes nothing at all. *)
Lemma load_formatting_rejected :
  forall c s, json_loads c = None -> run (load_formatting c) s = s.
Proof.
  intros c s H. unfold run, load_formatting.
  destruct (worth_loading c); cbn [when]; [|reflexivity].
  unfold try_except. rewrite H. reflexivity.
Qed.

(** Loading formatting adds tags and changes no character and no
    picture. *)
Lemma items_load_formatting :
  forall c s,
    map Tk.item_of (Tk.cells (text_area (run (load_formatting c) s)))
    = map Tk.item_of (Tk.cells (text_area s)).
Proof.
  intros c s.
  apply (@preserves_run
           (fun s' => map Tk.item_of (Tk.cells (text_area s'))
                      = map Tk.item_of (Tk.cells (text_area s))));
    [|reflexivity].
  assert (T : forall tag a b,
             preserves
               (fun s' => map Tk.item_of (Tk.cells (text_area s'))
                          = map Tk.item_of (Tk.cells (text_area s)))
               (tag_add_loaded tag a b)).
  { intros tag a b. unfold tag_add_loaded, index_arg.
    repeat step_body; intros s' H; cbn [text_area set_text_area];
      rewrite <- H; unfold Tk.tag_add, Tk.with_cells; cbn [Tk.cells];
      apply on_range_items; intros x; unfold Tk.add_to;
      destruct (Tk.has_tag tag x); reflexivity. }
  assert (R : forall tag ranges,
             preserves
               (fun s' => map Tk.item_of (Tk.cells (text_area s'))
                          = map Tk.item_of (Tk.cells (text_area s)))
               (apply_ranges tag ranges)).
  { intros tag ranges. unfold apply_ranges, iterate, unpack_pair.
    repeat step_body; apply T. }
  unfold load_formatting, get_or, items.
  repeat step_body; try apply R; intros s' H; exact H.
Qed.

Lemma styles_untagged :
  forall w q, untagged w -> Tk.tag_names w q = [].
Proof.
  intros w q H. unfold Tk.tag_names.
  destruct (nth_error (Tk.cells w) q) as [c|] eqn:E; [|reflexivity].
  apply nth_error_In in E. unfold untagged in H. rewrite Forall_forall in H.
  auto.
Qed.

(** The editor after the two statements that put in the content. *)
Lemma content_put_in :
  forall w t,
    let w' := Tk.insert (Tk.delete w 0 (Tk.END w)) 0 t in
    Tk.get w' 0 (String.length t) = t /\
    (TkFacts.inside w -> Tk.END w' = String.length t + 1).
Proof.
  intros w t. cbv zeta.
  set (w0 := Tk.delete w 0 (Tk.END w)).
  assert (L : TkFacts.inside w -> Tk.END w0 = 1).
  { unfold w0, TkFacts.inside, Tk.delete, Tk.END. intros H.
    set (n := length (Tk.cells w)) in *. rewrite Nat.min_0_l, Nat.min_id.
    replace (n <=? 0) with false by (symmetry; apply Nat.leb_gt; lia).
    rewrite Nat.eqb_refl. cbn [andb Nat.ltb Nat.leb Tk.cells firstn app].
    rewrite app_nil_l, length_skipn, TkFacts.length_clean_last. fold n. lia. }
  destruct t as [|a t']; [split; [reflexivity | exact L]|].
  unfold Tk.insert, Tk.landing. rewrite Nat.min_0_l.
  unfold Tk.get, Tk.END, Tk.splice. cbn [Tk.cells firstn skipn app].
  rewrite Nat.sub_0_r, app_nil_l. split.
  - rewrite firstn_app, !length_map, TkFacts.length_chars, Nat.sub_diag.
    rewrite firstn_O, app_nil_r.
    rewrite firstn_all2 by (rewrite !length_map, TkFacts.length_chars; lia).
    generalize (Tk.inherited (Tk.cells w0) 0) (String a t'). clear.
    intros tags t. induction t as [|b r IH]; simpl; [reflexivity | now rewrite IH].
  - intros H. rewrite length_app, !length_map, TkFacts.length_chars.
    specialize (L H). unfold Tk.END in L. rewrite L. reflexivity.
Qed.

Lemma returns_load_formatting : forall c, returns (load_formatting c).
Proof. intros c. unfold load_formatting. repeat step_returns. Qed.

(** [open_note_by_id] on a row that is there, one statement after the
    other. *)
Lemma open_note_by_id_result :
  forall id row s,
    get_note_content id (disk s) = Some row ->
    run (open_note_by_id id) s
    = set_status_bar ("Opened note: " ++ title row)
        (run (load_formatting (formatting row))
           (set_formatting_data (JDict [])
              (run (load_images (images row))
                 (set_image_counter 0
                    (set_images_data (JDict [])
                       (reset_format
                          (set_text_area
                             (Tk.insert
                                (Tk.delete (text_area s) 0
                                   (Tk.END (text_area s)))
                                0 (content row))
                             (set_current_note_id id s)))))))).
Proof.
  intros id row s Hrow. unfold run at 1, open_note_by_id. exec.
  cbn [disk set_current_note_id]. rewrite Hrow. exec.
  match goal with
  | |- context [bind (load_images ?c) ?k ?x] =>
      destruct (@run_bind _ _ (load_images c) k x (returns_load_images c))
        as [[] Ea];
      change (snd (bind (load_images c) k x))
        with (run (bind (load_images c) k) x);
      rewrite Ea
  end.
  unfold run at 1. exec.
  match goal with
  | |- context [bind (load_formatting ?c) ?k ?x] =>
      destruct (@run_bind _ _ (load_formatting c) k x
                  (returns_load_formatting c))
        as [[] Eb];
      change (snd (bind (load_formatting c) k x))
        with (run (bind (load_formatting c) k) x);
      rewrite Eb
  end.
  reflexivity.
Qed.

(** C6, as the code runs: a note opens whatever its formatting column
    holds, and the reader sees no error.  Loading formatting changes no
    character and no picture.  Formatting that is not JSON leaves every
    cell without a tag and the formatting of the note empty.  For a row
    without images the editor holds the content of the row and its final
    newline. *)
Theorem a_note_opens_whatever_its_formatting_holds :
  forall s id row,
    reachable s ->
    get_note_content id (disk s) = Some row ->
    let s' := run (open_note_by_id id) s in
    (exists a, fst (open_note_by_id id s) = Returned a) /\
    (forall c s0,
        map Tk.item_of (Tk.cells (text_area (run (load_formatting c) s0)))
        = map Tk.item_of (Tk.cells (text_area s0))) /\
    (json_loads (formatting row) = None ->
     (forall q, styles_at s' q = []) /\ formatting_data s' = JDict []) /\
    (worth_loading (images row) = false ->
     Tk.get (text_area s') 0 (String.length (content row)) = content row /\
     Tk.END (text_area s') = String.length (content row) + 1).
Proof.
  intros s id row Hr Hrow s'.
  pose proof (reachable_sound Hr) as (Hin & _).
  split; [apply returns_open_note_by_id|].
  split; [apply items_load_formatting|].
  assert (E : s' = run (open_note_by_id id) s) by reflexivity.
  rewrite (open_note_by_id_result id s Hrow) in E.
  set (w := Tk.insert (Tk.delete (text_area s) 0 (Tk.END (text_area s))) 0
              (content row)) in E.
  set (s5 := set_image_counter 0 _) in E.
  assert (W : text_area s5 = w) by reflexivity.
  split.
  - intros Hf. rewrite load_formatting_rejected in E by exact Hf.
    split.
    + intros q. unfold styles_at. apply styles_untagged.
      rewrite E. cbn [text_area set_status_bar set_formatting_data].
      apply (@preserves_run (fun s => untagged (text_area s)));
        [apply untagged_load_images|].
      rewrite W. apply untagged_insert, untagged_delete_all.
    + rewrite E. reflexivity.
  - intros Hi.
    assert (L : run (load_images (images row)) s5 = s5).
    { unfold run, load_images. rewrite Hi. reflexivity. }
    rewrite L in E.
    assert (I : map Tk.item_of (Tk.cells (text_area s'))
                = map Tk.item_of (Tk.cells w)).
    { rewrite E. cbn [text_area set_status_bar].
      rewrite items_load_formatting. reflexivity. }
    destruct (content_put_in (text_area s) (content row)) as [G1 G2].
    fold w in G1, G2. split.
    + rewrite (get_items _ _ 0 (String.length (content row)) I). exact G1.
    + rewrite <- (G2 Hin). unfold Tk.END.
      rewrite <- (length_map Tk.item_of (Tk.cells (text_area s'))), I.
      apply length_map.
Qed.

Lemma a_note_opens_whatever_its_formatting_holds_witness :
  Tk.get
    (text_area
       (run (open_note_by_id (Some 1%Z))
          (init (Database [Note 1 "t" "ab" (CURRENT_TIMESTAMP 0) 0 Null (Malformed "not-json")] [])
             [])))
    0 2
  = "ab".
Proof.
  exact (proj1 (proj2 (proj2 (proj2
           (@a_note_opens_whatever_its_formatting_holds
              (init (Database
                       [Note 1 "t" "ab" (CURRENT_TIMESTAMP 0) 0 Null (Malformed "not-json")] [])
                 [])
              (Some 1%Z)
              (Note 1 "t" "ab" (CURRENT_TIMESTAMP 0) 0 Null (Malformed "not-json"))
              (reach_init _ _) eq_refl))) eq_refl)).
Defined.

(** C6 as stated fails for formatting that is JSON of another shape.  The
    loader applies what it reads until a value of the wrong kind stops it:
    with bold ranges in front of a number for italic, the bold range is on
    the text when the note is open. *)
Lemma formatting_of_another_shape_is_applied_in_part :
  styles_at
    (handle (OpenNote 1 "t")
       (init (Database
                [Note 1 "t" "ab" (CURRENT_TIMESTAMP 0) 0 Null
                   (Dumped
                      (JDict
                         [("bold", JList [JList [JStr "1.0"; JStr "1.1"]]);
                          ("italic", JNum 5)]))] [])
          []))
    0
  = ["bold"] /\
  Tk.get
    (text_area
       (handle (OpenNote 1 "t")
          (init (Database
                   [Note 1 "t" "ab" (CURRENT_TIMESTAMP 0) 0 Null
                      (Dumped
                         (JDict
                            [("bold", JList [JList [JStr "1.0"; JStr "1.1"]]);
                             ("italic", JNum 5)]))] [])
             [])))
    0 2
  = "ab".
Proof. vm_compute. split; reflexivity. Qed.

(** ** Invariants of the text widget

    What every operation of the widget keeps, the application keeps: its
    methods reach the text through these operations only. *)

Section Widget.
Variable Q : Tk.text -> Prop.
Hypothesis Q_insert : forall w i t, Q w -> Q (Tk.insert w i t).
Hypothesis Q_delete : forall w i j, Q w -> Q (Tk.delete w i j).
Hypothesis Q_image_create : forall w i p, Q w -> Q (Tk.image_create w i p).
Hypothesis Q_tag_add : forall w t i j, Q w -> Q (Tk.tag_add w t i j).
Hypothesis Q_tag_remove : forall w t i j, Q w -> Q (Tk.tag_remove w t i j).
Hypothesis Q_mark :
  forall w m b f, Q w -> Q (Tk.Text (Tk.cells w) m b f).

Let P (s : world) : Prop := Q (text_area s).

Lemma Q_type_text : forall t w, Q w -> Q (type_text t w).
Proof.
  intros t w H. unfold type_text.
  destruct (cursor_in_selection w) as [[a b]|]; auto.
Qed.

Lemma Q_backspace : forall w, Q w -> Q (backspace w).
Proof.
  intros w H. unfold backspace.
  destruct (cursor_in_selection w) as [[a b]|]; auto.
  destruct (0 <? _); auto.
Qed.

Lemma Q_click : forall p w, Q w -> Q (click p w).
Proof. intros p w H. unfold click, set_cursor. auto. Qed.

Lemma Q_drag : forall i j w, Q w -> Q (drag i j w).
Proof. intros i j w H. unfold drag, set_cursor. auto. Qed.

Ltac widget :=
  repeat step_body;
  lazymatch goal with
  | |- preserves _ _ => idtac
  | _ =>
      unfold P; intros ? ?;
      unfold has_tab, configure_new_font in *;
      unfold_world; fields;
      repeat match goal with
        | |- context [if ?b then _ else _] => destruct b
        | |- context [match ?x with Some _ => _ | None => _ end] =>
            destruct x
        | |- context [let (_, _) := ?x in _] => destruct x
        end;
      fields; auto using Q_type_text, Q_backspace, Q_click, Q_drag
  end.

Lemma widget_apply_current_formatting :
  forall a b, preserves P (apply_current_formatting a b).
Proof. intros. unfold apply_current_formatting. widget. Qed.

Lemma widget_on_text_modified : preserves P on_text_modified.
Proof.
  unfold on_text_modified. widget. apply widget_apply_current_formatting.
Qed.

Lemma widget_place_image :
  forall fuel id data start, preserves P (place_image fuel id data start).
Proof.
  induction fuel as [|fuel IH]; intros id data start; simpl; widget.
  apply IH.
Qed.

Lemma widget_load_images : forall c, preserves P (load_images c).
Proof.
  intros c. unfold load_images, items. widget.
  all: apply widget_place_image.
Qed.

Lemma widget_tag_add_loaded :
  forall tag a b, preserves P (tag_add_loaded tag a b).
Proof. intros. unfold tag_add_loaded, index_arg. widget. Qed.

Lemma widget_apply_ranges :
  forall tag ranges, preserves P (apply_ranges tag ranges).
Proof.
  intros. unfold apply_ranges, iterate, unpack_pair. widget.
  all: apply widget_tag_add_loaded.
Qed.

Lemma widget_load_formatting : forall c, preserves P (load_formatting c).
Proof.
  intros. unfold load_formatting, get_or, items. widget.
  all: apply widget_apply_ranges.
Qed.

Lemma widget_open_note_by_id : forall id, preserves P (open_note_by_id id).
Proof.
  intros id. unfold open_note_by_id. widget.
  - apply widget_load_images.
  - apply widget_load_formatting.
Qed.

Lemma widget_activate_tab : forall id, preserves P (activate_tab id).
Proof.
  intros id. unfold activate_tab. widget. apply widget_open_note_by_id.
Qed.

Lemma widget_add_tab : forall id t, preserves P (add_tab id t).
Proof.
  intros id t. unfold add_tab. widget; apply widget_activate_tab.
Qed.

Lemma widget_close_tab : forall id, preserves P (close_tab id).
Proof.
  intros id. unfold close_tab. widget. apply widget_activate_tab.
Qed.

Lemma widget_save_note : forall asked now, preserves P (save_note asked now).
Proof.
  intros. unfold save_note, save_formatting_data. widget.
  all: try apply widget_add_tab.
  all: try apply widget_close_tab.
Qed.

Lemma widget_delete_note : forall confirm, preserves P (delete_note confirm).
Proof.
  intros. unfold delete_note. widget. apply widget_close_tab.
Qed.

Lemma widget_toggle :
  forall tag flip now_on, preserves P (toggle tag flip now_on).
Proof. intros. unfold toggle. widget. Qed.

Lemma widget_insert_image : forall chosen, preserves P (insert_image chosen).
Proof.
  intros. unfold insert_image, fresh_image_id, keep_reference, store_image,
    setitem, insert_and_delete_marker.
  widget.
Qed.

Lemma widget_paste_from_clipboard :
  forall grabbed clip, preserves P (paste_from_clipboard grabbed clip).
Proof.
  intros. unfold paste_from_clipboard, fresh_image_id, keep_reference,
    store_image, setitem, insert_and_delete_marker.
  widget.
Qed.

Lemma widget_command : forall e, preserves P (command e).
Proof.
  intros [c| |p|i j| |asked now|id t|id|id|confirm| | | |entry|entry
         |chosen|grabbed clip]; simpl command.
  - widget.
  - widget.
  - widget.
  - widget.
  - unfold new_note, show_editor_page. widget. apply widget_add_tab.
  - apply widget_save_note.
  - unfold open_note_in_tab, show_editor_page. widget. apply widget_add_tab.
  - apply widget_activate_tab.
  - apply widget_close_tab.
  - apply widget_delete_note.
  - apply widget_toggle.
  - apply widget_toggle.
  - apply widget_toggle.
  - unfold change_font_size. widget.
  - unfold change_font_family. widget.
  - apply widget_insert_image.
  - apply widget_paste_from_clipboard.
Qed.

(** An invariant of the widget that the empty editor has holds in every
    state of the application. *)
Theorem reachable_widget :
  (forall f, Q (Tk.empty f)) ->
  forall s, reachable s -> Q (text_area s).
Proof.
  intros H0 s H. induction H as [d fonts|s e H IH].
  - apply H0.
  - unfold handle. apply (@preserves_run P); [apply widget_on_text_modified|].
    apply (@preserves_run P); [apply widget_command | exact IH].
Qed.
End Widget.

(** *** The final newline *)

(** The text ends in a newline: the one Tk keeps at the end of every text
    widget. *)
Definition final_newline (w : Tk.text) : Prop :=
  exists cs c, Tk.cells w = cs ++ [c] /\ Tk.item_of c = Tk.Chr Tk.newline.

Lemma firstn_but_last :
  forall (A : Type) p (cs : list A) c,
    p <= length cs -> firstn p (cs ++ [c]) = firstn p cs.
Proof.
  intros A p cs c H. rewrite firstn_app.
  replace (p - length cs) with 0 by lia. simpl. apply app_nil_r.
Qed.

Lemma skipn_but_last :
  forall (A : Type) p (cs : list A) c,
    p <= length cs -> skipn p (cs ++ [c]) = skipn p cs ++ [c].
Proof.
  intros A p cs c H. rewrite skipn_app.
  replace (p - length cs) with 0 by lia. reflexivity.
Qed.

Lemma splice_but_last :
  forall cs c p new,
    p <= length cs ->
    exists cs', Tk.splice (cs ++ [c]) p new = cs' ++ [c].
Proof.
  intros cs c p new H. unfold Tk.splice.
  rewrite firstn_but_last, skipn_but_last by exact H.
  eexists. rewrite !app_assoc. reflexivity.
Qed.

Lemma clean_last_but_last :
  forall cs c, Tk.clean_last (cs ++ [c]) = cs ++ [Tk.strip_tags c].
Proof.
  induction cs as [|x r IH]; intros c; [reflexivity|].
  change ((x :: r) ++ [c]) with (x :: (r ++ [c])).
  cbn [Tk.clean_last]. rewrite IH.
  destruct r; reflexivity.
Qed.

Lemma on_range_but_last :
  forall f cs c i j,
    (forall x, Tk.item_of (f x) = Tk.item_of x) ->
    exists c',
      Tk.on_range f i j (cs ++ [c]) = Tk.on_range f i j cs ++ [c'] /\
      Tk.item_of c' = Tk.item_of c.
Proof.
  intros f cs c i j Hf. revert i j.
  induction cs as [|x r IH]; intros i j.
  - destruct j as [|j']; [exists c; split; reflexivity|].
    destruct i as [|i'].
    + exists (f c). split; [reflexivity | apply Hf].
    + exists c. split; reflexivity.
  - change ((x :: r) ++ [c]) with (x :: (r ++ [c])).
    destruct j as [|j']; [exists c; split; reflexivity|].
    destruct i as [|i']; cbn [Tk.on_range].
    + destruct (IH 0 j') as (c' & E & Hc). rewrite E. exists c'. split; auto.
    + destruct (IH i' j') as (c' & E & Hc). rewrite E. exists c'. split; auto.
Qed.

Lemma final_newline_insert :
  forall w i t, final_newline w -> final_newline (Tk.insert w i t).
Proof.
  intros w i t (cs & c & E & Hc). unfold Tk.insert.
  destruct t as [|a t']; [exists cs, c; auto|].
  unfold final_newline, Tk.landing, Tk.END. cbn [Tk.cells]. rewrite E.
  destruct (@splice_but_last cs c (Nat.min i (length (cs ++ [c]) - 1))
              (map Tk.Chr (list_ascii_of_string (String a t')))) as [cs' E'].
  { rewrite length_app. simpl. lia. }
  exists cs', c. split; [exact E' | exact Hc].
Qed.

Lemma final_newline_image_create :
  forall w i p, final_newline w -> final_newline (Tk.image_create w i p).
Proof.
  intros w i p (cs & c & E & Hc).
  unfold final_newline, Tk.image_create, Tk.landing, Tk.END.
  cbn [Tk.cells]. rewrite E.
  destruct (@splice_but_last cs c (Nat.min i (length (cs ++ [c]) - 1))
              [Tk.Pic p]) as [cs' E'].
  { rewrite length_app. simpl. lia. }
  exists cs', c. split; [exact E' | exact Hc].
Qed.

Lemma final_newline_delete :
  forall w i j, final_newline w -> final_newline (Tk.delete w i j).
Proof.
  intros w i j (cs & c & E & Hc). unfold Tk.delete, Tk.END.
  set (n := length (Tk.cells w)).
  assert (Hn : n = length cs + 1) by (unfold n; rewrite E, length_app; reflexivity).
  destruct (Nat.min j n <=? Nat.min i n) eqn:L; [exists cs, c; auto|].
  unfold final_newline. cbn [Tk.cells].
  set (to_end := Nat.min j n =? n).
  set (j' := if to_end then n - 1 else Nat.min j n).
  match goal with
  | |- context [firstn ?x _] => generalize x
  end.
  intros i'.
  assert (Hj : j' <= length cs).
  { unfold j', to_end. destruct (Nat.min j n =? n) eqn:E2; [lia|].
    apply Nat.eqb_neq in E2. lia. }
  assert (X : exists c', (if to_end then Tk.clean_last (Tk.cells w)
                          else Tk.cells w) = cs ++ [c'] /\
                         Tk.item_of c' = Tk.Chr Tk.newline).
  { destruct to_end.
    - rewrite E, clean_last_but_last. eexists. split; [reflexivity | exact Hc].
    - exists c. auto. }
  destruct X as (c' & -> & Hc').
  rewrite skipn_but_last by exact Hj.
  exists (firstn i' (cs ++ [c']) ++ skipn j' cs), c'.
  split; [apply app_assoc | exact Hc'].
Qed.

Lemma final_newline_tag_add :
  forall w t i j, final_newline w -> final_newline (Tk.tag_add w t i j).
Proof.
  intros w t i j (cs & c & E & Hc).
  unfold final_newline, Tk.tag_add, Tk.with_cells. cbn [Tk.cells]. rewrite E.
  destruct (@on_range_but_last (Tk.add_to t) cs c i j) as (c' & E' & Hc').
  { intros x. unfold Tk.add_to. destruct (Tk.has_tag t x); reflexivity. }
  rewrite E'. eexists _, c'. split; [reflexivity | congruence].
Qed.

Lemma final_newline_tag_remove :
  forall w t i j, final_newline w -> final_newline (Tk.tag_remove w t i j).
Proof.
  intros w t i j (cs & c & E & Hc).
  unfold final_newline, Tk.tag_remove, Tk.with_cells. cbn [Tk.cells].
  rewrite E.
  destruct (@on_range_but_last (Tk.remove_from t) cs c i j) as (c' & E' & Hc').
  { intros x. reflexivity. }
  rewrite E'. eexists _, c'. split; [reflexivity | congruence].
Qed.

(** In every state of the application the text of the editor ends in a
    newline. *)
Lemma reachable_final_newline :
  forall s, reachable s -> final_newline (text_area s).
Proof.
  apply reachable_widget.
  - apply final_newline_insert.
  - apply final_newline_delete.
  - apply final_newline_image_create.
  - apply final_newline_tag_add.
  - apply final_newline_tag_remove.
  - intros w m b f H. exact H.
  - intros f. exists [], (Tk.Cell (Tk.Chr Tk.newline) []). split; reflexivity.
Qed.

(** ** Saving a note and opening it again *)

(** What the loader puts in the editor for the content [t]. *)
Lemma content_loaded :
  forall w t,
    final_newline w ->
    Tk.cells (Tk.insert (Tk.delete w 0 (Tk.END w)) 0 t)
    = map (fun a => Tk.Cell (Tk.Chr a) []) (list_ascii_of_string t)
      ++ [Tk.Cell (Tk.Chr Tk.newline) []].
Proof.
  intros w t (cs & c & E & Hc).
  assert (D : Tk.cells (Tk.delete w 0 (Tk.END w))
              = [Tk.Cell (Tk.Chr Tk.newline) []]).
  { unfold Tk.delete, Tk.END. rewrite Nat.min_0_l, Nat.min_id.
    replace (length (Tk.cells w) <=? 0) with false
      by (symmetry; apply Nat.leb_gt; rewrite E, length_app; simpl; lia).
    rewrite Nat.eqb_refl. cbn [andb Nat.ltb Nat.leb Tk.cells firstn app].
    rewrite E, clean_last_but_last, length_app. cbn [length].
    replace (length cs + 1 - 1) with (length cs) by lia.
    rewrite skipn_but_last by lia. rewrite skipn_all. cbn [app].
    unfold Tk.strip_tags. rewrite Hc. reflexivity. }
  unfold Tk.insert. destruct t as [|a t']; [exact D|].
  unfold Tk.landing. rewrite Nat.min_0_l. cbn [Tk.cells].
  unfold Tk.splice. rewrite D. cbn [firstn skipn app Tk.inherited].
  rewrite map_map. reflexivity.
Qed.

Lemma chars_typed :
  forall t tags,
    Tk.chars (map (fun a => Tk.Cell (Tk.Chr a) tags) (list_ascii_of_string t)
              ++ [Tk.Cell (Tk.Chr Tk.newline) []])
    = (t ++ String Tk.newline EmptyString)%string.
Proof.
  intros t tags. induction t as [|a r IH]; simpl; [reflexivity|].
  now rewrite IH.
Qed.

(** A row without images, opened: the editor holds the content and one
    more newline. *)
Lemma buffer_open_note_by_id :
  forall s id row,
    final_newline (text_area s) ->
    get_note_content id (disk s) = Some row ->
    worth_loading (images row) = false ->
    buffer (run (open_note_by_id id) s)
    = (content row ++ String Tk.newline EmptyString)%string.
Proof.
  intros s id row Hn Hrow Hi.
  rewrite (open_note_by_id_result id s Hrow).
  set (s5 := set_image_counter 0 _).
  assert (L : run (load_images (images row)) s5 = s5).
  { unfold run, load_images. rewrite Hi. reflexivity. }
  rewrite L, buffer_chars. cbn [text_area set_status_bar].
  rewrite (chars_items _ _ (items_load_formatting (formatting row) _)).
  cbn [text_area set_formatting_data]. unfold s5.
  cbn [text_area set_image_counter set_images_data].
  unfold reset_format. cbn [text_area set_current_format set_text_area].
  rewrite content_loaded by exact Hn. apply chars_typed.
Qed.

Lemma next_rowid_above :
  forall ids z, In z ids -> (z < Sqlite.next_rowid ids)%Z.
Proof.
  intros ids z H. unfold Sqlite.next_rowid.
  induction ids as [|x r IH]; [destruct H|].
  cbn [fold_right]. destruct H as [<-|H]; [lia|]. specialize (IH H). lia.
Qed.

(** The row a first save appends is the one found under its id. *)
Lemma appended_row_is_found :
  forall d t body now img fmt,
    let d' := Sqlite.close
                (Sqlite.insert_note (Sqlite.connect d) t body now img fmt) in
    let r := Note (Sqlite.next_rowid (map note_id (notes d)))
               t body (CURRENT_TIMESTAMP now) now img fmt in
    notes d' = notes d ++ [r] /\
    get_note_content (Some (note_id r)) d' = Some r.
Proof.
  intros d t body now img fmt d' r. split; [reflexivity|].
  unfold get_note_content, d', Sqlite.close, Sqlite.insert_note,
    Sqlite.connect. cbn [Sqlite.store notes note_id r].
  assert (G : forall l, (forall x, In x l ->
                           (note_id x
                            < Sqlite.next_rowid (map note_id (notes d)))%Z) ->
              find (fun x => (note_id x
                              =? Sqlite.next_rowid (map note_id (notes d)))%Z)
                   (l ++ [r]) = Some r).
  { induction l as [|x l IH]; intros H.
    - simpl. unfold r at 1. cbn [note_id]. rewrite Z.eqb_refl. reflexivity.
    - simpl. replace (_ =? _)%Z with false.
      + apply IH. intros y Hy. apply H. right. exact Hy.
      + symmetry. apply Z.eqb_neq. specialize (H x (or_introl eq_refl)). lia. }
  apply G. intros x Hx. apply next_rowid_above. apply in_map. exact Hx.
Qed.

(** The database after a first save. *)
Lemma disk_first_save :
  forall s t now,
    reachable s ->
    current_note_id s = None ->
    Py.strip (buffer s) <> "" ->
    t <> "" ->
    disk (run (save_note (Some t) now) s)
    = save_note_to_db t (buffer s) (images_data s)
        (formatting_data (run save_formatting_data s)) now (disk s).
Proof.
  intros s t now Hr Hid Hbody Ht.
  set (s1 := run save_formatting_data s).
  unfold run at 1, save_note. exec. fold (buffer s).
  destruct (Py.strip (buffer s)) eqn:Eb; [contradiction|].
  cbn [negb Py.nonempty]. cbv iota. destruct t as [|c t']; [contradiction|].
  match goal with
  | |- context [bind save_formatting_data ?k s] =>
      change (bind save_formatting_data k s) with (k tt s1); cbv beta
  end.
  exec. change (current_note_id s1) with (current_note_id s).
  rewrite Hid. exec.
  match goal with
  | |- disk (snd (?c ?x)) = ?D =>
      change (disk (snd (c x))) with (disk (run c x));
      apply (@preserves_run (fun s' => disk s' = D)); [|reflexivity]
  end.
  repeat step_body; auto;
    try apply disk_add_tab; try apply disk_close_tab.
Qed.

Lemma disk_on_text_modified :
  forall s, disk (run on_text_modified s) = disk s.
Proof.
  intros s. rewrite on_text_modified_result. destruct (negb _); reflexivity.
Qed.

(** C2, as the code runs: a note that is saved and opened again is not
    the note that was saved.  [save_note] stores everything that
    [get("1.0", "end")] reads, the final newline of the widget included,
    and the loader puts the stored text in front of the final newline of
    the editor: the text comes back one newline longer.  This holds for
    every note without pictures that is saved for the first time.  With a
    picture, the picture does not come back, no marker having been
    stored, and the tags land on other characters: of [a], a picture and
    a bold [b], the note opened again has no picture and a [b] that is
    not bold. *)
Theorem a_saved_note_comes_back_changed :
  forall s t now,
    reachable s ->
    current_note_id s = None ->
    Py.strip (buffer s) <> "" ->
    t <> "" ->
    images_data s = JDict [] ->
    let s1 := handle (MenuSave (Some t) now) s in
    (exists r,
        notes (disk s1) = notes (disk s) ++ [r] /\
        content r = buffer s /\
        get_note_content (Some (note_id r)) (disk s1) = Some r /\
        buffer (run (open_note_by_id (Some (note_id r))) s1)
        = (buffer s ++ String Tk.newline EmptyString)%string) /\
    (forall p,
        let before :=
          play [MenuNew; Key "a"; InsertImage (Some (ImageBytes "PNG" p));
                Bold; Key "b"] (init (Database [] []) []) in
        let after :=
          play [MenuSave (Some "t") now; OpenNote 1 "t"] before in
        map Tk.item_of (Tk.cells (text_area before))
        = [Tk.Chr "a"; Tk.Pic (resize_if_large p); Tk.Chr "b";
           Tk.Chr Tk.newline] /\
        styles_at before 2 = ["bold"] /\
        map Tk.item_of (Tk.cells (text_area after))
        = [Tk.Chr "a"; Tk.Chr "b"; Tk.Chr Tk.newline; Tk.Chr Tk.newline] /\
        styles_at after 1 = []).
Proof.
  intros s t now Hr Hid Hbody Ht Himg s1. split.
  - assert (D : disk s1
                = save_note_to_db t (buffer s) (images_data s)
                    (formatting_data (run save_formatting_data s)) now
                    (disk s)).
    { unfold s1, handle. rewrite disk_on_text_modified. cbn [command].
      apply disk_first_save; assumption. }
    unfold save_note_to_db in D.
    destruct (appended_row_is_found (disk s) t (buffer s) now
                (dumps_or_empty (images_data s))
                (dumps_or_empty
                   (formatting_data (run save_formatting_data s))))
      as [A1 A2].
    rewrite <- D in A1, A2.
    eexists. split; [exact A1|]. split; [reflexivity|].
    split; [exact A2|].
    rewrite (@buffer_open_note_by_id s1 _ _
               (reachable_final_newline (reach_step _ Hr)) A2).
    + reflexivity.
    + cbn [images]. rewrite Himg. reflexivity.
  - intros p. vm_compute. repeat split.
Qed.

Lemma a_saved_note_comes_back_changed_witness :
  exists r,
    content r = String "a" (String Tk.newline EmptyString) /\
    buffer
      (run (open_note_by_id (Some (note_id r)))
         (handle (MenuSave (Some "t") 5%Z)
            (handle (Key "a") (handle MenuNew (init (Database [] []) [])))))
    = String "a" (String Tk.newline (String Tk.newline EmptyString)).
Proof.
  destruct (@a_saved_note_comes_back_changed
              (handle (Key "a") (handle MenuNew (init (Database [] []) [])))
              "t" 5%Z
              (reach_step _ (reach_step _ (reach_init _ _)))
              eq_refl) as [(r & _ & H2 & _ & H4) _];
    [discriminate | discriminate | reflexivity |].
  exists r. split; [rewrite H2 | rewrite H4]; reflexivity.
Defined.

(** * The database functions *)

Lemma find_app_first :
  forall (A : Type) (f : A -> bool) l l',
    find f (l ++ l') = match find f l with
                       | Some x => Some x
                       | None => find f l'
                       end.
Proof.
  intros A f l l'. induction l as [|x l IH]; simpl; [reflexivity|].
  destruct (f x); [reflexivity | exact IH].
Qed.

(** What [json.loads] makes of a column that [save_note_to_db] or
    [update_note_in_db] wrote: the value given, or the empty dict when the
    value was empty or otherwise false. *)
Lemma loads_dumps_or_empty :
  forall j,
    json_loads (dumps_or_empty j) = Some (if truthy j then j else JDict []).
Proof. intros j. unfold dumps_or_empty. destruct (truthy j); reflexivity. Qed.

(** A row written by [save_note_to_db] is read back by [get_note_content]
    under the new id, in the four columns that its SELECT names: the title
    and the content as given, and the two JSON columns, which load as the
    values given (the empty dict for a value that is empty or otherwise
    false).  Every other id reads as before, and the settings are not
    touched. *)
Theorem save_note_to_db_is_read_back :
  forall t body img fmt now d i,
    let d' := save_note_to_db t body img fmt now d in
    let id := Sqlite.next_rowid (map note_id (notes d)) in
    (exists r,
        get_note_content (Some id) d' = Some r /\
        title r = t /\
        content r = body /\
        images r = dumps_or_empty img /\
        formatting r = dumps_or_empty fmt /\
        json_loads (images r) = Some (if truthy img then img else JDict []) /\
        json_loads (formatting r)
        = Some (if truthy fmt then fmt else JDict [])) /\
    (i <> id ->
     get_note_content (Some i) d' = get_note_content (Some i) d) /\
    settings_table d' = settings_table d.
Proof.
  intros t body img fmt now d i d' id.
  destruct (appended_row_is_found d t body now (dumps_or_empty img)
              (dumps_or_empty fmt)) as [A1 A2].
  split; [|split; [|reflexivity]].
  - eexists. split; [exact A2|]. cbn [title content images formatting].
    repeat split; apply loads_dumps_or_empty.
  - intros Hi. unfold get_note_content, d', save_note_to_db.
    rewrite A1, find_app_first.
    destruct (find _ (notes d)); [reflexivity|].
    cbn [find note_id]. fold id.
    replace (id =? i)%Z with false; [reflexivity|].
    symmetry. apply Z.eqb_neq. congruence.
Qed.

(** [delete_note_from_db] removes the rows of the id and no other: the id
    reads as missing, every other id reads as before, and the listing
    holds the entries it held, those of the id apart. *)
Theorem delete_note_from_db_removes_that_note_only :
  forall id d i t,
    let d' := delete_note_from_db id d in
    get_note_content (Some id) d' = None /\
    (i <> id -> get_note_content (Some i) d' = get_note_content (Some i) d) /\
    (In (i, t) (get_notes_from_db d') <->
     In (i, t) (get_notes_from_db d) /\ i <> id) /\
    settings_table d' = settings_table d.
Proof.
  intros id d i t d'. unfold d', delete_note_from_db, get_note_content.
  cbn [notes settings_table].
  split; [|split; [|split; [|reflexivity]]].
  - induction (notes d) as [|r l IH]; [reflexivity|]. cbn [filter].
    destruct (note_id r =? id)%Z eqn:E; cbn [negb]; [exact IH|].
    cbn [find]. rewrite E. exact IH.
  - intros Hi. induction (notes d) as [|r l IH]; [reflexivity|]. cbn [filter].
    destruct (note_id r =? id)%Z eqn:E; cbn [negb find].
    + apply Z.eqb_eq in E.
      replace (note_id r =? i)%Z with false
        by (symmetry; apply Z.eqb_neq; congruence).
      exact IH.
    + destruct (note_id r =? i)%Z; [reflexivity | exact IH].
  - unfold get_notes_from_db. cbn [notes]. rewrite !in_map_iff. split.
    + intros (r & E & Hr).
      apply (Permutation_in _ (order_by_permutation _)) in Hr.
      apply filter_In in Hr. destruct Hr as [Hr Hn].
      apply negb_true_iff, Z.eqb_neq in Hn. injection E as <- <-.
      split; [|exact Hn]. exists r. split; [reflexivity|].
      apply (Permutation_in _ (Permutation_sym (order_by_permutation _))).
      exact Hr.
    + intros [(r & E & Hr) Hi]. exists r. split; [exact E|].
      apply (Permutation_in _ (order_by_permutation _)) in Hr.
      apply (Permutation_in _ (Permutation_sym (order_by_permutation _))).
      apply filter_In. split; [exact Hr|].
      injection E as <- _. apply negb_true_iff, Z.eqb_neq. exact Hi.
Qed.

(** [update_note_in_db] writes to the rows of the id and adds none: the id
    reads as the new title, content and columns with the time of creation
    it had, every other id reads as before, and an id that no row has
    leaves the database as it was. *)
Theorem update_note_in_db_rewrites_that_note_only :
  forall id t body img fmt now d i,
    let d' := update_note_in_db id t body img fmt now d in
    get_note_content (Some id) d'
    = option_map
        (fun r => Note id t body (created_at r) now
                    (dumps_or_empty img) (dumps_or_empty fmt))
        (get_note_content (Some id) d) /\
    (i <> id -> get_note_content (Some i) d' = get_note_content (Some i) d) /\
    length (notes d') = length (notes d) /\
    (get_note_content (Some id) d = None -> d' = d).
Proof.
  intros id t body img fmt now d i d'.
  unfold d', update_note_in_db, get_note_content, Sqlite.close,
    Sqlite.update_note, Sqlite.connect.
  cbn [Sqlite.store notes settings_table].
  split; [|split; [|split]].
  - induction (notes d) as [|r l IH]; [reflexivity|]. cbn [map find].
    destruct (note_id r =? id)%Z eqn:E; cbn [note_id]; rewrite E.
    + apply Z.eqb_eq in E. rewrite E. reflexivity.
    + exact IH.
  - intros Hi. induction (notes d) as [|r l IH]; [reflexivity|].
    cbn [map find].
    destruct (note_id r =? id)%Z eqn:E; cbn [note_id].
    + apply Z.eqb_eq in E.
      replace (note_id r =? i)%Z with false
        by (symmetry; apply Z.eqb_neq; congruence).
      exact IH.
    + destruct (note_id r =? i)%Z; [reflexivity | exact IH].
  - apply length_map.
  - intros H. destruct d as [ns st]. cbn [notes settings_table] in *.
    f_equal. induction ns as [|r l IH]; [reflexivity|].
    cbn [map find] in *. destruct (note_id r =? id)%Z; [discriminate H|].
    f_equal. apply IH. exact H.
Qed.

(** [get_recent_notes_from_db] is the listing cut after [limit] entries,
    each with its time stamp. *)
Theorem get_recent_notes_from_db_is_the_head_of_the_listing :
  forall limit d,
    map (fun x => (fst (fst x), snd (fst x)))
        (get_recent_notes_from_db limit d)
    = firstn limit (get_notes_from_db d) /\
    length (get_recent_notes_from_db limit d)
    = Nat.min limit (length (notes d)) /\
    (forall x, In x (get_recent_notes_from_db limit d) ->
               exists r, In r (notes d) /\
                         x = (note_id r, title r, updated_at r)).
Proof.
  intros limit d. unfold get_recent_notes_from_db, get_notes_from_db.
  split; [|split].
  - rewrite <- firstn_map, map_map. reflexivity.
  - rewrite length_firstn, length_map.
    rewrite (Permutation_length (order_by_permutation (notes d))).
    reflexivity.
  - intros x Hx.
    assert (Hx' : In x (map (fun r => (note_id r, title r, updated_at r))
                          (Sqlite.order_by_updated_at_desc (notes d)))).
    { rewrite <- (firstn_skipn limit). apply in_or_app. left. exact Hx. }
    clear Hx. rename Hx' into Hx. apply in_map_iff in Hx.
    destruct Hx as (r & <- & Hr). exists r. split; [|reflexivity].
    apply (Permutation_in _ (order_by_permutation _)). exact Hr.
Qed.

(** The settings that [get_settings] reads after [save_settings] are the
    settings saved when the table has a row with id 1, and the defaults
    when it has none: [save_settings] updates and never inserts.
    [create_tables] puts that row into an empty table only, and leaves the
    notes alone. *)
Theorem settings_are_read_back_when_row_one_exists :
  forall st d,
    get_settings (save_settings st d)
    = match find (fun r => (row_id r =? 1)%Z) (settings_table d) with
      | Some _ => st
      | None => Settings "dark" "Arial" 12
      end /\
    notes (save_settings st d) = notes d /\
    notes (create_tables d) = notes d /\
    create_tables (create_tables d) = create_tables d /\
    (settings_table d = [] ->
     get_settings (create_tables d) = Settings "dark" "Arial" 12 /\
     get_settings (save_settings st (create_tables d)) = st).
Proof.
  intros st d. split; [|split; [reflexivity|split; [|split]]].
  - unfold get_settings, save_settings. cbn [settings_table].
    induction (settings_table d) as [|r l IH]; [reflexivity|].
    cbn [map find]. destruct (row_id r =? 1)%Z eqn:E; cbn [row_id]; rewrite E.
    + destruct st; reflexivity.
    + exact IH.
  - unfold create_tables. destruct (settings_table d); reflexivity.
  - unfold create_tables. destruct (settings_table d) eqn:E.
    + reflexivity.
    + rewrite E. reflexivity.
  - intros E. unfold create_tables. rewrite E. split; [reflexivity|].
    destruct st; reflexivity.
Qed.

(** * What the application keeps from one event to the next *)

Lemma modified_tag_when :
  forall b t i j w, Tk.modified (tag_when b t i j w) = Tk.modified w.
Proof. intros [|] t i j w; reflexivity. Qed.

(** The handler of [<<Modified>>] leaves the flag down. *)
Lemma modified_on_text_modified :
  forall s, Tk.modified (text_area (run on_text_modified s)) = false.
Proof.
  intros s. rewrite on_text_modified_result.
  destruct (Tk.modified (text_area s)) eqn:E; cbn [negb]; [|exact E].
  cbn [text_area set_text_area]. destruct (_ <? _); [|reflexivity].
  unfold formatted. rewrite !modified_tag_when. reflexivity.
Qed.

Lemma chars_final_newline :
  forall w, final_newline w ->
            exists t, Tk.chars (Tk.cells w)
                      = (t ++ String Tk.newline EmptyString)%string.
Proof.
  intros w (cs & c & E & Hc). exists (Tk.chars cs).
  rewrite E, chars_app. cbn [Tk.chars]. rewrite Hc. reflexivity.
Qed.

(** In every state of the application the cursor stands in front of a
    character of the text, the text ends in a newline, so that what
    [save_note] reads is never the empty string, the handler of
    [<<Modified>>] has seen every change, and the font of the editor is
    the description it was created with, never a named font. *)
Theorem the_editor_keeps_its_cursor_and_its_final_newline :
  forall s,
    reachable s ->
    Tk.insert_mark (text_area s) < Tk.END (text_area s) /\
    (exists t, buffer s = (t ++ String Tk.newline EmptyString)%string) /\
    Tk.modified (text_area s) = false /\
    (exists family size, Tk.font (text_area s) = Tk.Described family size).
Proof.
  intros s Hr. pose proof (reachable_sound Hr) as (H1 & H2 & _).
  split; [exact H1|]. split; [|split].
  - rewrite buffer_chars. apply chars_final_newline.
    apply reachable_final_newline. exact Hr.
  - destruct Hr as [d fonts|s e Hr]; [reflexivity|].
    unfold handle. apply modified_on_text_modified.
  - unfold described in H2. destruct (Tk.font (text_area s)) as [f n|n];
      [eauto | destruct H2].
Qed.

Lemma the_editor_keeps_its_cursor_and_its_final_newline_witness :
  Tk.modified
    (text_area (handle (Key "a") (handle MenuNew (init (Database [] []) []))))
  = false.
Proof.
  exact (proj1 (proj2 (proj2
           (@the_editor_keeps_its_cursor_and_its_final_newline
              (handle (Key "a") (handle MenuNew (init (Database [] []) [])))
              (reach_step _ (reach_step _ (reach_init _ _))))))).
Defined.

(** ** Tabs *)

(** No note has two tabs. *)
Definition one_tab_each (s : world) : Prop := NoDup (map fst (open_notes s)).

Lemma NoDup_filter_fst :
  forall (f : option Z * string -> bool) (tabs : list (option Z * string)),
    NoDup (map fst tabs) -> NoDup (map fst (filter f tabs)).
Proof.
  intros f tabs H. induction tabs as [|x l IH]; [constructor|].
  cbn [map] in H. inversion H as [|a m Hx Hl]; subst.
  cbn [filter]. destruct (f x); [|auto].
  cbn [map]. constructor; [|auto].
  intros Hin. apply Hx. apply in_map_iff in Hin.
  destruct Hin as (y & Ey & Hy). apply filter_In in Hy.
  apply in_map_iff. exists y. tauto.
Qed.

Lemma one_tab_open_note_by_id :
  forall id, preserves one_tab_each (open_note_by_id id).
Proof. intros id. apply blind_open_note_by_id; auto. Qed.

Lemma one_tab_activate_tab : forall id, preserves one_tab_each (activate_tab id).
Proof.
  intros id. unfold activate_tab. repeat step_body; auto.
  apply one_tab_open_note_by_id.
Qed.

Lemma one_tab_add_tab : forall id t, preserves one_tab_each (add_tab id t).
Proof.
  intros id t s Hs. unfold add_tab.
  change (snd ((tabs <- read open_notes ;;
                if existsb (fun tab => id_eqb (fst tab) id) tabs
                then activate_tab id
                else
                  update (fun s => set_open_notes (open_notes s ++ [(id, t)]) s) ;;
                  update (fun s =>
                            if has_tab id s then s
                            else set_tab_references (tab_references s ++ [id]) s) ;;
                  activate_tab id) s))
    with (snd ((if existsb (fun tab => id_eqb (fst tab) id) (open_notes s)
                then activate_tab id
                else
                  update (fun s => set_open_notes (open_notes s ++ [(id, t)]) s) ;;
                  update (fun s =>
                            if has_tab id s then s
                            else set_tab_references (tab_references s ++ [id]) s) ;;
                  activate_tab id) s)).
  destruct (existsb _ (open_notes s)) eqn:E;
    [apply one_tab_activate_tab; exact Hs|].
  exec. apply one_tab_activate_tab.
  assert (N : one_tab_each (set_open_notes (open_notes s ++ [(id, t)]) s)).
  { unfold one_tab_each. cbn [open_notes set_open_notes].
    rewrite map_app. cbn [map fst].
    apply NoDup_app; [exact Hs | repeat constructor; intros [] |].
    intros x Hx [Hx'|[]]. subst x. apply in_map_iff in Hx.
    destruct Hx as ([i u] & Ei & Hu). cbn [fst] in Ei. subst i.
    assert (L : existsb (fun tab => id_eqb (fst tab) id) (open_notes s) = true)
      by (apply listed_iff; eauto).
    congruence. }
  destruct (has_tab id _); exact N.
Qed.

Lemma one_tab_close_tab : forall id, preserves one_tab_each (close_tab id).
Proof.
  intros id. unfold close_tab. repeat step_body; auto.
  - intros x H. unfold one_tab_each. cbn [open_notes set_open_notes].
    apply NoDup_filter_fst. exact H.
  - apply one_tab_activate_tab.
Qed.

Lemma one_tab_save_note :
  forall asked now, preserves one_tab_each (save_note asked now).
Proof.
  intros. unfold save_note, save_formatting_data. repeat step_body; auto.
  all: try apply one_tab_add_tab.
  all: try apply one_tab_close_tab.
  intros x H. unfold one_tab_each. cbn [open_notes set_open_notes].
  rewrite map_map. cbn [fst]. exact H.
Qed.

Lemma one_tab_command : forall e, preserves one_tab_each (command e).
Proof.
  intros [c| |p|i j| |asked now|id t|id|id|confirm| | | |entry|entry
         |chosen|grabbed clip]; simpl command.
  - repeat step_body; auto.
  - repeat step_body; auto.
  - repeat step_body; auto.
  - repeat step_body; auto.
  - unfold new_note, show_editor_page. repeat step_body; auto.
    apply one_tab_add_tab.
  - apply one_tab_save_note.
  - unfold open_note_in_tab, show_editor_page. repeat step_body; auto.
    apply one_tab_add_tab.
  - apply one_tab_activate_tab.
  - apply one_tab_close_tab.
  - unfold delete_note. repeat step_body; auto. apply one_tab_close_tab.
  - unfold toggle_bold, toggle. repeat step_body; auto.
  - unfold toggle_italic, toggle. repeat step_body; auto.
  - unfold toggle_underline, toggle. repeat step_body; auto.
  - unfold change_font_size. repeat step_body; auto.
  - unfold change_font_family. repeat step_body; auto.
  - unfold insert_image, fresh_image_id, keep_reference, store_image,
      setitem, insert_and_delete_marker.
    repeat step_body; auto.
  - unfold paste_from_clipboard, fresh_image_id, keep_reference, store_image,
      setitem, insert_and_delete_marker.
    repeat step_body; auto.
Qed.

(** A note has one tab at most, whatever is opened, saved or closed, and
    every tab in the list has its frame and buttons. *)
Theorem no_note_has_two_tabs :
  forall s,
    reachable s ->
    NoDup (map fst (open_notes s)) /\
    (forall id t, In (id, t) (open_notes s) -> In id (tab_references s)).
Proof.
  intros s Hr. split.
  - induction Hr as [d fonts|s e Hr IH]; [constructor|].
    unfold handle.
    apply (@preserves_run one_tab_each).
    + unfold on_text_modified, apply_current_formatting.
      repeat step_body; auto.
    + apply (@preserves_run one_tab_each); [apply one_tab_command | exact IH].
  - pose proof (reachable_sound Hr) as (_ & _ & _ & Ht).
    intros id t Hin. apply known_iff. apply Ht. apply listed_iff. eauto.
Qed.

Lemma no_note_has_two_tabs_witness :
  NoDup
    (map fst
       (open_notes
          (handle MenuNew (handle MenuNew (init (Database [] []) []))))).
Proof.
  exact (proj1 (@no_note_has_two_tabs
                  (handle MenuNew (handle MenuNew (init (Database [] []) [])))
                  (reach_step _ (reach_step _ (reach_init _ _))))).
Defined.

(** ** Methods, one statement after the other *)

Lemma activate_tab_result :
  forall id s,
    run (activate_tab id) s
    = if has_tab id s then run (open_note_by_id id) (set_active_tab id s)
      else s.
Proof.
  intros id s. unfold run, activate_tab. exec.
  destruct (has_tab id s); reflexivity.
Qed.

Lemma open_note_by_id_missing :
  forall id s,
    get_note_content id (disk s) = None ->
    run (open_note_by_id id) s = set_current_note_id id s.
Proof.
  intros id s H. unfold run, open_note_by_id. exec.
  cbn [disk set_current_note_id]. rewrite H. reflexivity.
Qed.

Lemma add_tab_result :
  forall id t s,
    run (add_tab id t) s
    = run (activate_tab id)
        (if existsb (fun tab => id_eqb (fst tab) id) (open_notes s) then s
         else
           let s0 := set_open_notes (open_notes s ++ [(id, t)]) s in
           if has_tab id s0 then s0
           else set_tab_references (tab_references s0 ++ [id]) s0).
Proof.
  intros id t s. unfold run at 1, add_tab. exec.
  destruct (existsb _ (open_notes s)); [reflexivity|]. exec. reflexivity.
Qed.

Lemma update_note_in_db_missing :
  forall id t body img fmt now d,
    get_note_content (Some id) d = None ->
    update_note_in_db id t body img fmt now d = d.
Proof.
  intros id t body img fmt now [ns st] H.
  unfold update_note_in_db, Sqlite.close, Sqlite.update_note, Sqlite.connect.
  cbn [Sqlite.store notes settings_table get_note_content] in *.
  f_equal. induction ns as [|r l IH]; [reflexivity|].
  cbn [map find] in *. destruct (note_id r =? id)%Z; [discriminate H|].
  f_equal. apply IH. exact H.
Qed.

(** ** Saving under an id that no row has *)

(** When the id of the note is the id of no row, [save_note] writes
    nothing and reports success: the statement that updates the row
    matches none.  This is the state a first save leaves, the id read
    back being 0, so what is typed after a first save is never stored by a
    later one. *)
Theorem save_under_a_missing_id_writes_nothing :
  forall s id t now,
    current_note_id s = Some id ->
    get_note_content (Some id) (disk s) = None ->
    Py.strip (buffer s) <> "" ->
    t <> "" ->
    let s' := run (save_note (Some t) now) s in
    disk s' = disk s /\
    current_note_id s' = Some id /\
    status_bar s' = ("Note '" ++ t ++ "' updated successfully")%string.
Proof.
  intros s id t now Hid Hrow Hbody Ht.
  set (s1 := run save_formatting_data s).
  unfold run at 1, save_note. exec. fold (buffer s).
  destruct (Py.strip (buffer s)) eqn:Eb; [contradiction|].
  cbn [negb Py.nonempty]. cbv iota. destruct t as [|c t']; [contradiction|].
  match goal with
  | |- context [bind save_formatting_data ?k s] =>
      change (bind save_formatting_data k s) with (k tt s1); cbv beta
  end.
  exec. change (current_note_id s1) with (current_note_id s).
  rewrite Hid. exec.
  change (disk s1) with (disk s).
  rewrite (update_note_in_db_missing id _ _ _ _ _ (disk s) Hrow).
  match goal with
  | |- context [when ?b ?c] => destruct b; unfold when
  end; exec; cbn [animate_status_bar update snd];
    (split; [reflexivity|]); (split; [exact Hid | reflexivity]).
Qed.

Lemma save_under_a_missing_id_writes_nothing_witness :
  map content
    (notes
       (disk
          (run (save_note (Some "t") 9%Z)
             (handle (Key "b")
                (handle (MenuSave (Some "t") 5%Z)
                   (handle (Key "a")
                      (handle MenuNew (init (Database [] []) []))))))))
  = map content
      (notes
         (disk
            (handle (Key "b")
               (handle (MenuSave (Some "t") 5%Z)
                  (handle (Key "a")
                     (handle MenuNew (init (Database [] []) []))))))).
Proof.
  assert (H1 : current_note_id
                 (handle (Key "b")
                    (handle (MenuSave (Some "t") 5%Z)
                       (handle (Key "a")
                          (handle MenuNew (init (Database [] []) [])))))
               = Some 0%Z) by (vm_compute; reflexivity).
  assert (H2 : get_note_content (Some 0%Z)
                 (disk
                    (handle (Key "b")
                       (handle (MenuSave (Some "t") 5%Z)
                          (handle (Key "a")
                             (handle MenuNew (init (Database [] []) []))))))
               = None) by (vm_compute; reflexivity).
  assert (H3 : Py.strip
                 (buffer
                    (handle (Key "b")
                       (handle (MenuSave (Some "t") 5%Z)
                          (handle (Key "a")
                             (handle MenuNew (init (Database [] []) []))))))
               <> "") by (vm_compute; discriminate).
  assert (H4 : "t" <> "") by discriminate.
  exact (f_equal (fun d => map content (notes d))
           (proj1 (@save_under_a_missing_id_writes_nothing _ 0%Z "t" 9%Z
                     H1 H2 H3 H4))).
Defined.

(** ** Going from one tab to another *)

(** The button of a tab loads the note again from the database.  For a
    note without pictures the editor then holds the stored content and a
    final newline, whatever it held before: what was typed and not saved
    is gone.  The tab of a note that has no row, the unsaved note among
    them, changes the id of the note only and leaves the text of the
    editor as the other tab had it.  An id without a tab does nothing. *)
Theorem a_tab_shows_what_the_database_holds :
  forall s id,
    reachable s ->
    (has_tab id s = false -> run (activate_tab id) s = s) /\
    (has_tab id s = true ->
     get_note_content id (disk s) = None ->
     run (activate_tab id) s
     = set_current_note_id id (set_active_tab id s)) /\
    (forall row,
        has_tab id s = true ->
        get_note_content id (disk s) = Some row ->
        worth_loading (images row) = false ->
        buffer (run (activate_tab id) s)
        = (content row ++ String Tk.newline EmptyString)%string /\
        current_note_id (run (activate_tab id) s) = id).
Proof.
  intros s id Hr. split; [|split].
  - intros H. rewrite activate_tab_result, H. reflexivity.
  - intros H Hrow. rewrite activate_tab_result, H.
    apply open_note_by_id_missing. exact Hrow.
  - intros row H Hrow Himg. rewrite activate_tab_result, H. split.
    + apply buffer_open_note_by_id; [|exact Hrow|exact Himg].
      cbn [text_area set_active_tab]. apply reachable_final_newline, Hr.
    + apply open_note_by_id_sets_id.
Qed.

Lemma a_tab_shows_what_the_database_holds_witness :
  buffer
    (run (activate_tab (Some 1%Z))
       (handle (Key "x")
          (handle (OpenNote 1 "t")
             (init (Database [Note 1 "t" "ab" (CURRENT_TIMESTAMP 0) 0 Null Null] []) []))))
  = String "a" (String "b" (String Tk.newline EmptyString)).
Proof.
  assert (H1 : has_tab (Some 1%Z)
                 (handle (Key "x")
                    (handle (OpenNote 1 "t")
                       (init (Database [Note 1 "t" "ab" (CURRENT_TIMESTAMP 0) 0 Null Null] [])
                          [])))
               = true) by (vm_compute; reflexivity).
  assert (H2 : get_note_content (Some 1%Z)
                 (disk
                    (handle (Key "x")
                       (handle (OpenNote 1 "t")
                          (init (Database [Note 1 "t" "ab" (CURRENT_TIMESTAMP 0) 0 Null Null] [])
                             []))))
               = Some (Note 1 "t" "ab" (CURRENT_TIMESTAMP 0) 0 Null Null))
    by (vm_compute; reflexivity).
  exact (proj1 (proj2 (proj2
           (@a_tab_shows_what_the_database_holds _ (Some 1%Z)
              (reach_step _ (reach_step _ (reach_init _ _)))))
           (Note 1 "t" "ab" (CURRENT_TIMESTAMP 0) 0 Null Null) H1 H2 eq_refl)).
Defined.

(** ** Deleting a note *)

Lemma delete_note_from_db_missing :
  forall id d,
    get_note_content (Some id) d = None -> delete_note_from_db id d = d.
Proof.
  intros id [ns st] H. unfold delete_note_from_db.
  cbn [notes settings_table get_note_content] in *. f_equal.
  induction ns as [|r l IH]; [reflexivity|]. cbn [filter find] in *.
  destruct (note_id r =? id)%Z; [discriminate H|]. cbn [negb].
  f_equal. apply IH. exact H.
Qed.

Lemma disk_clear_editor : forall s, disk (clear_editor s) = disk s.
Proof. reflexivity. Qed.

(** [delete_note] deletes the rows of the current note when the user
    confirms, and nothing otherwise: not when no note is current, not
    when the user declines, not when the current id is the id of no row
    (the case after a first save).  After it, the id of the deleted note
    reads as missing. *)
Theorem delete_note_deletes_the_current_note_only :
  forall s confirm,
    let s' := run (delete_note confirm) s in
    match current_note_id s with
    | None =>
        s' = set_status_bar "No note is currently open" s
    | Some id =>
        disk s' = (if confirm then delete_note_from_db id (disk s)
                   else disk s) /\
        (confirm = false -> s' = s) /\
        (get_note_content (Some id) (disk s) = None -> s' = s) /\
        (confirm = true -> get_note_content (Some id) (disk s') = None)
    end.
Proof.
  intros s confirm s'.
  destruct (current_note_id s) as [id|] eqn:Hid.
  - assert (D : disk s' = (if confirm then delete_note_from_db id (disk s)
                           else disk s)).
    { unfold s', run, delete_note. exec. rewrite Hid.
      destruct confirm; cbn [when]; [|reflexivity]. exec.
      destruct (get_note_content (Some id) (disk s)) as [row|] eqn:Hrow.
      - exec.
        match goal with
        | |- disk (snd (?c ?x)) = ?D =>
            change (disk (snd (c x))) with (disk (run c x));
            apply (@preserves_run (fun s' => disk s' = D)); [|reflexivity]
        end.
        repeat step_body; auto. apply disk_close_tab.
      - cbn [snd ret]. symmetry. apply delete_note_from_db_missing.
        exact Hrow. }
    split; [exact D|]. split; [|split].
    + intros ->. unfold s', run, delete_note. exec. rewrite Hid. reflexivity.
    + intros Hrow. unfold s', run, delete_note. exec. rewrite Hid.
      destruct confirm; cbn [when]; [|reflexivity]. exec. rewrite Hrow.
      reflexivity.
    + intros ->. rewrite D.
      unfold delete_note_from_db, get_note_content. cbn [notes].
      induction (notes (disk s)) as [|r l IH]; [reflexivity|]. cbn [filter].
      destruct (note_id r =? id)%Z eqn:E; cbn [negb]; [exact IH|].
      cbn [find]. rewrite E. exact IH.
  - unfold s', run, delete_note. exec. rewrite Hid. reflexivity.
Qed.

(** ** A new note *)

Lemma has_tab_after_listing :
  forall id t s,
    let s0 := set_open_notes (open_notes s ++ [(id, t)]) s in
    has_tab id (if has_tab id s0 then s0
                else set_tab_references (tab_references s0 ++ [id]) s0)
    = true.
Proof.
  intros id t s s0. destruct (has_tab id s0) eqn:E; [exact E|].
  unfold has_tab. cbn [tab_references set_tab_references].
  apply known_iff, in_or_app. right. left. reflexivity.
Qed.

(** [new_note] leaves an empty editor, whatever was open: the text is the
    final newline alone, no image is stored and the counter is 0, the
    note has no id, nothing is toggled, and the tab of the unsaved note is
    in the list and active.  The database is not touched. *)
Theorem new_note_gives_an_empty_editor :
  forall s,
    reachable s ->
    let s' := run new_note s in
    buffer s' = String Tk.newline EmptyString /\
    current_note_id s' = None /\
    images_data s' = JDict [] /\
    image_counter s' = 0%Z /\
    formatting_data s' = JDict [] /\
    current_format s'
    = Format false false false (font_size (settings s))
        (font_family (settings s)) /\
    active_tab s' = None /\
    (exists t, In (None, t) (open_notes s')) /\
    disk s' = disk s.
Proof.
  intros s Hr s'.
  pose proof (reachable_sound Hr) as (_ & _ & _ & Htab).
  pose proof (reachable_final_newline Hr) as Hn.
  assert (C : Tk.cells (Tk.delete (text_area s) 0 (Tk.END (text_area s)))
              = [Tk.Cell (Tk.Chr Tk.newline) []]).
  { exact (content_loaded EmptyString Hn). }
  set (s4 := set_status_bar "New note created"
               (set_status_bar "Editor ready"
                  (reset_format (clear_editor s)))).
  assert (E : s' = run (add_tab None "Untitled") s4).
  { unfold s', s4, run, new_note, show_editor_page. exec. reflexivity. }
  rewrite add_tab_result, activate_tab_result in E.
  destruct (existsb (fun tab => id_eqb (fst tab) None) (open_notes s4)) eqn:L.
  - assert (K : has_tab None s4 = true) by (apply Htab; exact L).
    rewrite K, open_note_by_id_missing in E by reflexivity.
    rewrite E. unfold s4, reset_format, clear_editor.
    rewrite buffer_chars.
    cbn [text_area current_note_id images_data image_counter formatting_data
         current_format active_tab open_notes disk settings
         set_current_note_id set_active_tab set_status_bar set_current_format
         set_formatting_data set_image_counter set_images_data set_text_area].
    rewrite C. repeat split.
    apply listed_iff. exact L.
  - cbv zeta in E. rewrite has_tab_after_listing in E.
    rewrite open_note_by_id_missing in E by reflexivity.
    rewrite E. unfold s4, reset_format, clear_editor, has_tab.
    rewrite buffer_chars.
    match goal with
    | |- context [if ?b then _ else _] => destruct b
    end;
      cbn [text_area current_note_id images_data image_counter formatting_data
           current_format active_tab open_notes disk settings
           set_current_note_id set_active_tab set_status_bar
           set_current_format set_formatting_data set_image_counter
           set_images_data set_text_area set_open_notes set_tab_references];
      rewrite C; repeat split;
      exists "Untitled"; apply in_or_app; right; left; reflexivity.
Qed.

Lemma new_note_gives_an_empty_editor_witness :
  buffer
    (run new_note
       (handle (Key "a") (handle MenuNew (init (Database [] []) []))))
  = String Tk.newline EmptyString.
Proof.
  exact (proj1 (@new_note_gives_an_empty_editor _
                  (reach_step (Key "a")
                     (reach_step MenuNew (reach_init (Database [] []) []))))).
Defined.

(** * The formatting commands *)

Lemma set_text_area_same : forall s, set_text_area (text_area s) s = s.
Proof. intros []. reflexivity. Qed.

(** A loop of conditional edits is one edit. *)
Lemma for_each_when_edit :
  forall (A : Type) (l : list A) (g : A -> bool)
         (f : A -> Tk.text -> Tk.text) s,
    for_each l (fun x => when (g x) (edit (f x))) s
    = (Returned tt,
       set_text_area
         (fold_left (fun w x => if g x then f x w else w) l (text_area s)) s).
Proof.
  intros A l g f. induction l as [|x r IH]; intros s.
  - cbn [for_each fold_left]. rewrite set_text_area_same. reflexivity.
  - cbn [for_each fold_left]. unfold bind.
    destruct (g x); cbn [when].
    + cbn [edit update]. rewrite IH. reflexivity.
    + cbn [ret]. rewrite IH. reflexivity.
Qed.

Lemma for_each_edit :
  forall (A : Type) (l : list A) (f : A -> Tk.text -> Tk.text) s,
    for_each l (fun x => edit (f x)) s
    = (Returned tt,
       set_text_area (fold_left (fun w x => f x w) l (text_area s)) s).
Proof.
  intros A l f s.
  exact (for_each_when_edit l (fun _ => true) f s).
Qed.

(** The tags at [p] after a tag has been taken off [i, j) for every [x]
    of [l] that [g] lets through. *)
Lemma fold_tag_remove_at :
  forall (A : Type) (l : list A) (g : A -> bool) (tag : A -> string)
         i j w p u,
    In u (Tk.tag_names
            (fold_left
               (fun w x => if g x then Tk.tag_remove w (tag x) i j else w)
               l w) p) <->
    In u (Tk.tag_names w p) /\
    ~ (i <= p < j /\ exists x, In x l /\ g x = true /\ u = tag x).
Proof.
  intros A l g tag i j. induction l as [|x r IH]; intros w p u.
  - cbn [fold_left]. split; [|tauto]. intros H. split; [exact H|].
    intros (_ & y & [] & _).
  - cbn [fold_left]. rewrite IH. destruct (g x) eqn:G.
    + rewrite tag_remove_at. split.
      * intros ((H1 & H2) & H3). split; [exact H1|].
        intros (Hr & y & [<-|Hy] & Gy & Ey).
        -- apply H2. tauto.
        -- apply H3. split; [exact Hr|]. eauto.
      * intros (H1 & H2). split; [split; [exact H1|]|].
        -- intros (Eu & Hr). apply H2. split; [exact Hr|].
           exists x. split; [left; reflexivity | tauto].
        -- intros (Hr & y & Hy & Gy & Ey). apply H2. split; [exact Hr|].
           exists y. split; [right; exact Hy | tauto].
    + split.
      * intros (H1 & H2). split; [exact H1|].
        intros (Hr & y & [<-|Hy] & Gy & Ey); [congruence|].
        apply H2. split; [exact Hr|]. eauto.
      * intros (H1 & H2). split; [exact H1|].
        intros (Hr & y & Hy & Gy & Ey). apply H2. split; [exact Hr|].
        exists y. split; [right; exact Hy | tauto].
Qed.

Lemma END_fold_tag_remove :
  forall (A : Type) (l : list A) (g : A -> bool) (tag : A -> string) i j w,
    Tk.END
      (fold_left (fun w x => if g x then Tk.tag_remove w (tag x) i j else w)
         l w)
    = Tk.END w.
Proof.
  intros A l g tag i j. induction l as [|x r IH]; intros w; [reflexivity|].
  cbn [fold_left]. rewrite IH. destruct (g x); [|reflexivity].
  unfold Tk.END, Tk.tag_remove, Tk.with_cells. cbn [Tk.cells].
  apply TkFacts.length_on_range.
Qed.

Lemma chars_fold_tag_remove :
  forall (A : Type) (l : list A) (g : A -> bool) (tag : A -> string) i j w,
    Tk.chars
      (Tk.cells
         (fold_left
            (fun w x => if g x then Tk.tag_remove w (tag x) i j else w) l w))
    = Tk.chars (Tk.cells w).
Proof.
  intros A l g tag i j. induction l as [|x r IH]; intros w; [reflexivity|].
  cbn [fold_left]. rewrite IH. destruct (g x); [|reflexivity].
  apply chars_tag_remove.
Qed.

(** ** The size and the family of a selection *)





(** ** Bold, italic, underline *)

(** The tags at [p] once [tag] has been put on the range [r] ([on]) or
    taken off it. *)
Definition toggled (on : bool) (tag : string) (r : nat * nat) (w : Tk.text)
  (p : nat) (u : string) : Prop :=
  if on
  then In u (Tk.tag_names w p) \/
       (u = tag /\ fst r <= p < snd r /\ p < Tk.END w)
  else In u (Tk.tag_names w p) /\ ~ (u = tag /\ fst r <= p < snd r).

Lemma toggle_result :
  forall tag flip now_on s,
    let r := toggle_range (text_area s) in
    let on := now_on (flip (current_format s)) in
    let s' := run (toggle tag flip now_on) s in
    current_format s' = flip (current_format s) /\
    (forall p u, In u (styles_at s' p) <-> toggled on tag r (text_area s) p u) /\
    buffer s' = buffer s /\
    disk s' = disk s /\
    settings s' = settings s.
Proof.
  intros tag flip now_on s r on.
  unfold run, toggle, try_except. cbn [snd]. exec.
  cbn [text_area current_format set_current_format]. fold r. fold on.
  unfold toggled, styles_at. rewrite !buffer_chars.
  destruct on; cbn [edit update snd text_area set_text_area current_format
                    set_current_format disk settings].
  - split; [reflexivity|]. split; [|rewrite chars_tag_add; repeat split].
    intros p u. apply tag_add_at.
  - split; [reflexivity|]. split; [|rewrite chars_tag_remove; repeat split].
    intros p u. apply tag_remove_at.
Qed.

(** A toggle turns its flag over and works on the selection, or on the
    one character after the cursor when nothing is selected: the style
    goes on the whole range when the flag comes on, and off the whole
    range when it goes off, whatever part of the range had it.  The two
    other flags, the text and the database stay as they are. *)
Theorem a_toggle_follows_its_flag_on_the_whole_range :
  forall s p u,
    let cf := current_format s in
    let r := toggle_range (text_area s) in
    let b := run toggle_bold s in
    let i := run toggle_italic s in
    let n := run toggle_underline s in
    (bold (current_format b) = negb (bold cf) /\
     italic (current_format b) = italic cf /\
     underline (current_format b) = underline cf /\
     (In u (styles_at b p) <->
      toggled (negb (bold cf)) "bold" r (text_area s) p u) /\
     buffer b = buffer s /\ disk b = disk s) /\
    (italic (current_format i) = negb (italic cf) /\
     bold (current_format i) = bold cf /\
     underline (current_format i) = underline cf /\
     (In u (styles_at i p) <->
      toggled (negb (italic cf)) "italic" r (text_area s) p u) /\
     buffer i = buffer s /\ disk i = disk s) /\
    (underline (current_format n) = negb (underline cf) /\
     bold (current_format n) = bold cf /\
     italic (current_format n) = italic cf /\
     (In u (styles_at n p) <->
      toggled (negb (underline cf)) "underline" r (text_area s) p u) /\
     buffer n = buffer s /\ disk n = disk s).
Proof.
  intros s p u cf r b i n. split; [|split].
  - destruct (toggle_result "bold"
                (fun f => Format (negb (bold f)) (italic f) (underline f)
                            (fmt_font_size f) (fmt_font_family f))
                bold s) as (H1 & H2 & H3 & H4 & _).
    fold toggle_bold in H1, H2, H3, H4. fold b in H1, H2, H3, H4.
    rewrite H1. cbn [bold italic underline]. repeat split; auto; apply H2.
  - destruct (toggle_result "italic"
                (fun f => Format (bold f) (negb (italic f)) (underline f)
                            (fmt_font_size f) (fmt_font_family f))
                italic s) as (H1 & H2 & H3 & H4 & _).
    fold toggle_italic in H1, H2, H3, H4. fold i in H1, H2, H3, H4.
    rewrite H1. cbn [bold italic underline]. repeat split; auto; apply H2.
  - destruct (toggle_result "underline"
                (fun f => Format (bold f) (italic f) (negb (underline f))
                            (fmt_font_size f) (fmt_font_family f))
                underline s) as (H1 & H2 & H3 & H4 & _).
    fold toggle_underline in H1, H2, H3, H4. fold n in H1, H2, H3, H4.
    rewrite H1. cbn [bold italic underline]. repeat split; auto; apply H2.
Qed.

(** ** What [save_formatting_data] writes *)

Lemma keys_add_range :
  forall key pair d k,
    In k (Py.keys (add_range key pair d)) -> k = key \/ In k (Py.keys d).
Proof.
  intros key pair d k. unfold add_range.
  destruct (Py.get key d) as [[| | | | |l|]|]; apply keys_set.
Qed.

Lemma keys_collect :
  forall w key tag d k,
    In k (Py.keys (collect w key tag d)) ->
    In k (Py.keys d) \/ (k = key /\ Tk.tag_ranges w tag <> []).
Proof.
  intros w key tag d k. unfold collect, range_pairs.
  destruct (Tk.tag_ranges w tag) as [|r0 rs]; [left; assumption|].
  intros H. assert (G : k = key \/ In k (Py.keys d)).
  { revert d H. generalize (map (fun r : nat * nat =>
                        JList [JStr (Tk.index_text w (fst r));
                               JStr (Tk.index_text w (snd r))]) (r0 :: rs)).
    intros l. induction l as [|x l IH]; intros d H; [right; exact H|].
    cbn [fold_left] in H. destruct (IH _ H) as [E|E]; [left; exact E|].
    apply keys_add_range in E. exact E. }
  destruct G as [E|E]; [right | left; exact E].
  split; [exact E | discriminate].
Qed.

Lemma keys_collect_all :
  forall (A : Type) w (key tag : A -> string) l d k,
    In k (Py.keys (fold_left (fun d x => collect w (key x) (tag x) d) l d)) ->
    In k (Py.keys d) \/
    exists x, In x l /\ k = key x /\ Tk.tag_ranges w (tag x) <> [].
Proof.
  intros A w key tag l. induction l as [|x l IH]; intros d k H.
  - left. exact H.
  - cbn [fold_left] in H. destruct (IH _ _ H) as [E|(y & Hy & E)].
    + apply keys_collect in E. destruct E as [E|[E1 E2]]; [left; exact E|].
      right. exists x. split; [left; reflexivity | tauto].
    + right. exists y. split; [right; exact Hy | exact E].
Qed.

Lemma str_injective :
  forall a b, (0 <= a)%Z -> (0 <= b)%Z -> Py.str a = Py.str b -> a = b.
Proof.
  intros a b Ha Hb E. pose proof (PyFacts.int_str Ha) as H.
  rewrite E, (PyFacts.int_str Hb) in H. congruence.
Qed.


(** * The loop that puts the pictures of a note in place *)

Lemma find_from_bounds :
  forall pat cs at_ i,
    Tk.find_from pat at_ cs = Some i -> at_ <= i < at_ + length cs.
Proof.
  intros pat cs. induction cs as [|c r IH]; intros at_ i H; [discriminate H|].
  cbn [Tk.find_from] in H. destruct (Tk.starts_with pat (c :: r)).
  - injection H as <-. cbn [length]. lia.
  - apply IH in H. cbn [length]. lia.
Qed.

(** A match is found at or after the index the search starts from, and
    inside the text. *)
Lemma search_bounds :
  forall w pat start i,
    Tk.search w pat start = Some i -> start <= i < Tk.END w.
Proof.
  intros w pat start i H. unfold Tk.search in H.
  apply find_from_bounds in H. rewrite length_skipn in H. unfold Tk.END.
  lia.
Qed.

Lemma END_delete_le : forall w i j, Tk.END (Tk.delete w i j) <= Tk.END w.
Proof.
  intros w i j. unfold Tk.delete, Tk.END.
  set (n := length (Tk.cells w)) in *.
  destruct (Nat.min j n <=? Nat.min i n) eqn:E; [fold n; lia|].
  apply Nat.leb_gt in E. cbn [Tk.cells].
  set (to_end := Nat.min j n =? n).
  set (j' := if to_end then n - 1 else Nat.min j n).
  match goal with
  | |- context [if ?b then Nat.min i n - 1 else Nat.min i n] =>
      set (i' := if b then Nat.min i n - 1 else Nat.min i n)
  end.
  set (cs := if to_end then Tk.clean_last (Tk.cells w) else Tk.cells w).
  assert (Hcs : length cs = n).
  { unfold cs. destruct to_end; [apply TkFacts.length_clean_last | reflexivity]. }
  assert (Hi : i' <= j').
  { unfold i', j', to_end.
    destruct (Nat.min j n =? n) eqn:E2; simpl.
    - apply Nat.eqb_eq in E2.
      destruct (0 <? Nat.min i n) eqn:E3; simpl;
        [destruct (nth_error _ _) as [c|]; [destruct (Tk.is_newline c)|] |];
        lia.
    - lia. }
  rewrite length_app, length_firstn, length_skipn, Hcs. lia.
Qed.

(** The loop of [open_note_by_id] that replaces the markers of one image
    ends of itself: each round finds a marker at or after the index it
    starts from and leaves a shorter text behind that index, so with as
    many rounds as the text has characters, and one more, the loop stops
    because no marker is left or the picture cannot be read.  More rounds
    change nothing. *)
Theorem place_image_needs_no_more_rounds :
  forall fuel img_id img_data start s extra,
    Tk.END (text_area s) - start < fuel ->
    place_image (fuel + extra) img_id img_data start s
    = place_image fuel img_id img_data start s.
Proof.
  induction fuel as [|fuel IH]; intros img_id img_data start s extra H;
    [lia|].
  cbn [Nat.add place_image]. exec.
  destruct (Tk.search (text_area s) (marker img_id) start) as [i|] eqn:Hs;
    [|reflexivity].
  apply search_bounds in Hs. exec.
  destruct (decode_image img_data) as [img|]; cbn [or_raise];
    [|reflexivity].
  exec. cbn [text_area set_text_area set_image_references].
  apply IH.
  set (w1 := Tk.delete (text_area s) i _).
  assert (L : Tk.END w1 <= Tk.END (text_area s)) by apply END_delete_le.
  assert (N : 8 <= String.length (marker img_id)).
  { unfold marker. cbn [String.append String.length].
    assert (G : forall a b : string, String.length b <= String.length (a ++ b)%string).
    { induction a; intros b; cbn [String.append String.length]; [lia|].
      specialize (IHa b). lia. }
    specialize (G img_id "]"). cbn [String.length] in G. lia. }
  unfold Tk.forward, Tk.image_create, Tk.END in *.
  cbn [Tk.cells text_area set_text_area set_image_references].
  rewrite !TkFacts.length_splice. cbn [length]. lia.
Qed.

Lemma place_image_needs_no_more_rounds_witness :
  place_image (3 + 100) "0" (JB64 (ImageBytes "PNG" (Pixels "a" 1 1))) 0
    (init (Database [] []) [])
  = place_image 3 "0" (JB64 (ImageBytes "PNG" (Pixels "a" 1 1))) 0
      (init (Database [] []) []).
Proof.
  apply place_image_needs_no_more_rounds. vm_compute. lia.
Defined.

(** * Styles that are saved and loaded *)

(** ** An index written and read *)

Lemma digits_are_digits :
  forall n, forallb Py.is_digit (list_ascii_of_string (Py.digits n)) = true.
Proof.
  intros n.
  assert (D : forall d, forallb Py.is_digit
                          (list_ascii_of_string (NilEmpty.string_of_uint d))
                        = true).
  { induction d; simpl; auto. }
  unfold Py.digits, NilZero.string_of_uint.
  destruct (Nat.to_uint n) as [|d|d|d|d|d|d|d|d|d|d]; try reflexivity;
    cbn [NilEmpty.string_of_uint list_ascii_of_string forallb];
    rewrite D; reflexivity.
Qed.

Lemma read_digits :
  forall n, NilZero.uint_of_string (Py.digits n) = Some (Nat.to_uint n).
Proof.
  intros n. unfold Py.digits. apply NilZero.usu. apply PyFacts.to_uint_not_nil.
Qed.

(** The first dot of [a.b] stands behind [a] when [a] is digits. *)
Lemma index_dot :
  forall a b,
    forallb Py.is_digit (list_ascii_of_string a) = true ->
    String.index 0 "." (a ++ String "." b)%string = Some (String.length a).
Proof.
  induction a as [|x a IH]; intros b H.
  - cbn [String.append String.length]. destruct b; reflexivity.
  - cbn [list_ascii_of_string forallb] in H. apply andb_prop in H.
    destruct H as [Hx Ha].
    cbn [String.append String.length String.index].
    destruct (prefix "." (String x (a ++ String "." b))) eqn:P.
    + exfalso. cbn [prefix] in P.
      destruct (ascii_dec "." x) as [<-|]; [discriminate Hx | discriminate P].
    + rewrite (IH b Ha). reflexivity.
Qed.

Lemma substring_head :
  forall a b, substring 0 (String.length a) (a ++ b)%string = a.
Proof.
  induction a as [|x a IH]; intros b; cbn [String.append String.length].
  - destruct b; reflexivity.
  - cbn [substring]. now rewrite IH.
Qed.

Lemma substring_all : forall b, substring 0 (String.length b) b = b.
Proof.
  induction b as [|x b IH]; [reflexivity|].
  cbn [String.length substring]. now rewrite IH.
Qed.

Lemma length_append :
  forall a b, String.length (a ++ b)%string = String.length a + String.length b.
Proof.
  induction a as [|x a IH]; intros b; cbn [String.append String.length];
    [reflexivity | now rewrite IH].
Qed.

Lemma substring_tail :
  forall a b,
    substring (S (String.length a))
      (String.length (a ++ String "." b)%string - S (String.length a))
      (a ++ String "." b)%string
    = b.
Proof.
  intros a b. rewrite !length_append. cbn [String.length].
  replace (String.length a + S (String.length b) - S (String.length a))
    with (String.length b) by lia.
  induction a as [|x a IH]; cbn [String.append String.length substring].
  - apply substring_all.
  - exact IH.
Qed.

(** [to_line] with nothing to skip is [in_line]. *)
Lemma to_line_here :
  forall cs col at_, Tk.to_line cs 0 col at_ = Tk.in_line cs col at_.
Proof. intros [|c r] col at_; [destruct col|]; reflexivity. Qed.

Lemma line_col_grows :
  forall cs p line col l c,
    Tk.line_col cs p line col = (l, c) ->
    line <= l /\ (l = line -> col <= c).
Proof.
  induction cs as [|x r IH]; intros p line col l c H.
  - destruct p; cbn [Tk.line_col] in H; injection H as <- <-; lia.
  - destruct p as [|q]; cbn [Tk.line_col] in H; [injection H as <- <-; lia|].
    destruct (Tk.is_newline x).
    + apply IH in H. lia.
    + apply IH in H. lia.
Qed.

(** Line and column of an offset lead back to the offset. *)
Lemma to_line_line_col :
  forall cs p line col at_ l c,
    p <= length cs ->
    Tk.line_col cs p line col = (l, c) ->
    Tk.to_line cs (l - line) (if l =? line then c - col else c) at_
    = at_ + p.
Proof.
  induction cs as [|x r IH]; intros p line col at_ l c Hp H.
  - cbn [length] in Hp. assert (p = 0) by lia. subst p.
    cbn [Tk.line_col] in H. injection H as <- <-.
    rewrite Nat.sub_diag. cbn [Tk.to_line]. lia.
  - destruct p as [|q].
    + cbn [Tk.line_col] in H. injection H as <- <-.
      rewrite Nat.sub_diag, Nat.eqb_refl, Nat.sub_diag.
      cbn [Tk.to_line Tk.in_line]. lia.
    + cbn [length] in Hp. cbn [Tk.line_col] in H.
      destruct (Tk.is_newline x) eqn:Nx.
      * pose proof (line_col_grows _ _ _ _ H) as [G _].
        specialize (IH q (S line) 0 (S at_) l c ltac:(lia) H).
        replace (l =? line) with false by (symmetry; apply Nat.eqb_neq; lia).
        replace (l - line) with (S (l - S line)) by lia.
        cbn [Tk.to_line]. rewrite Nx.
        replace (if l =? S line then c - 0 else c) with c in IH
          by (destruct (l =? S line); lia).
        rewrite IH. lia.
      * pose proof (line_col_grows _ _ _ _ H) as [G1 G2].
        specialize (IH q line (S col) (S at_) l c ltac:(lia) H).
        destruct (l =? line) eqn:E.
        -- apply Nat.eqb_eq in E. specialize (G2 E).
           replace (l - line) with 0 in * by lia.
           replace (c - col) with (S (c - S col)) by lia.
           cbn [Tk.to_line Tk.in_line]. rewrite Nx.
           rewrite to_line_here in IH. rewrite IH. lia.
        -- apply Nat.eqb_neq in E.
           replace (l - line) with (S (l - S line)) in * by lia.
           cbn [Tk.to_line]. rewrite Nx. rewrite IH. lia.
Qed.

(** Line and column depend on where the newlines are, up to the
    offset. *)
Lemma line_col_agree :
  forall cs cs' p line col,
    firstn p (map Tk.is_newline cs) = firstn p (map Tk.is_newline cs') ->
    Tk.line_col cs p line col = Tk.line_col cs' p line col.
Proof.
  induction cs as [|x r IH]; intros cs' p line col H.
  - destruct p; [destruct cs'; reflexivity|].
    destruct cs'; [reflexivity | discriminate H].
  - destruct p as [|q]; [destruct cs'; reflexivity|].
    destruct cs' as [|y r']; [discriminate H|].
    cbn [map firstn] in H. injection H as E H.
    cbn [Tk.line_col]. rewrite E. destruct (Tk.is_newline y); apply IH; exact H.
Qed.

(** An index that [index_text] writes for one text is read as the same
    offset in every text that has its newlines at the same places up to
    the offset. *)
Lemma parse_index_index_text :
  forall w w' p,
    p <= Tk.END w' ->
    firstn p (map Tk.is_newline (Tk.cells w))
    = firstn p (map Tk.is_newline (Tk.cells w')) ->
    Tk.parse_index w' (Tk.index_text w p) = Some p.
Proof.
  intros w w' p Hp Hn. unfold Tk.index_text.
  rewrite (line_col_agree _ _ _ 1 0 Hn).
  destruct (Tk.line_col (Tk.cells w') p 1 0) as [l c] eqn:E.
  unfold Tk.parse_index.
  change (Py.digits l ++ "." ++ Py.digits c)%string
    with (Py.digits l ++ String "." (Py.digits c))%string.
  rewrite index_dot by apply digits_are_digits.
  rewrite substring_head, substring_tail, !read_digits.
  rewrite !Unsigned.of_to.
  pose proof (line_col_grows _ _ _ _ E) as [G _].
  pose proof (@to_line_line_col (Tk.cells w') p 1 0 0 l c Hp E) as T.
  destruct l as [|l']; [lia|].
  replace (S l' - 1) with l' in T by lia.
  replace (if S l' =? 1 then c - 0 else c) with c in T
    by (destruct (S l' =? 1); lia).
  rewrite T. reflexivity.
Qed.

(** ** The ranges of a tag *)

(** The offsets inside the ranges that [tag_ranges] lists are the offsets
    of the cells that carry the tag. *)
Lemma ranges_from_covers :
  forall t cs at_ open p,
    (forall s, open = Some s -> s <= at_) ->
    (exists r, In r (Tk.ranges_from t at_ open cs) /\ fst r <= p < snd r) <->
    (exists s, open = Some s /\ s <= p < at_) \/
    (at_ <= p /\
     exists c, nth_error cs (p - at_) = Some c /\ Tk.has_tag t c = true).
Proof.
  intros t cs. induction cs as [|c r IH]; intros at_ open p Ho.
  - cbn [Tk.ranges_from]. destruct open as [s|].
    + split.
      * intros (x & [<-|[]] & Hx). left. exists s. split; [reflexivity|exact Hx].
      * intros [(s' & E & Hs)|(_ & c & E & _)].
        -- injection E as <-. exists (s, at_). split; [left; reflexivity|exact Hs].
        -- destruct (p - at_); discriminate E.
    + split.
      * intros (x & [] & _).
      * intros [(s' & E & _)|(_ & c & E & _)]; [discriminate E|].
        destruct (p - at_); discriminate E.
  - cbn [Tk.ranges_from]. destruct (Tk.has_tag t c) eqn:T.
    + rewrite IH.
      2:{ intros s E. destruct open as [s0|]; injection E as <-;
          [specialize (Ho s0 eq_refl)|]; lia. }
      split.
      * intros [(s & E & Hs)|(Hp & c' & E & T')].
        -- destruct open as [s0|]; injection E as <-.
           ++ destruct (Nat.eq_dec p at_) as [->|Hne].
              ** right. split; [lia|]. exists c. rewrite Nat.sub_diag. auto.
              ** left. exists s0. split; [reflexivity|lia].
           ++ right. assert (p = at_) by lia. subst p. split; [lia|].
              exists c. rewrite Nat.sub_diag. auto.
        -- right. split; [lia|]. exists c'.
           replace (p - at_) with (S (p - S at_)) by lia. auto.
      * intros [(s & E & Hs)|(Hp & c' & E & T')].
        -- left. subst open. exists s. split; [reflexivity|lia].
        -- destruct (Nat.eq_dec p at_) as [->|Hne].
           ++ left. destruct open as [s0|]; eexists; (split; [reflexivity|]);
                [specialize (Ho s0 eq_refl)|]; lia.
           ++ right. split; [lia|]. exists c'.
              replace (p - at_) with (S (p - S at_)) in E by lia. auto.
    + assert (R : (exists x, In x (Tk.ranges_from t (S at_) None r) /\
                             fst x <= p < snd x) <->
                  (S at_ <= p /\
                   exists c', nth_error r (p - S at_) = Some c' /\
                              Tk.has_tag t c' = true)).
      { rewrite IH by (intros s E; discriminate E). split.
        - intros [(s & E & _)|H]; [discriminate E | exact H].
        - intros H. right. exact H. }
      assert (N : (at_ <= p /\
                   exists c', nth_error (c :: r) (p - at_) = Some c' /\
                              Tk.has_tag t c' = true) <->
                  (S at_ <= p /\
                   exists c', nth_error r (p - S at_) = Some c' /\
                              Tk.has_tag t c' = true)).
      { split.
        - intros (Hp & c' & E & T').
          destruct (Nat.eq_dec p at_) as [->|Hne].
          + rewrite Nat.sub_diag in E. injection E as <-. congruence.
          + split; [lia|]. exists c'.
            replace (p - at_) with (S (p - S at_)) in E by lia. auto.
        - intros (Hp & c' & E & T'). split; [lia|]. exists c'.
          replace (p - at_) with (S (p - S at_)) by lia. auto. }
      rewrite N, <- R. destruct open as [s|].
      * split.
        -- intros (x & [<-|Hx] & Hr).
           ++ left. exists s. split; [reflexivity | exact Hr].
           ++ right. exists x. auto.
        -- intros [(s' & E & Hs)|(x & Hx & Hr)].
           ++ injection E as <-. exists (s, at_). split; [left; reflexivity|exact Hs].
           ++ exists x. split; [right; exact Hx | exact Hr].
      * split.
        -- intros H. right. exact H.
        -- intros [(s' & E & _)|H]; [discriminate E | exact H].
Qed.

Lemma ranges_from_bounds :
  forall t cs at_ open r,
    (forall s, open = Some s -> s <= at_) ->
    In r (Tk.ranges_from t at_ open cs) ->
    fst r <= snd r /\ snd r <= at_ + length cs.
Proof.
  intros t cs. induction cs as [|c l IH]; intros at_ open r Ho H.
  - cbn [Tk.ranges_from] in H. destruct open as [s|]; [|destruct H].
    destruct H as [<-|[]]. specialize (Ho s eq_refl). cbn [fst snd length]. lia.
  - cbn [Tk.ranges_from length] in *. destruct (Tk.has_tag t c).
    + apply IH in H; [lia|]. intros s E.
      destruct open as [s0|]; injection E as <-;
        [specialize (Ho s0 eq_refl)|]; lia.
    + destruct open as [s|].
      * destruct H as [<-|H].
        -- specialize (Ho s eq_refl). cbn [fst snd]. lia.
        -- apply IH in H; [lia|]. intros s' E. discriminate E.
      * apply IH in H; [lia|]. intros s' E. discriminate E.
Qed.

(** A character carries a tag when it lies in one of the ranges of the
    tag. *)
Lemma tag_ranges_cover :
  forall w t p,
    In t (Tk.tag_names w p) <->
    exists r, In r (Tk.tag_ranges w t) /\ fst r <= p < snd r.
Proof.
  intros w t p. unfold Tk.tag_ranges.
  rewrite ranges_from_covers by (intros s E; discriminate E).
  unfold Tk.tag_names. rewrite Nat.sub_0_r. split.
  - intros H. right. split; [lia|].
    destruct (nth_error (Tk.cells w) p) as [c|]; [|destruct H].
    exists c. split; [reflexivity|]. apply has_tag_true. exact H.
  - intros [(s & E & _)|(_ & c & E & T)]; [discriminate E|].
    rewrite E. apply has_tag_true. exact T.
Qed.

Lemma fold_tag_add_at :
  forall tag (l : list (nat * nat)) w p u,
    In u (Tk.tag_names
            (fold_left (fun w r => Tk.tag_add w tag (fst r) (snd r)) l w) p)
    <->
    In u (Tk.tag_names w p) \/
    (u = tag /\ p < Tk.END w /\ exists r, In r l /\ fst r <= p < snd r).
Proof.
  intros tag l. induction l as [|r l IH]; intros w p u.
  - cbn [fold_left]. split; [auto|]. intros [H|(_ & _ & r & [] & _)]. exact H.
  - cbn [fold_left]. rewrite IH, tag_add_at.
    assert (E : Tk.END (Tk.tag_add w tag (fst r) (snd r)) = Tk.END w).
    { unfold Tk.END, Tk.tag_add, Tk.with_cells. cbn [Tk.cells].
      apply TkFacts.length_on_range. }
    rewrite E. split.
    + intros [[H|(H1 & H2 & H3)]|(H1 & H2 & x & Hx & Hr)].
      * left. exact H.
      * right. split; [exact H1|]. split; [exact H3|].
        exists r. split; [left; reflexivity | exact H2].
      * right. split; [exact H1|]. split; [exact H2|].
        exists x. split; [right; exact Hx | exact Hr].
    + intros [H|(H1 & H2 & x & [<-|Hx] & Hr)].
      * left. left. exact H.
      * left. right. tauto.
      * right. split; [exact H1|]. split; [exact H2|]. eauto.
Qed.

(** ** Ranges written for one text and applied to another *)

(** The newlines of [w'] stand where those of [w] do, as far as [w]
    goes. *)
Definition same_lines (w w' : Tk.text) : Prop :=
  Tk.END w <= Tk.END w' /\
  firstn (Tk.END w) (map Tk.is_newline (Tk.cells w))
  = firstn (Tk.END w) (map Tk.is_newline (Tk.cells w')).

Lemma newlines_items :
  forall a b,
    map Tk.item_of a = map Tk.item_of b ->
    map Tk.is_newline a = map Tk.is_newline b.
Proof.
  intros a b H.
  assert (E : forall l, map Tk.is_newline l
                        = map (fun i => match i with
                                        | Tk.Chr x => Ascii.eqb x Tk.newline
                                        | Tk.Pic _ => false
                                        end) (map Tk.item_of l)).
  { intros l. rewrite map_map. reflexivity. }
  rewrite (E a), (E b), H. reflexivity.
Qed.

Lemma same_lines_tag_add :
  forall w w' t i j, same_lines w w' -> same_lines w (Tk.tag_add w' t i j).
Proof.
  intros w w' t i j [H1 H2]. unfold same_lines, Tk.END, Tk.tag_add,
    Tk.with_cells in *. cbn [Tk.cells].
  rewrite TkFacts.length_on_range. split; [exact H1|]. rewrite H2.
  f_equal. apply newlines_items. symmetry. apply on_range_items.
  intros c. unfold Tk.add_to. destruct (Tk.has_tag t c); reflexivity.
Qed.

Lemma same_lines_parse :
  forall w w' p,
    same_lines w w' -> p <= Tk.END w ->
    Tk.parse_index w' (Tk.index_text w p) = Some p.
Proof.
  intros w w' p [H1 H2] Hp. apply parse_index_index_text; [lia|].
  rewrite <- (Nat.min_l p (Tk.END w)) by exact Hp.
  rewrite <- !firstn_firstn. rewrite H2. reflexivity.
Qed.

(** The pairs that [save_formatting_data] writes for a list of ranges of
    [w]. *)
Definition written (w : Tk.text) (l : list (nat * nat)) : list json :=
  map (fun r =>
         JList [JStr (Tk.index_text w (fst r)); JStr (Tk.index_text w (snd r))])
      l.

(** Applied to a text with the same lines, the pairs written for [w] put
    the tag on the ranges they were written for, and nothing raises. *)
Lemma apply_ranges_written :
  forall w tag l s,
    (forall r, In r l -> fst r <= Tk.END w /\ snd r <= Tk.END w) ->
    same_lines w (text_area s) ->
    apply_ranges tag (JList (written w l)) s
    = (Returned tt,
       set_text_area
         (fold_left (fun w' r => Tk.tag_add w' tag (fst r) (snd r)) l
            (text_area s)) s).
Proof.
  intros w tag l. unfold apply_ranges, iterate.
  change (bind (ret ?a) ?k) with (k a). cbv beta.
  induction l as [|r l IH]; intros s Hl Hs.
  - cbn [written map for_each fold_left]. rewrite set_text_area_same.
    reflexivity.
  - cbn [written map for_each fold_left].
    destruct (Hl r (or_introl eq_refl)) as [Ha Hb].
    unfold unpack_pair, tag_add_loaded, index_arg.
    change (bind (ret ?a) ?k) with (k a). cbv beta. cbn [fst snd].
    unfold bind at 1. unfold bind at 1. unfold bind at 1.
    cbn [read]. rewrite (same_lines_parse Hs Ha). cbn [or_raise ret].
    unfold bind at 1. unfold bind at 1.
    cbn [read]. rewrite (same_lines_parse Hs Hb). cbn [or_raise ret].
    cbn [edit update].
    fold (written w l).
    rewrite IH.
    + reflexivity.
    + intros x Hx. apply Hl. right. exact Hx.
    + cbn [text_area set_text_area]. apply same_lines_tag_add. exact Hs.
Qed.

Lemma tag_ranges_inside :
  forall w t r,
    In r (Tk.tag_ranges w t) -> fst r <= Tk.END w /\ snd r <= Tk.END w.
Proof.
  intros w t r H. unfold Tk.tag_ranges in H.
  apply ranges_from_bounds in H; [|intros s E; discriminate E].
  unfold Tk.END. lia.
Qed.

Lemma END_fold_tag_add :
  forall tag (l : list (nat * nat)) w,
    Tk.END (fold_left (fun w r => Tk.tag_add w tag (fst r) (snd r)) l w)
    = Tk.END w.
Proof.
  intros tag l. induction l as [|r l IH]; intros w; [reflexivity|].
  cbn [fold_left]. rewrite IH. unfold Tk.END, Tk.tag_add, Tk.with_cells.
  cbn [Tk.cells]. apply TkFacts.length_on_range.
Qed.

Lemma same_lines_fold_tag_add :
  forall tag (l : list (nat * nat)) w w',
    same_lines w w' ->
    same_lines w
      (fold_left (fun w r => Tk.tag_add w tag (fst r) (snd r)) l w').
Proof.
  intros tag l. induction l as [|r l IH]; intros w w' H; [exact H|].
  cbn [fold_left]. apply IH. apply same_lines_tag_add. exact H.
Qed.

(** The three styles that are flags. *)
Definition flag_style (u : string) : Prop :=
  u = "bold" \/ u = "italic" \/ u = "underline".

Lemma flag_style_is_no_size_or_family :
  forall u x,
    flag_style u -> u <> ("size_" ++ x)%string /\ u <> family_tag x.
Proof.
  intros u x [H|[H|H]]; subst u; split; discriminate.
Qed.

(** Tags of sizes and families leave the three flags where they are. *)
Lemma flags_apply_ranges :
  forall (B : nat -> string -> Prop) tag ranges,
    (forall u, flag_style u -> u <> tag) ->
    preserves
      (fun s => forall p u, flag_style u ->
                            (In u (styles_at s p) <-> B p u))
      (apply_ranges tag ranges).
Proof.
  intros B tag ranges Htag.
  unfold apply_ranges, iterate, unpack_pair, tag_add_loaded, index_arg.
  repeat step_body; intros st H q v Hv; specialize (H q v Hv);
    unfold styles_at in *; cbn [text_area set_text_area];
    rewrite tag_add_at, <- H; split; try tauto;
    (intros [G|(G & _)]; [exact G | destruct (Htag v Hv G)]).
Qed.

(** What loading does with the formatting that [save_formatting_data]
    wrote for [w], on a text with the same lines: the three flags go on
    the characters that had them in [w]. *)
Lemma load_saved_formatting :
  forall w sizes fams s p u,
    same_lines w (text_area s) ->
    flag_style u ->
    In u (styles_at
            (run (load_formatting
                    (Dumped
                       (JDict [("bold", JList (range_pairs w "bold"));
                               ("italic", JList (range_pairs w "italic"));
                               ("underline",
                                 JList (range_pairs w "underline"));
                               ("font_size", JDict sizes);
                               ("font_family", JDict fams)]))) s) p)
    <->
    In u (styles_at s p) \/
    (p < Tk.END (text_area s) /\ In u (Tk.tag_names w p)).
Proof.
  intros w sizes fams s p u Hs Hu.
  set (bolds := Tk.tag_ranges w "bold").
  set (italics := Tk.tag_ranges w "italic").
  set (unders := Tk.tag_ranges w "underline").
  set (w1 := fold_left (fun w' r => Tk.tag_add w' "bold" (fst r) (snd r))
               bolds (text_area s)).
  set (w2 := fold_left (fun w' r => Tk.tag_add w' "italic" (fst r) (snd r))
               italics w1).
  set (w3 := fold_left (fun w' r => Tk.tag_add w' "underline" (fst r) (snd r))
               unders w2).
  assert (S1 : same_lines w w1) by (apply same_lines_fold_tag_add; exact Hs).
  assert (S2 : same_lines w w2) by (apply same_lines_fold_tag_add; exact S1).
  assert (T3 : forall q v,
             In v (Tk.tag_names w3 q) <->
             In v (styles_at s q) \/
             (q < Tk.END (text_area s) /\
              ((v = "bold" /\ In v (Tk.tag_names w q)) \/
               (v = "italic" /\ In v (Tk.tag_names w q)) \/
               (v = "underline" /\ In v (Tk.tag_names w q))))).
  { intros q v. unfold w3, w2, w1, styles_at.
    rewrite !fold_tag_add_at, !END_fold_tag_add.
    rewrite !(tag_ranges_cover w).
    fold bolds italics unders. split.
    - intros [[[H|(E & H1 & H2)]|(E & H1 & H2)]|(E & H1 & H2)];
        [left; exact H | right | right | right];
        (split; [exact H1|]); subst v; tauto.
    - intros [H|(H1 & [(E & H2)|[(E & H2)|(E & H2)]])]; subst; tauto. }
  unfold run, load_formatting. cbn [worth_loading when try_except snd].
  cbn [json_loads or_raise]. exec.
  change (get_or "bold" (JList []) (JDict ?d))
    with (ret (JList (written w bolds))).
  exec.
  match goal with
  | |- context [bind (apply_ranges ?t ?x) ?k ?st] =>
      rewrite (@bind_returned _ _ (apply_ranges t x) k st _ _
                 (@apply_ranges_written w t bolds st
                    (@tag_ranges_inside w "bold") Hs))
  end.
  cbn [text_area set_formatting_data set_text_area]. fold w1.
  change (get_or "italic" (JList []) (JDict ?d))
    with (ret (JList (written w italics))).
  exec.
  match goal with
  | |- context [bind (apply_ranges ?t ?x) ?k ?st] =>
      rewrite (@bind_returned _ _ (apply_ranges t x) k st _ _
                 (@apply_ranges_written w t italics st
                    (@tag_ranges_inside w "italic") S1))
  end.
  cbn [text_area set_formatting_data set_text_area]. fold w2.
  change (get_or "underline" (JList []) (JDict ?d))
    with (ret (JList (written w unders))).
  exec.
  match goal with
  | |- context [bind (apply_ranges ?t ?x) ?k ?st] =>
      rewrite (@bind_returned _ _ (apply_ranges t x) k st _ _
                 (@apply_ranges_written w t unders st
                    (@tag_ranges_inside w "underline") S2))
  end.
  cbn [text_area set_formatting_data set_text_area]. fold w3.
  match goal with
  | |- In u (styles_at (snd (?c ?st)) p) <-> _ =>
      assert (R : forall q v, flag_style v ->
                    (In v (styles_at (run c st) q)
                     <-> In v (Tk.tag_names w3 q)))
  end.
  { apply (@preserves_run
             (fun s' => forall q v, flag_style v ->
                          (In v (styles_at s' q)
                           <-> In v (Tk.tag_names w3 q)))).
    - unfold get_or, items.
      repeat step_body;
        try (apply flags_apply_ranges; intros v Hv;
             apply (flag_style_is_no_size_or_family _ Hv));
        intros st H; exact H.
    - intros q v _. reflexivity. }
  unfold run in R. rewrite (R p u Hu), T3.
  destruct Hu as [E|[E|E]]; subst u; split;
    try (intros [H|(H1 & [(_ & H2)|[(E' & H2)|(E' & H2)]])];
         try discriminate; tauto);
    intros [H|(H1 & H2)]; tauto.
Qed.

(** ** A note without pictures, saved and opened *)

(** Every cell of the text is a character. *)
Definition no_pictures (w : Tk.text) : Prop :=
  forall c, In c (Tk.cells w) -> exists a, Tk.item_of c = Tk.Chr a.

Lemma length_chars_no_pictures :
  forall cs,
    (forall c, In c cs -> exists a, Tk.item_of c = Tk.Chr a) ->
    String.length (Tk.chars cs) = length cs.
Proof.
  induction cs as [|c r IH]; intros H; [reflexivity|].
  destruct (H c (or_introl eq_refl)) as [a E].
  cbn [Tk.chars length]. rewrite E. cbn [String.length].
  rewrite IH; [reflexivity|]. intros x Hx. apply H. right. exact Hx.
Qed.

Lemma newlines_of_chars :
  forall cs tags,
    (forall c, In c cs -> exists a, Tk.item_of c = Tk.Chr a) ->
    map Tk.is_newline
        (map (fun a => Tk.Cell (Tk.Chr a) tags)
             (list_ascii_of_string (Tk.chars cs)))
    = map Tk.is_newline cs.
Proof.
  induction cs as [|c r IH]; intros tags H; [reflexivity|].
  destruct (H c (or_introl eq_refl)) as [a E].
  cbn [Tk.chars]. rewrite E. cbn [list_ascii_of_string map].
  rewrite IH by (intros x Hx; apply H; right; exact Hx).
  f_equal. unfold Tk.is_newline. cbn [Tk.item_of]. rewrite E. reflexivity.
Qed.

(** The text that the loader makes of the content saved for [w] has the
    lines of [w]. *)
Lemma same_lines_loaded :
  forall w w0,
    no_pictures w -> final_newline w0 ->
    same_lines w
      (Tk.insert (Tk.delete w0 0 (Tk.END w0)) 0 (Tk.chars (Tk.cells w))).
Proof.
  intros w w0 Hw H0. unfold same_lines, Tk.END.
  rewrite (content_loaded _ H0).
  rewrite length_app, length_map, TkFacts.length_chars,
    (length_chars_no_pictures _ Hw).
  split; [lia|].
  rewrite map_app, (newlines_of_chars _ [] Hw).
  rewrite firstn_app, length_map, Nat.sub_diag, firstn_O, app_nil_r.
  reflexivity.
Qed.

(** A note without pictures that is saved for the first time and opened
    from its row comes back with every character it had, and with bold,
    italic and underline on the characters that had them: the indices
    that [save_formatting_data] writes are read back as the offsets they
    were written for.  What the note gains is the newline at its end. *)
Theorem flags_survive_save_and_open :
  forall s t now,
    reachable s ->
    current_note_id s = None ->
    Py.strip (buffer s) <> "" ->
    t <> "" ->
    images_data s = JDict [] ->
    no_pictures (text_area s) ->
    let s1 := handle (MenuSave (Some t) now) s in
    exists r,
      get_note_content (Some (note_id r)) (disk s1) = Some r /\
      content r = buffer s /\
      let s2 := run (open_note_by_id (Some (note_id r))) s1 in
      Tk.get (text_area s2) 0 (Tk.END (text_area s)) = buffer s /\
      forall p u,
        p < Tk.END (text_area s) ->
        flag_style u ->
        (In u (styles_at s2 p) <-> In u (styles_at s p)).
Proof.
  intros s t now Hr Hid Hbody Ht Himg Hpic s1.
  set (w := text_area s).
  assert (D : disk s1
              = save_note_to_db t (buffer s) (images_data s)
                  (formatting_data (run save_formatting_data s)) now
                  (disk s)).
  { unfold s1, handle. rewrite disk_on_text_modified. cbn [command].
    apply disk_first_save; assumption. }
  unfold save_note_to_db in D.
  destruct (appended_row_is_found (disk s) t (buffer s) now
              (dumps_or_empty (images_data s))
              (dumps_or_empty
                 (formatting_data (run save_formatting_data s))))
    as [_ A2].
  rewrite <- D in A2.
  eexists. split; [exact A2|]. split; [reflexivity|].
  cbv zeta. rewrite (open_note_by_id_result _ s1 A2).
  cbn [images formatting content title note_id].
  rewrite Himg.
  set (s5 := set_image_counter 0 _).
  assert (L : run (load_images (dumps_or_empty (JDict []))) s5 = s5)
    by reflexivity.
  rewrite L.
  assert (W : text_area (set_formatting_data (JDict []) s5)
              = Tk.insert
                  (Tk.delete (text_area s1) 0 (Tk.END (text_area s1))) 0
                  (Tk.chars (Tk.cells w))).
  { unfold s5, reset_format.
    cbn [text_area set_formatting_data set_image_counter set_images_data
         set_current_format set_text_area set_current_note_id].
    rewrite buffer_chars. reflexivity. }
  assert (N1 : final_newline (text_area s1)).
  { apply reachable_final_newline. unfold s1. apply reach_step. exact Hr. }
  assert (SL : same_lines w (text_area (set_formatting_data (JDict []) s5))).
  { rewrite W. apply same_lines_loaded; assumption. }
  assert (U : untagged (text_area (set_formatting_data (JDict []) s5))).
  { rewrite W. apply untagged_insert, untagged_delete_all. }
  assert (Len : String.length (buffer s) = Tk.END w).
  { rewrite buffer_chars. apply length_chars_no_pictures. exact Hpic. }
  split.
  - cbn [text_area set_status_bar].
    rewrite (get_items _ _ 0 (Tk.END (text_area s))
               (items_load_formatting _ _)).
    rewrite W. fold w. rewrite <- Len, buffer_chars.
    apply content_put_in.
  - intros p u Hp Hu. unfold styles_at at 1. cbn [text_area set_status_bar].
    change (dumps_or_empty (formatting_data (run save_formatting_data s)))
      with (Dumped
              (JDict [("bold", JList (range_pairs w "bold"));
                      ("italic", JList (range_pairs w "italic"));
                      ("underline", JList (range_pairs w "underline"));
                      ("font_size",
                        JDict (fold_left
                                 (fun d size =>
                                    collect w (Py.str size) (size_tag size) d)
                                 saved_sizes []));
                      ("font_family",
                        JDict (fold_left
                                 (fun d family =>
                                    collect w family (family_tag family) d)
                                 (families s) []))])).
    change (Tk.tag_names (text_area ?x) p) with (styles_at x p).
    rewrite (load_saved_formatting _ _ _ p SL Hu).
    unfold styles_at. rewrite (styles_untagged p U).
    destruct SL as [SL1 _]. fold w in Hp. split.
    + intros [[]|[_ H]]. exact H.
    + intros H. right. split; [lia | exact H].
Qed.

Lemma flags_survive_save_and_open_witness :
  exists r,
    get_note_content (Some (note_id r))
      (disk
         (handle (MenuSave (Some "t") 5%Z)
            (handle (Key "a")
               (handle Bold (handle MenuNew (init (Database [] []) []))))))
    = Some r /\
    content r = String "a" (String Tk.newline EmptyString).
Proof.
  assert (H1 : Py.strip
                 (buffer
                    (handle (Key "a")
                       (handle Bold
                          (handle MenuNew (init (Database [] []) [])))))
               <> "") by (vm_compute; discriminate).
  assert (H2 : "t" <> "") by discriminate.
  assert (H3 : no_pictures
                 (text_area
                    (handle (Key "a")
                       (handle Bold
                          (handle MenuNew (init (Database [] []) [])))))).
  { intros c Hc. vm_compute in Hc.
    destruct Hc as [<-|[<-|[]]]; eexists; reflexivity. }
  destruct (@flags_survive_save_and_open
              (handle (Key "a")
                 (handle Bold (handle MenuNew (init (Database [] []) []))))
              "t" 5%Z
              (reach_step _ (reach_step _ (reach_step _ (reach_init _ _))))
              eq_refl H1 H2 eq_refl H3) as (r & A & B & _).
  exists r. split; [exact A | rewrite B; reflexivity].
Defined.

(** * A stored id that is a digit and no number *)

(** [load_images] stores what the column holds before it places anything,
    and nothing after that assigns [images_data]. *)
Lemma images_load_images :
  forall c s p d,
    json_loads c = Some (JDict (p :: d)) ->
    images_data (run (load_images c) s) = JDict (p :: d).
Proof.
  intros c s p d H. destruct c as [|t|j]; try discriminate H.
  cbn [json_loads] in H. injection H as ->.
  set (P := fun s' : world => images_data s' = JDict (p :: d)).
  assert (T : triple (fun _ => True) (load_images (Dumped (JDict (p :: d))))
                (fun _ => P) P).
  { unfold load_images. cbn [worth_loading when]. apply triple_try_except.
    cbn [json_loads or_raise]. bind_ret.
    eapply triple_bind;
      [apply triple_update with (Q := P); intros; reflexivity|].
    intros ?. unfold items. bind_ret.
    eapply triple_bind.
    { apply triple_for_each. intros [img_id img_data].
      apply triple_try_except, preserves_triple, preserves_bind;
        [apply preserves_read
        |intros w; apply blind_place_image; intros; assumption]. }
    intros ?. cbv beta. cbn [truthy when].
    destruct (numeric_ids (map fst (p :: d))); unfold or_raise; bind_ret;
      [apply triple_update; intros; assumption | auto]. }
  specialize (T s I). unfold run.
  destruct (load_images _ s) as [[a|e] s']; exact T.
Qed.

(** The images of a note that is opened are those of its row, whatever
    their keys.  Where one key is let through by [isdigit] and not read by
    [int], the comprehension of line 1392 raises into the handler of line
    1393 and the counter is not assigned: it is 0, whatever ids are
    stored.  With the ids 0 and superscript two stored, the next image
    takes the id 0 again and replaces the stored image. *)
Theorem a_key_that_int_rejects_stops_the_counter :
  forall s id row p d k,
    get_note_content id (disk s) = Some row ->
    json_loads (images row) = Some (JDict (p :: d)) ->
    In k (Py.keys (p :: d)) ->
    Py.isdigit k = true ->
    Py.int k = None ->
    numeric_ids (Py.keys (p :: d)) = None /\
    images_data (run (open_note_by_id id) s) = JDict (p :: d) /\
    image_counter (run (open_note_by_id id) s) = 0%Z /\
    images_data
      (play [OpenNote 1 "t";
             InsertImage (Some (ImageBytes "PNG" (Pixels "c" 10 10)))]
         (init (Database
                  [Note 1 "t" "a" (CURRENT_TIMESTAMP 0) 0
                     (Dumped
                        (JDict
                           [("0", JB64 (ImageBytes "PNG" (Pixels "a" 10 10)));
                            (String "178" EmptyString,
                             JB64 (ImageBytes "PNG" (Pixels "b" 10 10)))]))
                     Null] []) []))
    = JDict [("0", JB64 (ImageBytes "PNG" (Pixels "c" 10 10)));
             (String "178" EmptyString,
              JB64 (ImageBytes "PNG" (Pixels "b" 10 10)))].
Proof.
  intros s id row p d k Hrow Hl Hk D E.
  assert (N : numeric_ids (Py.keys (p :: d)) = None).
  { apply numeric_ids_raises. eauto. }
  split; [exact N|]. split; [|split].
  - rewrite (open_note_by_id_result id s Hrow).
    cbn [images_data set_status_bar].
    match goal with
    | |- images_data (run (load_formatting ?c) ?x) = ?v =>
        apply (@preserves_run (fun s' => images_data s' = v));
        [apply blind_load_formatting; intros; assumption|]
    end.
    cbn [images_data set_formatting_data].
    apply images_load_images. exact Hl.
  - rewrite (counter_open_note_by_id id s Hrow), Hl. unfold counter_of.
    rewrite N. reflexivity.
  - vm_compute. reflexivity.
Qed.

Lemma a_key_that_int_rejects_stops_the_counter_witness :
  image_counter
    (run (open_note_by_id (Some 1%Z))
       (init (Database
                [Note 1 "t" "a" (CURRENT_TIMESTAMP 0) 0
                   (Dumped
                      (JDict
                         [("0", JB64 (ImageBytes "PNG" (Pixels "a" 10 10)));
                          (String "178" EmptyString,
                           JB64 (ImageBytes "PNG" (Pixels "b" 10 10)))]))
                   Null] []) []))
  = 0%Z.
Proof.
  exact (proj1 (proj2 (proj2
           (@a_key_that_int_rejects_stops_the_counter
              (init (Database
                       [Note 1 "t" "a" (CURRENT_TIMESTAMP 0) 0
                          (Dumped
                             (JDict
                                [("0", JB64 (ImageBytes "PNG" (Pixels "a" 10 10)));
                                 (String "178" EmptyString,
                                  JB64 (ImageBytes "PNG" (Pixels "b" 10 10)))]))
                          Null] []) [])
              (Some 1%Z) _ _ _ (String "178" EmptyString)
              eq_refl eq_refl (or_intror (or_introl eq_refl))
              eq_refl eq_refl)))).
Defined.
